(** * DisneyBase: schedule cache, window selection and access-token cache

    A shallow embedding of [src/Disney/DisneyBase.js] and the properties of
    its schedule cache ([CacheScheduleData], [ParseScheduleData],
    [ParseScheduleEntry]), of the window selection and record assembly of
    [GetWaitTimes], of [GetOpeningTimes], and of the access-token cache and
    the authenticated requests ([GetAccessToken], [FetchAccessToken],
    [FetchURL]).

    Modelling conventions.
    - An instant is a [Z]: milliseconds since the Unix epoch, what
      [Date.now()] and [moment().valueOf()] return.
    - [park_timezone] is a fixed UTC offset in minutes, as [utcOffset()]
      reports it (local time = UTC + offset).  Daylight-saving transitions
      are outside the model.
    - A calendar date string ("YYYY-MM-DD", the format [GetWaitTimes]
      hard-codes for [dateToday] and compares with the cached [date]) is
      kept as the number of the local day it names (days since the epoch).
    - A time string printed with [timeFormat] is kept as the instant it
      denotes.  With the default format "YYYY-MM-DDTHH:mm:ssZ" that is the
      printed instant truncated to the second, and [moment] parses the
      string back to exactly that instant (this is how [isBetween] reads
      the cached strings).
    - A JSON body is kept after [JSON.parse], as a record with one optional
      field per property the program reads.  Numbers are integers
      ([expires_in] is a whole number of seconds), and the program's
      arithmetic on them is written on [Z]: it is the arithmetic of
      doubles as long as the values stay below 2^53, and the statements
      that depend on the value computed carry that bound.
    - [scheduleCache[resort].data] is a plain object used as a map from
      cleaned ids to arrays: a lookup also finds what every object
      inherits from [Object.prototype], see [getProperty].  The resort and
      park ids under which the program itself stores and reads are
      configuration values; they are taken not to be such names.
    - [dateFormat], [timeFormat] and [timeFormatTimezone] are set by
      parkBase, which is not among the sources; they are taken at their
      defaults ("YYYY-MM-DD", "YYYY-MM-DDTHH:mm:ssZ", the park's zone).
      [MakeNetworkRequest], also of parkBase, is the transport: it is a
      parameter of every operation that goes upstream. *)

From Stdlib Require Import ZArith List String Ascii Bool Lia.
From stdpp Require Import base option list sorting strings pretty gmap.

Local Open Scope string_scope.
Local Open Scope list_scope.
Local Open Scope Z_scope.

(** ** moment / moment-timezone, as far as the program uses it *)

Module moment.

Definition DAY : Z := 86400000.
Definition HOUR : Z := 3600000.
Definition MINUTE : Z := 60000.

(** [m.tz(zone).format("YYYY-MM-DD")]: the local calendar day of an
    instant. *)
Definition formatDate (zone : Z) (m : Z) : Z := (m + zone * MINUTE) / DAY.

(** [moment.tz("YYYY-MM-DD", zone)]: local midnight of a calendar day. *)
Definition tzDate (zone : Z) (date : Z) : Z := date * DAY - zone * MINUTE.

(** [m.format(timeFormat)], second precision. *)
Definition format (m : Z) : Z := 1000 * (m / 1000).

(** [m.tz(zone).startOf("day")] and [m.tz(zone).endOf("day")]. *)
Definition startOfDay (zone : Z) (m : Z) : Z := tzDate zone (formatDate zone m).
Definition endOfDay (zone : Z) (m : Z) : Z := startOfDay zone m + DAY - 1.

(** [m.startOf()] and [m.endOf()] with no unit: [normalizeUnits(undefined)]
    is [undefined], for which both return [this] untouched. *)
Definition startOf_noUnit (m : Z) : Z := m.
Definition endOf_noUnit (m : Z) : Z := m.

(** [m.add(n, "day")]. *)
Definition addDays (n : Z) (m : Z) : Z := m + n * DAY.

Definition isBefore (a b : Z) : bool := a <? b.
Definition isAfter (a b : Z) : bool := b <? a.
Definition isSameOrBefore (a b : Z) : bool := a <=? b.

(** [m.isBetween(from, to)]: exclusive at both ends (the default
    inclusivity "()"). *)
Definition isBetween (m from to : Z) : bool := isAfter m from && isBefore m to.

End moment.

(** ** Data *)

(** A wall-clock string "HH:mm" of the upstream schedule. *)
Record HHmm := { hour : Z; minute : Z }.

Definition validHHmm (t : HHmm) : Prop :=
  0 <= hour t < 24 /\ 0 <= minute t < 60.

Definition msOfDay (t : HHmm) : Z :=
  hour t * moment.HOUR + minute t * moment.MINUTE.

(** One entry of [sched.schedule.schedules]. *)
Record RawEntry := {
  e_date : Z;
  e_startTime : HHmm;
  e_endTime : HHmm;
  e_type : string
}.

(** What [ParseScheduleEntry] returns: an object with the two printed
    times. *)
Record Times := { t_openingTime : Z; t_closingTime : Z }.

Record SpecialWindow := {
  sp_type : string;
  sp_openingTime : Z;
  sp_closingTime : Z
}.

(** A cached window.  [date] is [None] once the property has been deleted;
    [special] is [None] on the back-filled windows, which are created
    without that property. *)
Record DayWindow := {
  date : option Z;
  openingTime : Z;
  closingTime : Z;
  type : string;
  special : option (list SpecialWindow)
}.

Definition set_date (d : option Z) (w : DayWindow) : DayWindow :=
  {| date := d; openingTime := openingTime w; closingTime := closingTime w;
     type := type w; special := special w |}.

(** [w.special.push(x)] *)
Definition push_special (x : SpecialWindow) (w : DayWindow) : DayWindow :=
  {| date := date w; openingTime := openingTime w; closingTime := closingTime w;
     type := type w;
     special := match special w with Some l => Some (l ++ [x]) | None => None end |}.

Record ScheduleField := { schedules : option (list RawEntry) }.

(** One entry of [data.activities]. *)
Record Activity := {
  a_id : string;
  a_schedule : option ScheduleField
}.

(** The park configuration held by [self]. *)
Record Park := {
  park_id : option string;
  park_region : option string;
  resort_id : string;
  park_timezone : Z;
  scheduleMaxDates : Z;
  APIBase : string;
  _accessTokenURL : string;
  _appID : string
}.

(** ** A JavaScript object keyed by date strings

    The keys are "YYYY-MM-DD" strings, never array indices, so [for .. in]
    enumerates them in insertion order; assigning to an existing key keeps
    its position. *)

Definition DateObject := list (Z * DayWindow).

Fixpoint obj_get (k : Z) (o : DateObject) : option DayWindow :=
  match o with
  | [] => None
  | (k', v) :: o' => if Z.eqb k k' then Some v else obj_get k o'
  end.

Fixpoint obj_set (k : Z) (v : DayWindow) (o : DateObject) : DateObject :=
  match o with
  | [] => [(k, v)]
  | (k', v') :: o' =>
      if Z.eqb k k' then (k, v) :: o' else (k', v') :: obj_set k v o'
  end.

Definition obj_keys (o : DateObject) : list Z := map fst o.
Definition obj_values (o : DateObject) : list DayWindow := map snd o.

(** ** ParseScheduleEntry *)

(** [moment.tz(entry.date + hhmm, "YYYY-MM-DDHH:mm", zone)] *)
Definition tzDateTime (zone : Z) (d : Z) (t : HHmm) : Z :=
  moment.tzDate zone d + msOfDay t.

Definition ParseScheduleEntry (self : Park) (entry : RawEntry) : Times :=
  let openingTime := tzDateTime (park_timezone self) (e_date entry) (e_startTime entry) in
  let closingTime := tzDateTime (park_timezone self) (e_date entry) (e_endTime entry) in
  let closingTime :=
    if moment.isBefore closingTime openingTime
    then moment.addDays 1 closingTime
    else closingTime in
  {| t_openingTime := moment.format openingTime;
     t_closingTime := moment.format closingTime |}.

(** ** CleanRideID: the capture of [/^([^;]+)/] *)

Fixpoint untilSemicolon (s : string) : string :=
  match s with
  | EmptyString => EmptyString
  | String c r =>
      if Ascii.eqb c ";"%char then EmptyString else String c (untilSemicolon r)
  end.

Definition CleanRideID (ride_id : string) : string :=
  match untilSemicolon ride_id with
  | EmptyString => ride_id
  | capture => capture
  end.

(** ** ParseScheduleData: the per-activity loops *)

Definition openingTypes : list string := ["Operating"; "Closed"; "Refurbishment"].

(** [openingTypes.indexOf(t) >= 0] *)
Definition isOpeningType (t : string) : bool :=
  existsb (String.eqb t) openingTypes.

(** Body of the first loop: the "normal" operating hours. *)
Definition addStandard (self : Park) (startDate endDate : Z)
    (times : DateObject) (time : RawEntry) : DateObject :=
  if isOpeningType (e_type time) then
    let day := moment.tzDate (park_timezone self) (e_date time) in
    if moment.isAfter day endDate then times
    else if moment.isBefore day startDate then times
    else
      let t := ParseScheduleEntry self time in
      let dayObj :=
        {| date := Some (moment.formatDate (park_timezone self) day);
           openingTime := t_openingTime t;
           closingTime := t_closingTime t;
           type := if String.eqb (e_type time) "Operating" then "Operating" else "Closed";
           special := Some [] |} in
      obj_set (moment.formatDate (park_timezone self) day) dayObj times
  else times.

(** Body of the second loop: the special hours. *)
Definition addSpecial (self : Park) (startDate endDate : Z)
    (times : DateObject) (time : RawEntry) : DateObject :=
  if negb (isOpeningType (e_type time)) then
    let day := moment.tzDate (park_timezone self) (e_date time) in
    if moment.isAfter day endDate then times
    else if moment.isBefore day startDate then times
    else
      let dayFormatted := moment.formatDate (park_timezone self) day in
      let t := ParseScheduleEntry self time in
      let dayObj :=
        {| sp_type := e_type time;
           sp_openingTime := t_openingTime t;
           sp_closingTime := t_closingTime t |} in
      match obj_get dayFormatted times with
      | Some w => obj_set dayFormatted (push_special dayObj w) times
      | None => times
      end
  else times.

(** The values [day] takes in
    [for (day = startDate.clone(); day.isSameOrBefore(endDate); day.add(1, "day"))]. *)
Definition dayLoop (startDate endDate : Z) : list Z :=
  map (fun k => moment.addDays (Z.of_nat k) startDate)
      (seq 0 (Z.to_nat ((endDate - startDate) / moment.DAY + 1))).

(** Body of the third loop: missing days.  The stored [date] is a printed,
    non-empty string, so [!times[dayFormatted].date] is false for every
    window the first loop stored. *)
Definition fillMissing (self : Park) (times : DateObject) (day : Z) : DateObject :=
  let dayFormatted := moment.formatDate (park_timezone self) day in
  match obj_get dayFormatted times with
  | Some {| date := Some _ |} => times
  | _ =>
      obj_set dayFormatted
        {| date := Some (moment.formatDate (park_timezone self) day);
           openingTime := moment.format (moment.startOf_noUnit day);
           closingTime := moment.format (moment.endOf_noUnit day);
           type := "Closed";
           special := None |}
        times
  end.

(** The array stored for one activity. *)
Definition parseActivity (self : Park) (startDate endDate : Z)
    (entries : list RawEntry) : list DayWindow :=
  let times := fold_left (addStandard self startDate endDate) entries [] in
  let times := fold_left (addSpecial self startDate endDate) entries times in
  let times := fold_left (fillMissing self) (dayLoop startDate endDate) times in
  obj_values times.

(** The [schedule] object built by the outer loop. *)
Definition parseActivities (self : Park) (startDate endDate : Z)
    (activities : list Activity) : gmap string (list DayWindow) :=
  fold_left
    (fun schedule sched =>
       match a_schedule sched with
       | Some {| schedules := Some entries |} =>
           <[CleanRideID (a_id sched) := parseActivity self startDate endDate entries]> schedule
       | _ => schedule
       end)
    activities ∅.

(** ** Upstream payloads, after [JSON.parse] *)

Record FastPass := { available : option bool }.

(** The nested live-status object [ride.waitTime]. *)
Record WaitTime := {
  postedWaitMinutes : option Z;
  w_status : option string;
  w_fastPass : option FastPass
}.

(** One entry of [data.entries].  A field is [None] when the property is
    absent; a [null] in its place takes the same path through the program
    (for [waitTime], the exception of line 107 then names [null] instead of
    [undefined]). *)
Record LiveEntry := {
  l_id : option string;
  l_name : option string;
  l_type : option string;
  l_waitTime : option WaitTime
}.

(** A parsed JSON object, by the properties the program reads.  An element
    of [entries] is [None] for [null], the one JSON value whose [id] cannot
    be read; any other element is taken with the properties it has (a number
    or a string has none of them). *)
Record JsonObject := {
  access_token : option string;
  expires_in : option Z;
  activities : option (list Activity);
  entries : option (list (option LiveEntry))
}.

(** A parsed body: a falsy value ([null]) or an object. *)
Inductive Json :=
| JsonNull
| JsonObj (o : JsonObject).

(** JavaScript truthiness of an optional string and of an optional number. *)
Definition truthyString (v : option string) : bool :=
  match v with
  | Some EmptyString | None => false
  | Some _ => true
  end.

Definition truthyNumber (v : option Z) : bool :=
  match v with
  | Some n => negb (n =? 0)
  | None => false
  end.

(** ** The transport *)

(** The [data] objects the program sends: [{region}] for the wait times and
    [{filters, startDate, endDate, region}] for the schedule. *)
Inductive RequestData :=
| RegionData (region : option string)
| ScheduleQuery (filters : string) (startDate endDate : Z) (region : option string).

(** The value of a request header: a string, a number ([Date.now()]), or an
    object (what the override loop of [FetchURL] stores). *)
Inductive HeaderValue :=
| HeaderString (v : string)
| HeaderNumber (v : Z)
| HeaderObject (v : list (string * string)).

(** The object handed to [MakeNetworkRequest]: [url], [method], [headers],
    and whichever of [qs], [data] and [body] is set. *)
Record Request := {
  url : string;
  method : string;
  headers : gmap string HeaderValue;
  req_qs : option RequestData;
  req_data : option RequestData;
  req_body : option string
}.

(** The [options] argument of [FetchURL]: [headers] (an object of strings),
    [method] and [data], each possibly absent. *)
Record Options := {
  o_headers : option (list (string * string));
  o_method : option string;
  o_data : option RequestData
}.

(** [{data: d}], the only options this file passes. *)
Definition withData (d : RequestData) : Options :=
  {| o_headers := None; o_method := None; o_data := Some d |}.

Record Response := {
  statusCode : Z;
  correlationHeader : option string
}.

(** What the callback of [MakeNetworkRequest] receives: an error (with the
    response, when there was one), or a response with its body run through
    [JSON.parse] ([None] when the body is not JSON). *)
Inductive Reply :=
| NetError (err : string) (resp : option Response)
| NetOk (resp : Response) (body : option Json).

(** The upstream: the reply to a request issued at an instant, and the time
    the reply takes. *)
Definition Transport := Request -> Z -> Reply * N.

(** ** Program state *)

Record AccessToken := {
  token : string;
  tok_expires : Z;
  correlation : option string
}.

Record CacheEntry := {
  expires : Z;
  data : gmap string (list DayWindow)
}.

(** [scheduleCache] (module level, keyed by resort), [self._accessToken],
    the wall clock read by [Date.now()] and [moment()], and the log of the
    requests issued. *)
Record State := {
  scheduleCache : gmap string CacheEntry;
  _accessToken : option AccessToken;
  clock : Z;
  requests : list Request
}.

Definition set_scheduleCache (c : gmap string CacheEntry) (s : State) : State :=
  {| scheduleCache := c; _accessToken := _accessToken s;
     clock := clock s; requests := requests s |}.

Definition set_accessToken (t : option AccessToken) (s : State) : State :=
  {| scheduleCache := scheduleCache s; _accessToken := t;
     clock := clock s; requests := requests s |}.

(** ** Callbacks as a state and error monad

    [Ok v] is [callback(null, v)], [Err e] is [callback(e)], and [Throw e]
    is an uncaught exception: no callback is invoked. *)

Inductive Outcome (A : Type) :=
| Ok (v : A)
| Err (e : string)
| Throw (e : string).
Arguments Ok {A} v.
Arguments Err {A} e.
Arguments Throw {A} e.

Definition M (A : Type) : Type := State -> Outcome A * State.

Definition ret {A} (v : A) : M A := fun s => (Ok v, s).

(** [if (err) return callback(err);] *)
Definition bind {A B} (m : M A) (k : A -> M B) : M B :=
  fun s =>
    match m s with
    | (Ok v, s') => k v s'
    | (Err e, s') => (Err e, s')
    | (Throw e, s') => (Throw e, s')
    end.

(** Modelled from the spec: [self.Error(message, cause, callback)] is
    defined in parkBase, which is not part of the sources.  Following the
    error-handling design it reports the failure to the immediate caller:
    the callback is invoked with the message as its error (the attached
    cause is not represented). *)
Definition Error {A} (message : string) : M A := fun s => (Err message, s).

(** [if (err) return self.Error(message, err, callback);] *)
Definition bindError {A B} (m : M A) (message : string) (k : A -> M B) : M B :=
  fun s =>
    match m s with
    | (Ok v, s') => k v s'
    | (Err _, s') => Error message s'
    | (Throw e, s') => (Throw e, s')
    end.

Notation "x <- m ;; k" := (bind m (fun x => k))
  (at level 100, m at level 99, right associativity).
Notation "x <- m 'onError' msg ;; k" := (bindError m msg (fun x => k))
  (at level 100, m at level 99, msg at level 99, right associativity).

(** [self.MakeNetworkRequest(request, callback)]: the request is issued at
    the current instant and the callback runs when the reply arrives. *)
Definition MakeNetworkRequest (net : Transport) (req : Request) : M Reply :=
  fun s =>
    let '(reply, elapsed) := net req (clock s) in
    (Ok reply,
     {| scheduleCache := scheduleCache s; _accessToken := _accessToken s;
        clock := clock s + Z.of_N elapsed; requests := requests s ++ [req] |}).

(** ** The access token *)

Definition accessTokenURLBody : string :=
  "grant_type=assertion&assertion_type=public&client_id=WDPRO-MOBILE.MDX.WDW.ANDROID-PROD".

Definition tokenRequest (self : Park) : Request :=
  {| url := _accessTokenURL self; method := "POST"; headers := ∅;
     req_qs := None; req_data := None; req_body := Some accessTokenURLBody |}.

(** The arithmetic of [expire_time] is JavaScript's, on doubles; it is
    written here on integers, with which it agrees as long as every value
    stays below 2^53 (a clock within the range of [Date], and [expires_in]
    an integer of at most some 10^11 seconds).  The statements about the
    computed expiry carry these bounds. *)
Definition FetchAccessToken (net : Transport) (self : Park) : M (string * Z) :=
  reply <- MakeNetworkRequest net (tokenRequest self) ;;
  match reply with
  | NetError _ _ => Error "Failed to get access token"
  | NetOk resp body =>
      if negb (statusCode resp =? 200) then
        Error "Unexpected status code for access token response, expected 200"
      else
        match body with
        | None => Error "Invalid JSON returned for access token"
        | Some (JsonObj o) =>
            if truthyString (access_token o) && truthyNumber (expires_in o) then
              fun s =>
                let expires_in := default 0 (expires_in o) in
                let expire_time := clock s + Z.max (expires_in - 30) 5 * 1000 in
                if expires_in <? 5 then
                  (Err ("Expirey time is very low: " ++ pretty expires_in)%string, s)
                else
                  (Ok (default "" (access_token o), expire_time), s)
            else Error "Invalid body response for access token"
        | Some JsonNull => Error "Invalid body response for access token"
        end
  end.

Definition GetAccessToken (net : Transport) (self : Park) : M string :=
  fun s =>
    let fetch : M string :=
      r <- FetchAccessToken net self ;;
      fun s' =>
        (Ok (fst r),
         set_accessToken
           (Some {| token := fst r; tok_expires := snd r; correlation := None |}) s') in
    match _accessToken s with
    | Some t =>
        if tok_expires t <=? clock s then fetch (set_accessToken None s)
        else (Ok (token t), s)
    | None => fetch s
    end.

(** ** FetchURL *)

Definition set_correlation (c : string) (s : State) : State :=
  match _accessToken s with
  | Some t =>
      set_accessToken
        (Some {| token := token t; tok_expires := tok_expires t; correlation := Some c |}) s
  | None => s
  end.

Definition truthyHeader (resp : option Response) : option string :=
  match resp with
  | Some r => if truthyString (correlationHeader r) then correlationHeader r else None
  | None => None
  end.

(** The headers [FetchURL] sets up, before the overrides. *)
Definition defaultHeaders (self : Park) (tok : string) (now : Z) : gmap string HeaderValue :=
  <["X-Correlation-ID" := HeaderNumber now]>
  (<["X-App-Id" := HeaderString (_appID self)]>
  (<["X-Conversation-Id" := HeaderString "WDPRO-MOBILE.MDX.CLIENT-PROD"]>
  (<["Accept" := HeaderString "application/json;apiversion=1"]>
  (<["Authorization" := HeaderString ("BEARER " ++ tok)%string]> ∅)))).

(** [for (var name in options.headers) headers[name] = options.headers;]:
    every name of [options.headers] receives the whole object.  (The names
    are header names; "__proto__" is not among them.) *)
Definition overrideHeaders (o : list (string * string)) (h : gmap string HeaderValue)
    : gmap string HeaderValue :=
  fold_left (fun h name => <[name := HeaderObject o]> h) (map fst o) h.

(** The [requestBody] of [FetchURL]. *)
Definition requestBody (self : Park) (u : string) (options : Options) (tok : string)
    (now : Z) : Request :=
  let headers := defaultHeaders self tok now in
  let headers :=
    match o_headers options with
    | Some o => overrideHeaders o headers
    | None => headers
    end in
  let method := if truthyString (o_method options)
                then default "" (o_method options) else "GET" in
  {| url := u; method := method; headers := headers;
     req_qs := if String.eqb method "GET" then o_data options else None;
     req_data := if String.eqb method "GET" then None else o_data options;
     req_body := None |}.

Definition FetchURL (net : Transport) (self : Park) (u : string) (options : Options)
    : M Json :=
  _ <- GetAccessToken net self onError "Error getting access token for API URL" ;;
  fun s =>
    match _accessToken s with
    | None => (Throw "TypeError: Cannot read property 'token' of null", s)
    | Some t =>
        let requestBody := requestBody self u options (token t) (clock s) in
        (reply <- MakeNetworkRequest net requestBody ;;
         fun s' =>
           let resp := match reply with NetError _ r => r | NetOk r _ => Some r end in
           let s' := match truthyHeader resp with
                     | Some c => set_correlation c s'
                     | None => s'
                     end in
           match reply with
           | NetError _ _ => Error "Error making API request" s'
           | NetOk _ None => Error "Invalid JSON data returned by API" s'
           | NetOk _ (Some JSONData) => (Ok JSONData, s')
           end) s
    end.

(** ** The schedule cache *)

Definition ConstructScheduleURL (self : Park) : string :=
  ("https://api.wdpro.disney.go.com/mobile-service/public/ancestor-activities-schedules/"
     ++ resort_id self ++ ";entityType=destination")%string.

Definition ConstructScheduleData (self : Park) (startDate endDate : Z) : RequestData :=
  ScheduleQuery "theme-park,Attraction"
    (moment.formatDate (park_timezone self) startDate)
    (moment.formatDate (park_timezone self) endDate)
    (park_region self).

(** [data[self.park_id]]: an unset [park_id] reads the key "undefined". *)
Definition parkKey (self : Park) : string := default "undefined" (park_id self).

Definition ParseScheduleData (self : Park) (d : Json) (startDate endDate : Z)
    : M (option (list DayWindow)) :=
  match d with
  | JsonNull => fun s => (Throw "TypeError: Cannot read property 'activities' of null", s)
  | JsonObj o =>
      match activities o with
      | None => Error "No schedule data returned"
      | Some acts =>
          fun s =>
            let schedule := parseActivities self startDate endDate acts in
            let entry := {| expires := clock s + 1000 * 60 * 60 * 12; data := schedule |} in
            (Ok (schedule !! parkKey self),
             set_scheduleCache (<[resort_id self := entry]> (scheduleCache s)) s)
      end
  end.

(** The part of [CacheScheduleData] after the cache check: fetch the
    schedule of [today .. today + scheduleMaxDates] and parse it. *)
Definition refreshSchedule (net : Transport) (self : Park) : M unit :=
  fun s =>
    let startDate := moment.startOfDay (park_timezone self) (clock s) in
    let endDate :=
      moment.endOfDay (park_timezone self)
        (moment.addDays (scheduleMaxDates self) (clock s)) in
    (d <- FetchURL net self (ConstructScheduleURL self)
            (withData (ConstructScheduleData self startDate endDate))
          onError "Error fetching park schedule" ;;
     match d with
     | JsonNull => Error "No schedule data returned"
     | JsonObj _ =>
         _ <- ParseScheduleData self d startDate endDate ;;
         ret tt
     end) s.

Definition CacheScheduleData (net : Transport) (self : Park) : M unit :=
  fun s =>
    match scheduleCache s !! resort_id self with
    | Some e =>
        if clock s <=? expires e then (Ok tt, s) else refreshSchedule net self s
    | None => refreshSchedule net self s
    end.

(** ** GetWaitTimes *)

(** The value of [obj.schedule] in a record: [undefined], [null] or a
    window object. *)
Inductive Schedule :=
| ScheduleUndefined
| ScheduleNull
| ScheduleWindow (w : DayWindow).

Definition scheduleOf (w : option DayWindow) : Schedule :=
  match w with
  | Some w => ScheduleWindow w
  | None => ScheduleNull
  end.

(** A record of the returned [rides] array.  When [r_schedule] comes from
    the cache it is the cached object itself (the record holds a
    reference); the value kept here is the object as it is once
    [GetWaitTimes] has deleted its [date], the only change the program ever
    makes to a cached window. *)
Record Ride := {
  r_id : string;
  r_name : string;
  r_waitTime : Z;
  r_active : bool;
  r_status : string;
  r_fastPass : option bool;
  r_schedule : Schedule
}.

Definition _expectedRideStatusStrings : list string := ["Operating"; "Closed"; "Down"].

Definition optStringEq (v : option string) (s : string) : bool :=
  match v with
  | Some x => String.eqb x s
  | None => false
  end.

(** [time.date == dateToday] *)
Definition dateEq (d : option Z) (dateToday : Z) : bool :=
  match d with
  | Some x => x =? dateToday
  | None => false
  end.

(** The scan [for (j = 0, time; time = cached[j++];)]: [todaysSchedule] and
    [obj.schedule], each as the index of the cached object it refers to
    ([None] for [null], respectively for the initial [{}]).  The cached
    arrays hold objects only, so the scan runs to the end of the array. *)
Fixpoint scanSchedule (timeNow dateToday : Z) (cached : list DayWindow) (j : nat)
    (todaysSchedule schedule : option nat) : option nat * option nat :=
  match cached with
  | [] => (todaysSchedule, schedule)
  | time :: rest =>
      let todaysSchedule :=
        if dateEq (date time) dateToday then Some j else todaysSchedule in
      let schedule :=
        if moment.isBetween timeNow (openingTime time) (closingTime time)
        then Some j else schedule in
      scanSchedule timeNow dateToday rest (S j) todaysSchedule schedule
  end.

(** The index of the cached window [obj.schedule] ends up referring to.
    The printed times of a cached window are non-empty strings, so
    [!obj.schedule.openingTime || !obj.schedule.closingTime] holds exactly
    when [obj.schedule] is still [{}]. *)
Definition selectSchedule (timeNow dateToday : Z) (cached : list DayWindow) : option nat :=
  let '(todaysSchedule, schedule) :=
    scanSchedule timeNow dateToday cached 0%nat None None in
  match schedule with
  | Some j => Some j
  | None =>
      match todaysSchedule with
      | Some j => Some j
      | None =>
          match cached with
          | [] => None
          | _ :: _ => Some 0%nat
          end
      end
  end.

(** The window attached to the record: the selected cached object, after
    [delete obj.schedule.date]. *)
Definition selectedWindow (timeNow dateToday : Z) (cached : list DayWindow)
    : option DayWindow :=
  match selectSchedule timeNow dateToday cached with
  | Some j => set_date None <$> cached !! j
  | None => None
  end.

(** The cached array after [delete obj.schedule.date]: the selected object
    is changed in place. *)
Definition deleteSelectedDate (timeNow dateToday : Z) (cached : list DayWindow)
    : list DayWindow :=
  match selectSchedule timeNow dateToday cached with
  | Some j => alter (set_date None) j cached
  | None => cached
  end.

(** The array stored under [id] in the schedule object of the resort (an
    own property of [scheduleCache[self.resort_id].data]). *)
Definition cachedSchedule (self : Park) (s : State) (id : string)
    : option (list DayWindow) :=
  e ← scheduleCache s !! resort_id self; data e !! id.

(** What a property inherited from [Object.prototype] holds: a function,
    with its [length], or an object without a [length]. *)
Inductive Inherited :=
| InheritedFunction (length : nat)
| InheritedObject.

(** The properties every plain object inherits: the methods of
    [Object.prototype], its [constructor] (the function [Object]) and the
    accessor [__proto__], which yields the prototype itself. *)
Definition objectPrototype : list (string * Inherited) :=
  [("constructor", InheritedFunction 1);
   ("hasOwnProperty", InheritedFunction 1);
   ("isPrototypeOf", InheritedFunction 1);
   ("propertyIsEnumerable", InheritedFunction 1);
   ("toLocaleString", InheritedFunction 0);
   ("toString", InheritedFunction 0);
   ("valueOf", InheritedFunction 0);
   ("__defineGetter__", InheritedFunction 2);
   ("__defineSetter__", InheritedFunction 2);
   ("__lookupGetter__", InheritedFunction 1);
   ("__lookupSetter__", InheritedFunction 1);
   ("__proto__", InheritedObject)].

Definition inherited (k : string) : option Inherited :=
  snd <$> find (fun p => String.eqb (fst p) k) objectPrototype.

(** What a lookup on the schedule object yields: a stored array, an
    inherited value, or [undefined]. *)
Inductive Property :=
| PropertyArray (cached : list DayWindow)
| PropertyInherited (v : Inherited)
| PropertyUndefined.

(** [data[id]] on the schedule object, which [ParseScheduleData] creates as
    [{}]: the array stored under [id], else what the object inherits under
    that name, else [undefined].  (An activity whose cleaned id is
    "__proto__" is stored by the model like any other; for the code the
    assignment makes its array the prototype of the schedule object, which
    [data["__proto__"]] then returns.  The two agree on every lookup but
    those of the names an array has: its indices, "length" and its
    methods.) *)
Definition getProperty (data : gmap string (list DayWindow)) (id : string) : Property :=
  match data !! id with
  | Some cached => PropertyArray cached
  | None =>
      match inherited id with
      | Some v => PropertyInherited v
      | None => PropertyUndefined
      end
  end.

(** The body of the loop over [data.entries], for one [ride]: [None] when
    the entry is skipped. *)
Definition assembleRide (self : Park) (timeNow dateToday : Z) (ride : LiveEntry)
    : M (option Ride) :=
  if truthyString (l_id ride) && truthyString (l_name ride)
     && truthyString (l_type ride) && optStringEq (l_type ride) "Attraction"
  then
    fun s =>
      let id := CleanRideID (default "" (l_id ride)) in
      let name := default "" (l_name ride) in
      let waitTime :=
        match l_waitTime ride with
        | Some w => if truthyNumber (postedWaitMinutes w)
                    then default 0 (postedWaitMinutes w) else 0
        | None => 0
        end in
      let active :=
        match l_waitTime ride with
        | Some w => optStringEq (w_status w) "Operating"
        | None => false
        end in
      let status :=
        match l_waitTime ride with
        | Some {| w_status := Some st |} =>
            if existsb (String.eqb st) _expectedRideStatusStrings then st else "Closed"
        | _ => "Closed"
        end in
      match l_waitTime ride with
      | None => (Throw "TypeError: Cannot read property 'fastPass' of undefined", s)
      | Some w =>
          let fastPass :=
            match w_fastPass w with
            | Some f => available f
            | None => None
            end in
          let obj sched :=
            {| r_id := id; r_name := name; r_waitTime := waitTime;
               r_active := active; r_status := status; r_fastPass := fastPass;
               r_schedule := sched |} in
          let allDay :=
            let zone := park_timezone self in
            {| date := None;
               openingTime := moment.format (moment.startOfDay zone (clock s));
               closingTime := moment.format (moment.endOfDay zone (clock s));
               type := if active then "Operating" else "Closed";
               special := None |} in
          match scheduleCache s !! resort_id self with
          | Some e =>
              match getProperty (data e) id with
              | PropertyArray cached =>
                  let e' :=
                    {| expires := expires e;
                       data := <[id := deleteSelectedDate timeNow dateToday cached]> (data e) |} in
                  (Ok (Some (obj (scheduleOf (selectedWindow timeNow dateToday cached)))),
                   set_scheduleCache (<[resort_id self := e']> (scheduleCache s)) s)
              | PropertyInherited v =>
                  (* the scan finds no element [v[j]]; no window is chosen
                     and [v.length] decides between [v[0]] and [null] *)
                  let sched :=
                    match v with
                    | InheritedFunction (S _) => ScheduleUndefined
                    | InheritedFunction O | InheritedObject => ScheduleNull
                    end in
                  (Ok (Some (obj sched)), s)
              | PropertyUndefined => (Ok (Some (obj (ScheduleWindow allDay))), s)
              end
          | None => (Ok (Some (obj (ScheduleWindow allDay))), s)
          end
      end
  else ret None.

(** The loop over [data.entries]; reading [ride.id] of a [null] element
    throws. *)
Fixpoint assembleRides (self : Park) (timeNow dateToday : Z)
    (es : list (option LiveEntry)) (rides : list Ride) : M (list Ride) :=
  match es with
  | [] => ret rides
  | None :: _ => fun s => (Throw "TypeError: Cannot read property 'id' of null", s)
  | Some ride :: rest =>
      r <- assembleRide self timeNow dateToday ride ;;
      assembleRides self timeNow dateToday rest
        (match r with Some obj => rides ++ [obj] | None => rides end)
  end.

Definition ContructWaitTimesURL (self : Park) : string :=
  (APIBase self ++ "theme-parks/" ++ default "undefined" (park_id self)
     ++ ";destination=" ++ resort_id self ++ "/wait-times")%string.

Definition GetWaitTimes (net : Transport) (self : Park) : M (list Ride) :=
  if negb (truthyString (park_id self)) then Error "Park not configured correctly"
  else if negb (truthyString (park_region self)) then Error "Park not configured correctly"
  else
    _ <- CacheScheduleData net self onError "Error getting schedule data cache" ;;
    d <- FetchURL net self (ContructWaitTimesURL self)
           (withData (RegionData (park_region self)))
           onError "Error fetching wait times" ;;
    match d with
    | JsonNull => Error "No data returned for wait times"
    | JsonObj o =>
        match entries o with
        | None => Error "Invalid data returned from API (no entries)"
        | Some es =>
            fun s =>
              let timeNow := clock s in
              let dateToday := moment.formatDate (park_timezone self) (clock s) in
              assembleRides self timeNow dateToday es [] s
        end
    end.

(** ** GetOpeningTimes *)

(** An element of the array [GetOpeningTimes] returns: a cached window
    (the cached array is returned as it is), or an object
    [{date: d, type: "Closed"}] of the forever-closed schedule. *)
Inductive ScheduleDay :=
| CachedDay (w : DayWindow)
| ClosedDay (date : Z).

Definition GetOpeningTimes (net : Transport) (self : Park) : M (list ScheduleDay) :=
  _ <- CacheScheduleData net self onError "Error caching schedule data" ;;
  fun s =>
    let cached :=
      match scheduleCache s !! resort_id self with
      | Some e =>
          if clock s <=? expires e then
            match data e !! parkKey self with
            | Some (w :: ws) => Some (w :: ws)
            | _ => None
            end
          else None
      | None => None
      end in
    match cached with
    | Some ws => (Ok (map CachedDay ws), s)
    | None =>
        let startDate := moment.startOfDay (park_timezone self) (clock s) in
        let endDate :=
          moment.endOfDay (park_timezone self)
            (moment.addDays (scheduleMaxDates self) (clock s)) in
        (Ok (map (fun day => ClosedDay (moment.formatDate (park_timezone self) day))
               (dayLoop startDate endDate)), s)
    end.

(** ** Specification-side definitions *)

(** The index of the last element of [ws] satisfying [p], counted from [j];
    [acc] when there is none.  Each of the two variables of the scan in
    [GetWaitTimes] is such a search. *)
Fixpoint lastMatch (p : DayWindow -> bool) (ws : list DayWindow) (j : nat)
    (acc : option nat) : option nat :=
  match ws with
  | [] => acc
  | w :: rest => lastMatch p rest (S j) (if p w then Some j else acc)
  end.

(** [now] lies strictly inside the window. *)
Definition activeAt (now : Z) (w : DayWindow) : Prop :=
  openingTime w < now < closingTime w.

(** [now] lies in the half-open interval [[openingTime, closingTime)]. *)
Definition containsHalfOpen (now : Z) (w : DayWindow) : Prop :=
  openingTime w <= now < closingTime w.

(** The calendar dates [today .. today + n]. *)
Definition dateRange (today n : Z) : list Z :=
  map (fun k => today + Z.of_nat k) (seq 0 (Z.to_nat (n + 1))).

Definition inRange (today n d : Z) : bool :=
  (today <=? d) && (d <=? today + n).

(** The dates of the standard entries of a payload that fall in
    [today .. today + n], in payload order. *)
Definition standardDates (today n : Z) (entries : list RawEntry) : list Z :=
  map e_date
    (List.filter (fun e => isOpeningType (e_type e) && inRange today n (e_date e))
       entries).

(** Keys in order of first insertion. *)
Definition addKey (ks : list Z) (k : Z) : list Z :=
  if decide (k ∈ ks) then ks else ks ++ [k].
Definition insertionOrder (ks : list Z) : list Z := fold_left addKey ks [].

(** Every stored window carries the date it is stored under. *)
Definition dated (o : DateObject) : Prop :=
  Forall (fun kv => date (snd kv) = Some (fst kv)) o.

(** The window the back-fill loop creates for a date, as the code computes
    it: both printed times are the local midnight that starts the day. *)
Definition synthesized (zone d : Z) : DayWindow :=
  {| date := Some d;
     openingTime := moment.tzDate zone d;
     closingTime := moment.tzDate zone d;
     type := "Closed";
     special := None |}.

(** The cached entry of the resort is missing or has expired:
    [CacheScheduleData] will not answer from the cache. *)
Definition stale (self : Park) (s : State) : Prop :=
  match scheduleCache s !! resort_id self with
  | Some e => expires e < clock s
  | None => True
  end.

(** No valid token is cached: [GetAccessToken] will fetch one. *)
Definition tokenExpired (s : State) : Prop :=
  match _accessToken s with
  | Some t => tok_expires t <= clock s
  | None => True
  end.

(** The instants a [Date] can hold (100,000,000 days either side of the
    epoch), and the bound on [expires_in] under which the expiry computed
    by [FetchAccessToken] involves integers below 2^53 only. *)
Definition validDate (t : Z) : Prop :=
  -8640000000000000 <= t <= 8640000000000000.
Definition maxExpiresIn : Z := 100000000000.

(** The full-day window for an attraction without cached schedule. *)
Definition allDay (zone now : Z) (active : bool) : DayWindow :=
  {| date := None;
     openingTime := moment.format (moment.startOfDay zone now);
     closingTime := moment.format (moment.endOfDay zone now);
     type := if active then "Operating" else "Closed";
     special := None |}.

(** Time passing between two calls. *)
Definition set_clock (t : Z) (s : State) : State :=
  {| scheduleCache := scheduleCache s; _accessToken := _accessToken s;
     clock := t; requests := requests s |}.

(** [s'] is [s] after some requests: the schedule cache is the same and
    the log has grown by [l]. *)
Definition after (l : list Request) (s s' : State) : Prop :=
  scheduleCache s' = scheduleCache s
  /\ requests s' = requests s ++ l
  /\ clock s <= clock s'.

(** The dates of the windows are all present and in ascending order. *)
Definition ascendingDates (ws : list DayWindow) : Prop :=
  exists ds, map date ws = map Some ds /\ StronglySorted Z.le ds.

(** The test a live entry must pass to be assembled:
    [ride.id && ride.name && ride.type && ride.type == "Attraction"]. *)
Definition isAttraction (ride : LiveEntry) : bool :=
  truthyString (l_id ride) && truthyString (l_name ride)
  && truthyString (l_type ride) && optStringEq (l_type ride) "Attraction".

(** A standard, respectively special, entry of the range
    [today .. today + n]. *)
Definition isStandardIn (today n : Z) (e : RawEntry) : bool :=
  isOpeningType (e_type e) && inRange today n (e_date e).
Definition isSpecialIn (today n : Z) (e : RawEntry) : bool :=
  negb (isOpeningType (e_type e)) && inRange today n (e_date e).

(** The window the first loop builds from a standard entry, and the
    object the second loop builds from a special entry. *)
Definition standardWindow (self : Park) (e : RawEntry) : DayWindow :=
  {| date := Some (e_date e);
     openingTime := t_openingTime (ParseScheduleEntry self e);
     closingTime := t_closingTime (ParseScheduleEntry self e);
     type := if String.eqb (e_type e) "Operating" then "Operating" else "Closed";
     special := Some [] |}.

Definition specialWindow (self : Park) (e : RawEntry) : SpecialWindow :=
  {| sp_type := e_type e;
     sp_openingTime := t_openingTime (ParseScheduleEntry self e);
     sp_closingTime := t_closingTime (ParseScheduleEntry self e) |}.

(** The last standard entry of the range with date [d], and the special
    entries of the range with date [d] in payload order. *)
Fixpoint lastStandard (today n d : Z) (entries : list RawEntry) : option RawEntry :=
  match entries with
  | [] => None
  | e :: rest =>
      match lastStandard today n d rest with
      | Some x => Some x
      | None => if isStandardIn today n e && (e_date e =? d) then Some e else None
      end
  end.

Definition specialsOn (today n d : Z) (entries : list RawEntry) : list RawEntry :=
  List.filter (fun e => isSpecialIn today n e && (e_date e =? d)) entries.

(** The window stored for the date [d]. *)
Definition windowFor (self : Park) (today n : Z) (entries : list RawEntry) (d : Z)
    : DayWindow :=
  match lastStandard today n d entries with
  | Some e =>
      {| date := Some d;
         openingTime := openingTime (standardWindow self e);
         closingTime := closingTime (standardWindow self e);
         type := type (standardWindow self e);
         special := Some (map (specialWindow self) (specialsOn today n d entries)) |}
  | None => synthesized (park_timezone self) d
  end.

(** The entries of the last activity that carries a schedule and whose
    cleaned id is [id]. *)
Fixpoint lastActivity (id : string) (acts : list Activity) : option (list RawEntry) :=
  match acts with
  | [] => None
  | a :: rest =>
      match lastActivity id rest with
      | Some es => Some es
      | None =>
          match a_schedule a with
          | Some {| schedules := Some es |} =>
              if String.eqb (CleanRideID (a_id a)) id then Some es else None
          | _ => None
          end
      end
  end.

(** A window is as it was, or has lost its [date]. *)
Definition dateDeleted (w w' : DayWindow) : Prop :=
  w' = w \/ w' = set_date None w.

(** The cached schedule of the resort in [s'] is that of [s] up to deleted
    dates: same expiry, same attraction ids, same windows otherwise. *)
Definition onlyDatesDeleted (self : Park) (s s' : State) : Prop :=
  option_Forall2
    (fun e e' =>
       expires e' = expires e
       /\ forall id, option_Forall2 (Forall2 dateDeleted) (data e !! id) (data e' !! id))
    (scheduleCache s !! resort_id self) (scheduleCache s' !! resort_id self).

(** The cached entries of the other resorts are the same in [s] and [s']. *)
Definition otherResortsKept (self : Park) (s s' : State) : Prop :=
  forall r, r <> resort_id self -> scheduleCache s' !! r = scheduleCache s !! r.

(** The headers of an API request sent at the instant [now] with the
    token [tok], when none is overridden. *)
Definition standardHeaders (self : Park) (tok : string) (now : Z)
    : gmap string HeaderValue :=
  list_to_map
    [("Authorization", HeaderString ("BEARER " ++ tok)%string);
     ("Accept", HeaderString "application/json;apiversion=1");
     ("X-Conversation-Id", HeaderString "WDPRO-MOBILE.MDX.CLIENT-PROD");
     ("X-App-Id", HeaderString (_appID self));
     ("X-Correlation-ID", HeaderNumber now)].

(** The request [FetchURL] sends to [u] at the instant [now], with the
    token [tok], when its options are [{data: d}]. *)
Definition apiRequest (self : Park) (u : string) (d : RequestData) (tok : string)
    (now : Z) : Request :=
  {| url := u; method := "GET";
     headers := standardHeaders self tok now;
     req_qs := Some d; req_data := None; req_body := None |}.

(** The [x-correlation-id] header of a reply, when it has a response. *)
Definition replyResponse (reply : Reply) : option Response :=
  match reply with
  | NetError _ r => r
  | NetOk r _ => Some r
  end.

(** ** Concrete inputs *)

(** A park in a zone five hours behind UTC. *)
Definition demoPark : Park :=
  {| park_id := Some "80007944";
     park_region := Some "us";
     resort_id := "80007798";
     park_timezone := -300;
     scheduleMaxDates := 2;
     APIBase := "https://api.wdpro.disney.go.com/facility-service/";
     _accessTokenURL := "https://authorization.go.com/token";
     _appID := "WDW-MDX-ANDROID-3.4.1" |}.

(** The calendar day 2018-01-01 and an instant of that local day. *)
Definition day0 : Z := 17532.
Definition at_ (d : Z) (h m : Z) : Z :=
  tzDateTime (park_timezone demoPark) d {| hour := h; minute := m |}.

(** The entry [{date: D, startTime: "22:00", endTime: "02:00"}]. *)
Definition overnightEntry : RawEntry :=
  {| e_date := day0;
     e_startTime := {| hour := 22; minute := 0 |};
     e_endTime := {| hour := 2; minute := 0 |};
     e_type := "Operating" |}.

(** Yesterday 20:00 to today 02:00, and today 09:00 to 18:00. *)
Definition spillYesterday : DayWindow :=
  {| date := Some (day0 - 1);
     openingTime := at_ (day0 - 1) 20 0; closingTime := at_ day0 2 0;
     type := "Operating"; special := Some [] |}.
Definition spillToday : DayWindow :=
  {| date := Some day0;
     openingTime := at_ day0 9 0; closingTime := at_ day0 18 0;
     type := "Operating"; special := Some [] |}.

(** Today 00:30 to 03:00, a second window open at 01:00. *)
Definition nightToday : DayWindow :=
  {| date := Some day0;
     openingTime := at_ day0 0 30; closingTime := at_ day0 3 0;
     type := "Operating"; special := Some [] |}.

(** Yesterday 09:00 to 18:00, followed by today 09:00 to 18:00 whose [date]
    an earlier query has deleted. *)
Definition plainYesterday : DayWindow :=
  {| date := Some (day0 - 1);
     openingTime := at_ (day0 - 1) 9 0; closingTime := at_ (day0 - 1) 18 0;
     type := "Operating"; special := Some [] |}.
Definition strippedToday : DayWindow := set_date None spillToday.

(** A standard entry, 09:00 to 18:00, and the window parsed from it. *)
Definition demoEntry (d : Z) : RawEntry :=
  {| e_date := d;
     e_startTime := {| hour := 9; minute := 0 |};
     e_endTime := {| hour := 18; minute := 0 |};
     e_type := "Operating" |}.

Definition demoWindow (d : Z) : DayWindow :=
  {| date := Some d;
     openingTime := at_ d 9 0; closingTime := at_ d 18 0;
     type := "Operating"; special := Some [] |}.

Definition emptyObject : JsonObject :=
  {| access_token := None; expires_in := None; activities := None; entries := None |}.

Definition tokenReply (expires : Z) : Json :=
  JsonObj {| access_token := Some "t0k3n"; expires_in := Some expires;
             activities := None; entries := None |}.

(** A schedule payload with one attraction and the given entries. *)
Definition scheduleReply (es : list RawEntry) : Json :=
  JsonObj {| access_token := None; expires_in := None;
             activities :=
               Some [ {| a_id := "80010190;entityType=Attraction";
                         a_schedule := Some {| schedules := Some es |} |} ];
             entries := None |}.

Definition liveReply (es : list LiveEntry) : Json :=
  JsonObj {| access_token := None; expires_in := None;
             activities := None; entries := Some (map Some es) |}.

(** A live payload whose only entry is [null]. *)
Definition nullEntryReply : Json :=
  JsonObj {| access_token := None; expires_in := None;
             activities := None; entries := Some [None] |}.

(** Options that ask for a POST and name two headers. *)
Definition postHeaders : list (string * string) :=
  [("Authorization", "Basic dXNlcg=="); ("X-Requested-With", "wdw")].
Definition postOptions : Options :=
  {| o_headers := Some postHeaders;
     o_method := Some "POST";
     o_data := Some (RegionData (Some "us")) |}.

(** A live entry of the attraction, closed, as before opening. *)
Definition closedRide (id : string) : LiveEntry :=
  {| l_id := Some id;
     l_name := Some "Space Mountain";
     l_type := Some "Attraction";
     l_waitTime :=
       Some {| postedWaitMinutes := None;
               w_status := Some "Closed";
               w_fastPass := Some {| available := Some false |} |} |}.

(** A live entry without its live-status object. *)
Definition bareRide : LiveEntry :=
  {| l_id := Some "80010190;entityType=Attraction";
     l_name := Some "Space Mountain";
     l_type := Some "Attraction";
     l_waitTime := None |}.

Definition ok200 : Response := {| statusCode := 200; correlationHeader := None |}.

(** An upstream that answers every request at once: the token request
    with [tok], the schedule request with [sched], the wait-times request
    with [live]. *)
Definition demoNet (tok sched live : Json) : Transport :=
  fun req _ =>
    match req_body req, req_qs req with
    | Some _, _ => (NetOk ok200 (Some tok), 0%N)
    | None, Some (ScheduleQuery _ _ _ _) => (NetOk ok200 (Some sched), 0%N)
    | None, Some (RegionData _) => (NetOk ok200 (Some live), 0%N)
    | None, None => (NetError "no such endpoint" None, 0%N)
    end.

(** A process that has just started, at the given instant. *)
Definition startedAt (t : Z) : State :=
  {| scheduleCache := ∅; _accessToken := None; clock := t; requests := [] |}.

(** The record assembled for the closed attraction. *)
Definition closedRecord (id : string) (sched : option DayWindow) : Ride :=
  {| r_id := id; r_name := "Space Mountain"; r_waitTime := 0;
     r_active := false; r_status := "Closed"; r_fastPass := Some false;
     r_schedule := scheduleOf sched |}.

(** An upstream whose API fails behind a load balancer: the token request
    is answered, every other request gets a transport error whose response
    carries a correlation id. *)
Definition badGateway : Response :=
  {| statusCode := 502; correlationHeader := Some "lb-17" |}.

Definition failingNet : Transport :=
  fun req _ =>
    match req_body req with
    | Some _ => (NetOk ok200 (Some (tokenReply 3600)), 0%N)
    | None => (NetError "ECONNRESET" (Some badGateway), 0%N)
    end.

(** The token cached after the demo token request at 20:00 of day 0. *)
Definition demoToken : AccessToken :=
  {| token := "t0k3n"; tok_expires := at_ day0 20 0 + 3570 * 1000;
     correlation := None |}.

(** A process whose cached token has expired an hour ago. *)
Definition expiredTokenState : State :=
  {| scheduleCache := ∅;
     _accessToken :=
       Some {| token := "0ld"; tok_expires := at_ day0 19 0; correlation := None |};
     clock := at_ day0 20 0;
     requests := [] |}.

(** A state with a fresh schedule for one attraction of the demo resort
    and one for another resort, in the morning of day 1. *)
Definition morningState : State :=
  {| scheduleCache :=
       {[ "80007798" :=
            {| expires := at_ (day0 + 1) 8 0;
               data := {[ "80010190" := [demoWindow day0; demoWindow (day0 + 1)] ]} |};
          "dlp" :=
            {| expires := at_ day0 8 0;
               data := {[ "P1AA01" := [demoWindow day0] ]} |} ]};
     _accessToken := None;
     clock := at_ (day0 + 1) 7 0;
     requests := [] |}.

(** The demo resort in the evening of day 0, with a schedule cached the
    day before that has expired at 08:00. *)
Definition eveningState : State :=
  {| scheduleCache :=
       {[ "80007798" :=
            {| expires := at_ day0 8 0;
               data := {[ "80010190" := [demoWindow (day0 - 1); demoWindow day0] ]} |} ]};
     _accessToken := None;
     clock := at_ day0 20 0;
     requests := [] |}.

(** A live entry of the attraction, running. *)
Definition runningRide (id : string) : LiveEntry :=
  {| l_id := Some id;
     l_name := Some "Space Mountain";
     l_type := Some "Attraction";
     l_waitTime :=
       Some {| postedWaitMinutes := Some 25;
               w_status := Some "Weather Delay";
               w_fastPass := None |} |}.

(** A live entry that is not an attraction. *)
Definition restaurant : LiveEntry :=
  {| l_id := Some "90001;entityType=restaurant";
     l_name := Some "Cosmic Ray's";
     l_type := Some "restaurant";
     l_waitTime := None |}.

(** A special entry (extra hours), 18:00 to 20:00. *)
Definition extraHours (d : Z) : RawEntry :=
  {| e_date := d;
     e_startTime := {| hour := 18; minute := 0 |};
     e_endTime := {| hour := 20; minute := 0 |};
     e_type := "Extra Magic Hours" |}.

(** * Properties *)

(** ** moment arithmetic *)

Lemma format_minutes (k : Z) : moment.format (k * moment.MINUTE) = k * moment.MINUTE.
Proof.
  unfold moment.format, moment.MINUTE.
  replace (k * 60000) with (k * 60 * 1000) by lia.
  rewrite Z.div_mul by lia. lia.
Qed.

Lemma tzDateTime_minutes (zone d : Z) (t : HHmm) :
  tzDateTime zone d t = (d * 1440 - zone + hour t * 60 + minute t) * moment.MINUTE.
Proof. unfold tzDateTime, moment.tzDate, msOfDay, moment.DAY, moment.HOUR, moment.MINUTE. lia. Qed.

Lemma format_tzDateTime (zone d : Z) (t : HHmm) :
  moment.format (tzDateTime zone d t) = tzDateTime zone d t.
Proof. rewrite tzDateTime_minutes. apply format_minutes. Qed.

Lemma formatDate_tzDate (zone d : Z) :
  moment.formatDate zone (moment.tzDate zone d) = d.
Proof.
  unfold moment.formatDate, moment.tzDate.
  replace (d * moment.DAY - zone * moment.MINUTE + zone * moment.MINUTE)
    with (d * moment.DAY) by lia.
  apply Z.div_mul. unfold moment.DAY. lia.
Qed.

Lemma formatDate_tzDateTime (zone d : Z) (t : HHmm) :
  validHHmm t -> moment.formatDate zone (tzDateTime zone d t) = d.
Proof.
  intros [Hh Hm].
  unfold moment.formatDate, tzDateTime, moment.tzDate, msOfDay,
    moment.DAY, moment.HOUR, moment.MINUTE.
  symmetry. apply (Z.div_unique _ _ d (hour t * 3600000 + minute t * 60000)); lia.
Qed.

Lemma addDays_tzDateTime (zone d n : Z) (t : HHmm) :
  moment.addDays n (tzDateTime zone d t) = tzDateTime zone (d + n) t.
Proof. unfold moment.addDays, tzDateTime, moment.tzDate. lia. Qed.

(** ** ParseScheduleEntry *)

(** C6.  A raw entry whose end time, read on the entry's own date, is an
    instant before its start time gets its closing instant advanced by
    exactly one day: the closing time is the end time read on the next
    date, it falls on date D+1, and it is after the opening time. *)
Theorem C6_overnight_normalization (self : Park) (entry : RawEntry) :
  validHHmm (e_startTime entry) ->
  validHHmm (e_endTime entry) ->
  tzDateTime (park_timezone self) (e_date entry) (e_endTime entry)
    < tzDateTime (park_timezone self) (e_date entry) (e_startTime entry) ->
  let t := ParseScheduleEntry self entry in
  t_openingTime t = tzDateTime (park_timezone self) (e_date entry) (e_startTime entry)
  /\ t_closingTime t
     = tzDateTime (park_timezone self) (e_date entry) (e_endTime entry) + moment.DAY
  /\ moment.formatDate (park_timezone self) (t_closingTime t) = e_date entry + 1
  /\ t_openingTime t < t_closingTime t.
Proof.
  intros Hs He Hlt. unfold ParseScheduleEntry. cbn zeta.
  unfold moment.isBefore.
  destruct (Z.ltb_spec
              (tzDateTime (park_timezone self) (e_date entry) (e_endTime entry))
              (tzDateTime (park_timezone self) (e_date entry) (e_startTime entry)))
    as [_ | Hge]; [| lia].
  cbn [t_openingTime t_closingTime].
  rewrite addDays_tzDateTime, !format_tzDateTime.
  split; [reflexivity |].
  split; [unfold tzDateTime, moment.tzDate; lia |].
  split; [apply formatDate_tzDateTime; assumption |].
  destruct Hs as [Hsh Hsm], He as [Heh Hem].
  unfold tzDateTime, moment.tzDate, msOfDay, moment.DAY, moment.HOUR, moment.MINUTE in *.
  lia.
Qed.

(** ** Window selection *)

Lemma isBetween_activeAt (now : Z) (w : DayWindow) :
  moment.isBetween now (openingTime w) (closingTime w) = true <-> activeAt now w.
Proof.
  unfold moment.isBetween, moment.isAfter, moment.isBefore, activeAt.
  rewrite andb_true_iff, !Z.ltb_lt. tauto.
Qed.

Lemma dateEq_true (d : option Z) (today : Z) :
  dateEq d today = true <-> d = Some today.
Proof.
  destruct d as [x |]; cbn; [| split; discriminate].
  rewrite Z.eqb_eq. split; congruence.
Qed.

Lemma scanSchedule_lastMatch (now today : Z) (ws : list DayWindow) :
  forall j t a,
    scanSchedule now today ws j t a
    = (lastMatch (fun w => dateEq (date w) today) ws j t,
       lastMatch (fun w => moment.isBetween now (openingTime w) (closingTime w)) ws j a).
Proof.
  induction ws as [| w ws IH]; intros j t a; cbn; [reflexivity | apply IH].
Qed.

Lemma lastMatch_none (p : DayWindow -> bool) (ws : list DayWindow) :
  forall j acc,
    (forall w, w ∈ ws -> p w = false) -> lastMatch p ws j acc = acc.
Proof.
  induction ws as [| w ws IH]; intros j acc H; cbn; [reflexivity |].
  rewrite (H w) by apply list_elem_of_here.
  apply IH. intros w' Hw'. apply H. by apply list_elem_of_further.
Qed.

(** When some element satisfies [p], the search returns the position of
    the last one. *)
Lemma lastMatch_some (p : DayWindow -> bool) (ws : list DayWindow) :
  forall j acc,
    (exists w, w ∈ ws /\ p w = true) ->
    exists i w, ws !! i = Some w /\ p w = true
                /\ (forall k w', ws !! k = Some w' -> p w' = true -> (k <= i)%nat)
                /\ lastMatch p ws j acc = Some (j + i)%nat.
Proof.
  induction ws as [| w ws IH]; intros j acc [w0 [Hin Hp]].
  - by apply elem_of_nil in Hin.
  - cbn [lastMatch].
    destruct (existsb p ws) eqn:Hex.
    + apply existsb_exists in Hex. destruct Hex as [w1 [Hin1 Hp1]].
      destruct (IH (S j) (if p w then Some j else acc)) as [i [w2 [Hl [Hp2 [Hlast Hr]]]]].
      { exists w1. split; [by apply list_elem_of_In | done]. }
      exists (S i), w2. split; [done |]. split; [done |]. split.
      * intros [| k] w' Hk Hp'; [lia |]. cbn in Hk.
        specialize (Hlast k w' Hk Hp'). lia.
      * rewrite Hr. f_equal. lia.
    + assert (Hall : forall w', w' ∈ ws -> p w' = false).
      { intros w' Hw'. destruct (p w') eqn:E; [| done].
        assert (existsb p ws = true) as Habs; [| congruence].
        apply existsb_exists. exists w'. split; [by apply list_elem_of_In | done]. }
      rewrite lastMatch_none by done.
      apply elem_of_cons in Hin. destruct Hin as [-> | Hin].
      * exists 0%nat, w. rewrite Hp. split; [done |]. split; [done |]. split.
        -- intros [| k] w' Hk Hp'; [lia |]. cbn in Hk.
           apply list_elem_of_lookup_2 in Hk. rewrite (Hall w' Hk) in Hp'. discriminate.
        -- f_equal. lia.
      * rewrite (Hall w0 Hin) in Hp. discriminate.
Qed.

Lemma selectSchedule_active (now today : Z) (ws : list DayWindow) :
  (exists w, w ∈ ws /\ activeAt now w) ->
  exists i w, ws !! i = Some w /\ activeAt now w
              /\ (forall k w', ws !! k = Some w' -> activeAt now w' -> (k <= i)%nat)
              /\ selectSchedule now today ws = Some i.
Proof.
  intros [w [Hin Hact]]. unfold selectSchedule.
  rewrite scanSchedule_lastMatch.
  destruct (lastMatch_some
              (fun w => moment.isBetween now (openingTime w) (closingTime w))
              ws 0%nat None) as [i [w' [Hl [Hp [Hlast Hr]]]]].
  { exists w. split; [done |]. by apply isBetween_activeAt. }
  rewrite Hr. exists i, w'. split; [done |].
  split; [by apply isBetween_activeAt |]. split; [| reflexivity].
  intros k w'' Hk Ha. apply (Hlast k w'' Hk). by apply isBetween_activeAt.
Qed.

Lemma selectSchedule_today (now today : Z) (ws : list DayWindow) :
  (forall w, w ∈ ws -> ~ activeAt now w) ->
  (exists w, w ∈ ws /\ date w = Some today) ->
  exists i w, ws !! i = Some w /\ date w = Some today
              /\ (forall k w', ws !! k = Some w' -> date w' = Some today -> (k <= i)%nat)
              /\ selectSchedule now today ws = Some i.
Proof.
  intros Hno [w [Hin Hd]]. unfold selectSchedule.
  rewrite scanSchedule_lastMatch.
  rewrite (lastMatch_none
             (fun w => moment.isBetween now (openingTime w) (closingTime w))).
  2:{ intros w' Hw'. specialize (Hno w' Hw').
      rewrite <- isBetween_activeAt in Hno. by destruct (moment.isBetween _ _ _). }
  destruct (lastMatch_some (fun w => dateEq (date w) today) ws 0%nat None)
    as [i [w' [Hl [Hp [Hlast Hr]]]]].
  { exists w. split; [done |]. by apply dateEq_true. }
  rewrite Hr. exists i, w'. split; [done |].
  split; [by apply dateEq_true |]. split; [| reflexivity].
  intros k w'' Hk Ha. apply (Hlast k w'' Hk). by apply dateEq_true.
Qed.

Lemma selectSchedule_first (now today : Z) (ws : list DayWindow) :
  (forall w, w ∈ ws -> ~ activeAt now w) ->
  (forall w, w ∈ ws -> date w <> Some today) ->
  selectSchedule now today ws = match ws with [] => None | _ :: _ => Some 0%nat end.
Proof.
  intros Hno Hnd. unfold selectSchedule.
  rewrite scanSchedule_lastMatch.
  rewrite (lastMatch_none
             (fun w => moment.isBetween now (openingTime w) (closingTime w))).
  2:{ intros w' Hw'. specialize (Hno w' Hw').
      rewrite <- isBetween_activeAt in Hno. by destruct (moment.isBetween _ _ _). }
  rewrite (lastMatch_none (fun w => dateEq (date w) today)); [done |].
  intros w' Hw'. specialize (Hnd w' Hw').
  rewrite <- dateEq_true in Hnd. by destruct (dateEq _ _).
Qed.

(** Both searches are decidable. *)
Lemma classic_active (now : Z) (ws : list DayWindow) :
  (exists w, w ∈ ws /\ activeAt now w) \/ (forall w, w ∈ ws -> ~ activeAt now w).
Proof.
  induction ws as [| w ws [IH | IH]].
  - right. intros w H. by apply elem_of_nil in H.
  - left. destruct IH as [w' [Hin Ha]]. exists w'. split; [by right | done].
  - destruct (decide (openingTime w < now)) as [Ho |];
      [destruct (decide (now < closingTime w)) as [Hc |] |].
    + left. exists w. split; [by left | done].
    + right. intros w' [-> | Hin]%elem_of_cons; [unfold activeAt; lia | by apply IH].
    + right. intros w' [-> | Hin]%elem_of_cons; [unfold activeAt; lia | by apply IH].
Qed.

Lemma classic_today (today : Z) (ws : list DayWindow) :
  (exists w, w ∈ ws /\ date w = Some today) \/ (forall w, w ∈ ws -> date w <> Some today).
Proof.
  induction ws as [| w ws [IH | IH]].
  - right. intros w H. by apply elem_of_nil in H.
  - left. destruct IH as [w' [Hin Ha]]. exists w'. split; [by right | done].
  - destruct (decide (date w = Some today)) as [Hd | Hd].
    + left. exists w. split; [by left | done].
    + right. intros w' [-> | Hin]%elem_of_cons; [done | by apply IH].
Qed.

(** The selected index always refers to an element of the array. *)
Lemma selectSchedule_lookup (now today : Z) (ws : list DayWindow) (j : nat) :
  selectSchedule now today ws = Some j -> exists w, ws !! j = Some w.
Proof.
  intros Hsel.
  destruct (classic_active now ws) as [Hact | Hno].
  - destruct (selectSchedule_active now today ws Hact) as [i [w [Hl [_ [_ Hr]]]]].
    exists w. congruence.
  - destruct (classic_today today ws) as [Htd | Hnd].
    + destruct (selectSchedule_today now today ws Hno Htd) as [i [w [Hl [_ [_ Hr]]]]].
      exists w. congruence.
    + rewrite (selectSchedule_first now today ws Hno Hnd) in Hsel.
      destruct ws as [| w0 ws]; [discriminate |]. exists w0.
      injection Hsel as <-. reflexivity.
Qed.

(** C2 (amended).  For a live attraction entry whose cleaned id has a
    cached array of windows, [GetWaitTimes] attaches, with its [date]
    deleted: the last window of the array with
    [openingTime < now < closingTime] (both ends exclusive), if there is
    one; otherwise the last window whose date is today's, if there is one;
    otherwise the first window of a non-empty array; and [null] exactly
    when the array is empty.  With yesterday's window running until 02:00
    and now = today 01:00, yesterday's window is selected. *)
Theorem C2_window_selection (now today : Z) (ws : list DayWindow) :
  let r := selectedWindow now today ws in
  ((exists w, w ∈ ws /\ activeAt now w) ->
   exists i w, ws !! i = Some w /\ activeAt now w
     /\ (forall k w', ws !! k = Some w' -> activeAt now w' -> (k <= i)%nat)
     /\ r = Some (set_date None w))
  /\ ((forall w, w ∈ ws -> ~ activeAt now w) ->
      (exists w, w ∈ ws /\ date w = Some today) ->
      exists i w, ws !! i = Some w /\ date w = Some today
        /\ (forall k w', ws !! k = Some w' -> date w' = Some today -> (k <= i)%nat)
        /\ r = Some (set_date None w))
  /\ ((forall w, w ∈ ws -> ~ activeAt now w) ->
      (forall w, w ∈ ws -> date w <> Some today) ->
      r = set_date None <$> head ws)
  /\ (r = None <-> ws = [])
  /\ selectedWindow (at_ day0 1 0) day0 [spillYesterday; spillToday]
     = Some (set_date None spillYesterday)
  /\ (forall (self : Park) (ride : LiveEntry) (wt : WaitTime) (s : State)
             (e : CacheEntry),
        isAttraction ride = true ->
        l_waitTime ride = Some wt ->
        scheduleCache s !! resort_id self = Some e ->
        data e !! CleanRideID (default "" (l_id ride)) = Some ws ->
        exists obj s',
          assembleRide self now today ride s = (Ok (Some obj), s')
          /\ r_id obj = CleanRideID (default "" (l_id ride))
          /\ r_schedule obj = scheduleOf r).
Proof.
  cbn zeta. unfold selectedWindow.
  split; [| split; [| split; [| split; [| split]]]].
  - intros Hact.
    destruct (selectSchedule_active now today ws Hact) as [i [w [Hl [Ha [Hlast Hr]]]]].
    exists i, w. rewrite Hr, Hl.
    split; [done |]. split; [done |]. split; [done | reflexivity].
  - intros Hno Htd.
    destruct (selectSchedule_today now today ws Hno Htd) as [i [w [Hl [Hd [Hlast Hr]]]]].
    exists i, w. rewrite Hr, Hl.
    split; [done |]. split; [done |]. split; [done | reflexivity].
  - intros Hno Hnd. rewrite (selectSchedule_first now today ws Hno Hnd).
    by destruct ws.
  - split.
    + destruct (selectSchedule now today ws) as [j |] eqn:Hsel.
      * destruct (selectSchedule_lookup now today ws j Hsel) as [w Hl].
        rewrite Hl. discriminate.
      * intros _. destruct ws as [| w0 ws]; [done |].
        unfold selectSchedule in Hsel.
        destruct (scanSchedule now today (w0 :: ws) 0 None None) as [[t |] [a |]];
          discriminate.
    + intros ->. reflexivity.
  - vm_compute. reflexivity.
  - intros self ride wt s e Hatt Hwt He Hd.
    unfold assembleRide. unfold isAttraction in Hatt. rewrite Hatt, Hwt, He.
    unfold getProperty. rewrite Hd.
    eexists _, _. split; [reflexivity |]. split; reflexivity.
Qed.

(** ** The date-keyed object *)

Lemma obj_get_None (k : Z) (o : DateObject) :
  obj_get k o = None <-> k ∉ obj_keys o.
Proof.
  induction o as [| [k' v] o IH]; cbn.
  - split; [intros _; apply not_elem_of_nil | done].
  - rewrite not_elem_of_cons. destruct (Z.eqb_spec k k') as [-> | Hne].
    + split; [discriminate | intros [? _]; done].
    + rewrite IH. tauto.
Qed.

Lemma obj_get_Some_keys (k : Z) (w : DayWindow) (o : DateObject) :
  obj_get k o = Some w -> k ∈ obj_keys o.
Proof.
  intros H. destruct (decide (k ∈ obj_keys o)) as [| Hn]; [done |].
  apply obj_get_None in Hn. congruence.
Qed.

Lemma obj_keys_set (k : Z) (v : DayWindow) (o : DateObject) :
  obj_keys (obj_set k v o) = addKey (obj_keys o) k.
Proof.
  unfold addKey, obj_keys. induction o as [| [k' v'] o IH]; cbn.
  - rewrite decide_False by apply not_elem_of_nil. reflexivity.
  - destruct (Z.eqb_spec k k') as [-> | Hne]; cbn.
    + rewrite decide_True by apply list_elem_of_here. reflexivity.
    + rewrite IH. destruct (decide (k ∈ map fst o)) as [Hin | Hin].
      * rewrite decide_True by (by apply list_elem_of_further). reflexivity.
      * rewrite decide_False; [reflexivity |].
        rewrite not_elem_of_cons. by split.
Qed.

Lemma obj_get_set (k k' : Z) (v : DayWindow) (o : DateObject) :
  obj_get k' (obj_set k v o) = if Z.eqb k' k then Some v else obj_get k' o.
Proof.
  induction o as [| [k0 v0] o IH]; cbn.
  - reflexivity.
  - destruct (Z.eqb_spec k k0) as [-> | Hne]; cbn.
    + destruct (Z.eqb_spec k' k0); reflexivity.
    + rewrite IH. destruct (Z.eqb_spec k' k0) as [-> | ?]; [| reflexivity].
      destruct (Z.eqb_spec k0 k); [congruence | reflexivity].
Qed.

Lemma dated_set (k : Z) (v : DayWindow) (o : DateObject) :
  date v = Some k -> dated o -> dated (obj_set k v o).
Proof.
  intros Hv. unfold dated. induction o as [| [k' v'] o IH]; cbn; intros Ho.
  - by constructor.
  - inversion Ho as [| ? ? Hkv Ho']; subst.
    destruct (Z.eqb_spec k k'); constructor; auto.
Qed.

Lemma dated_get (k : Z) (w : DayWindow) (o : DateObject) :
  dated o -> obj_get k o = Some w -> date w = Some k.
Proof.
  unfold dated. induction o as [| [k' v'] o IH]; cbn; intros Ho Hg; [discriminate |].
  inversion Ho as [| ? ? Hkv Ho']; subst.
  destruct (Z.eqb_spec k k') as [-> | ?]; [| by apply IH].
  by injection Hg as <-.
Qed.

Lemma dated_values (o : DateObject) :
  dated o -> map date (obj_values o) = map Some (obj_keys o).
Proof.
  unfold dated, obj_values, obj_keys.
  induction 1 as [| [k v] o Hkv _ IH]; cbn in *; [reflexivity |].
  by rewrite Hkv, IH.
Qed.

(** ** Insertion order *)

Lemma elem_of_addKey (ks : list Z) (k x : Z) :
  x ∈ addKey ks k <-> x ∈ ks \/ x = k.
Proof.
  unfold addKey. destruct (decide (k ∈ ks)) as [Hin | Hin].
  - split; [by left | intros [? | ->]; done].
  - rewrite elem_of_app, list_elem_of_singleton. tauto.
Qed.

Lemma NoDup_addKey (ks : list Z) (k : Z) : NoDup ks -> NoDup (addKey ks k).
Proof.
  intros Hnd. unfold addKey. destruct (decide (k ∈ ks)) as [Hin | Hin]; [done |].
  apply NoDup_app. split; [done |]. split; [| apply NoDup_singleton].
  intros x Hx ->%list_elem_of_singleton. done.
Qed.

Lemma elem_of_fold_addKey (l acc : list Z) (x : Z) :
  x ∈ fold_left addKey l acc <-> x ∈ acc \/ x ∈ l.
Proof.
  revert acc. induction l as [| k l IH]; intros acc; cbn.
  - rewrite elem_of_nil. tauto.
  - rewrite IH, elem_of_addKey, elem_of_cons. tauto.
Qed.

Lemma NoDup_fold_addKey (l acc : list Z) :
  NoDup acc -> NoDup (fold_left addKey l acc).
Proof.
  revert acc. induction l as [| k l IH]; intros acc Hnd; cbn; [done |].
  apply IH. by apply NoDup_addKey.
Qed.

(** Adding the keys of a duplicate-free list appends those not yet
    present, in their order. *)
Lemma fold_addKey_NoDup (l acc : list Z) :
  NoDup l ->
  fold_left addKey l acc
  = acc ++ List.filter (fun d => negb (bool_decide (d ∈ acc))) l.
Proof.
  revert acc. induction l as [| k l IH]; intros acc Hnd; cbn.
  - by rewrite app_nil_r.
  - apply NoDup_cons in Hnd as [Hk Hnd]. rewrite IH by done.
    unfold addKey. destruct (decide (k ∈ acc)) as [Hin | Hin].
    + rewrite bool_decide_eq_true_2 by done. reflexivity.
    + rewrite bool_decide_eq_false_2 by done. cbn.
      rewrite <- app_assoc. cbn. do 2 f_equal.
      apply List.filter_ext_in. intros d Hd. f_equal.
      apply bool_decide_ext. rewrite elem_of_app, list_elem_of_singleton.
      split; [intros [? | ->]; [done |] | by left].
      exfalso. apply Hk. by apply list_elem_of_In.
Qed.

(** ** The loops of ParseScheduleData

    Throughout, [startDate] is the local midnight starting [today] and
    [endDate] the last millisecond of [today + n], as [CacheScheduleData]
    passes them. *)

(** [dayLoop] lists exactly the values of the loop variable: the instants
    [startDate + k] days that pass the test [day.isSameOrBefore(endDate)]. *)
Lemma dayLoop_values (startDate endDate t : Z) :
  t ∈ dayLoop startDate endDate
  <-> exists k, 0 <= k /\ t = moment.addDays k startDate
                /\ moment.isSameOrBefore t endDate = true.
Proof.
  unfold dayLoop, moment.isSameOrBefore, moment.addDays, moment.DAY.
  pose proof (Z.div_mod (endDate - startDate) 86400000 ltac:(lia)) as Hdiv.
  pose proof (Z.mod_pos_bound (endDate - startDate) 86400000 ltac:(lia)) as Hmod.
  set (q := (endDate - startDate) / 86400000) in *.
  set (r := (endDate - startDate) mod 86400000) in *.
  rewrite list_elem_of_In, in_map_iff. split.
  - intros [k [<- Hk%in_seq]]. exists (Z.of_nat k).
    split; [lia |]. split; [reflexivity |]. apply Z.leb_le. lia.
  - intros (k & Hk & -> & Hle%Z.leb_le). exists (Z.to_nat k).
    split; [f_equal; lia |]. apply in_seq. lia.
Qed.

Lemma elem_of_dateRange (today n d : Z) :
  d ∈ dateRange today n <-> today <= d <= today + n.
Proof.
  unfold dateRange. rewrite list_elem_of_In, in_map_iff. split.
  - intros [k [<- Hk%in_seq]]. lia.
  - intros Hd. exists (Z.to_nat (d - today)). split; [lia |].
    apply in_seq. lia.
Qed.

Lemma NoDup_dateRange (today n : Z) : NoDup (dateRange today n).
Proof.
  unfold dateRange. apply NoDup_fmap_2; [| apply NoDup_seq].
  intros a b Hab. lia.
Qed.

Section BackFill.

Variable self : Park.
Let zone := park_timezone self.

(** What the back-fill stores for a missing date. *)
Lemma fillMissing_spec (times : DateObject) (d : Z) :
  dated times ->
  fillMissing self times (moment.tzDate zone d)
  = match obj_get d times with
    | Some _ => times
    | None => obj_set d (synthesized zone d) times
    end.
Proof.
  intros Hd. unfold fillMissing. fold zone. rewrite formatDate_tzDate.
  destruct (obj_get d times) as [w |] eqn:Hg.
  - apply (dated_get _ _ _ Hd) in Hg. destruct w as [dt ? ? ? ?].
    cbn in Hg. by rewrite Hg.
  - unfold synthesized, moment.startOf_noUnit, moment.endOf_noUnit.
    replace (moment.format (moment.tzDate zone d)) with (moment.tzDate zone d);
      [done |].
    unfold moment.tzDate.
    replace (d * moment.DAY - zone * moment.MINUTE)
      with ((d * 1440 - zone) * moment.MINUTE) by (unfold moment.DAY, moment.MINUTE; lia).
    by rewrite format_minutes.
Qed.

Lemma fillMissing_keys (times : DateObject) (d : Z) :
  dated times ->
  dated (fillMissing self times (moment.tzDate zone d))
  /\ obj_keys (fillMissing self times (moment.tzDate zone d))
     = addKey (obj_keys times) d.
Proof.
  intros Hd. rewrite fillMissing_spec by done.
  destruct (obj_get d times) as [w |] eqn:Hg.
  - split; [done |]. unfold addKey.
    rewrite decide_True; [done |]. by eapply obj_get_Some_keys.
  - split; [by apply dated_set | apply obj_keys_set].
Qed.

Lemma fold_fillMissing (ds : list Z) (times : DateObject) :
  dated times ->
  dated (fold_left (fillMissing self) (map (moment.tzDate zone) ds) times)
  /\ obj_keys (fold_left (fillMissing self) (map (moment.tzDate zone) ds) times)
     = fold_left addKey ds (obj_keys times).
Proof.
  revert times. induction ds as [| d ds IH]; intros times Hd; cbn [fold_left map].
  - done.
  - destruct (fillMissing_keys times d Hd) as [Hd' Hk].
    destruct (IH _ Hd') as [Hd'' Hk'']. split; [done |]. by rewrite Hk'', Hk.
Qed.

End BackFill.

Section ParseLoops.

Variable self : Park.
Variables today n : Z.

Let zone := park_timezone self.
Let startDate := moment.tzDate zone today.
Let endDate := moment.tzDate zone (today + n) + moment.DAY - 1.

Lemma range_checks (d : Z) :
  moment.isAfter (moment.tzDate zone d) endDate
  || moment.isBefore (moment.tzDate zone d) startDate
  = negb (inRange today n d).
Proof.
  unfold moment.isAfter, moment.isBefore, inRange, endDate, startDate,
    moment.tzDate, moment.DAY.
  destruct (Z.ltb_spec ((today + n) * 86400000 - zone * moment.MINUTE + 86400000 - 1)
              (d * 86400000 - zone * moment.MINUTE));
    destruct (Z.ltb_spec (d * 86400000 - zone * moment.MINUTE)
                (today * 86400000 - zone * moment.MINUTE));
    destruct (Z.leb_spec today d); destruct (Z.leb_spec d (today + n));
    cbn; try reflexivity; lia.
Qed.

Lemma dayLoop_dateRange :
  dayLoop startDate endDate = map (moment.tzDate zone) (dateRange today n).
Proof.
  unfold dayLoop, dateRange. rewrite map_map.
  replace ((endDate - startDate) / moment.DAY + 1) with (n + 1).
  - apply map_ext. intros k.
    unfold moment.addDays, startDate, moment.tzDate. lia.
  - f_equal. unfold endDate, startDate, moment.tzDate, moment.DAY.
    apply (Z.div_unique _ _ n 86399999); lia.
Qed.

Lemma addStandard_spec (times : DateObject) (time : RawEntry) :
  dated times ->
  dated (addStandard self startDate endDate times time)
  /\ obj_keys (addStandard self startDate endDate times time)
     = if isOpeningType (e_type time) && inRange today n (e_date time)
       then addKey (obj_keys times) (e_date time)
       else obj_keys times.
Proof.
  intros Hd. unfold addStandard. fold zone.
  destruct (isOpeningType (e_type time)); cbn [andb]; [| done].
  pose proof (range_checks (e_date time)) as Hr. symmetry in Hr. cbn zeta.
  destruct (moment.isAfter _ endDate); cbn in Hr.
  { apply negb_true_iff in Hr. by rewrite Hr. }
  destruct (moment.isBefore _ startDate); cbn in Hr.
  { apply negb_true_iff in Hr. by rewrite Hr. }
  apply negb_false_iff in Hr. rewrite Hr.
  rewrite formatDate_tzDate. split.
  - by apply dated_set.
  - apply obj_keys_set.
Qed.

Lemma fold_addStandard (entries : list RawEntry) (times : DateObject) :
  dated times ->
  dated (fold_left (addStandard self startDate endDate) entries times)
  /\ obj_keys (fold_left (addStandard self startDate endDate) entries times)
     = fold_left addKey (standardDates today n entries) (obj_keys times).
Proof.
  revert times. induction entries as [| e entries IH]; intros times Hd; cbn [fold_left map].
  - done.
  - destruct (addStandard_spec times e Hd) as [Hd' Hk].
    destruct (IH _ Hd') as [Hd'' Hk'']. split; [done |].
    rewrite Hk'', Hk. unfold standardDates. cbn [List.filter].
    by destruct (isOpeningType (e_type e) && inRange today n (e_date e)).
Qed.

Lemma addSpecial_spec (times : DateObject) (time : RawEntry) :
  dated times ->
  dated (addSpecial self startDate endDate times time)
  /\ obj_keys (addSpecial self startDate endDate times time) = obj_keys times.
Proof.
  intros Hd. unfold addSpecial. fold zone.
  destruct (negb (isOpeningType (e_type time))); [| done]. cbn zeta.
  destruct (moment.isAfter _ endDate); [done |].
  destruct (moment.isBefore _ startDate); [done |].
  rewrite formatDate_tzDate.
  destruct (obj_get (e_date time) times) as [w |] eqn:Hg; [| done].
  split.
  - apply dated_set; [| done]. cbn. by eapply dated_get.
  - rewrite obj_keys_set. unfold addKey.
    rewrite decide_True; [done |]. by eapply obj_get_Some_keys.
Qed.

Lemma fold_addSpecial (entries : list RawEntry) (times : DateObject) :
  dated times ->
  dated (fold_left (addSpecial self startDate endDate) entries times)
  /\ obj_keys (fold_left (addSpecial self startDate endDate) entries times)
     = obj_keys times.
Proof.
  revert times. induction entries as [| e entries IH]; intros times Hd; cbn [fold_left map].
  - done.
  - destruct (addSpecial_spec times e Hd) as [Hd' Hk].
    destruct (IH _ Hd') as [Hd'' Hk'']. split; [done |]. by rewrite Hk'', Hk.
Qed.

(** The dates of the stored array, in order. *)
Lemma parseActivity_dates (entries : list RawEntry) :
  map date (parseActivity self startDate endDate entries)
  = map Some
      (fold_left addKey (dateRange today n)
         (insertionOrder (standardDates today n entries))).
Proof.
  unfold parseActivity. cbn zeta. rewrite dayLoop_dateRange.
  destruct (fold_addStandard entries []) as [Hd1 Hk1]; [constructor |].
  destruct (fold_addSpecial entries _ Hd1) as [Hd2 Hk2].
  destruct (fold_fillMissing self (dateRange today n) _ Hd2) as [Hd3 Hk3].
  fold zone in Hd3, Hk3.
  rewrite dated_values by done. by rewrite Hk3, Hk2, Hk1.
Qed.

End ParseLoops.

(** ** Ordering of the stored array *)

Lemma formatDate_addDays (zone now k : Z) :
  moment.formatDate zone (moment.addDays k now) = moment.formatDate zone now + k.
Proof.
  unfold moment.formatDate, moment.addDays.
  replace (now + k * moment.DAY + zone * moment.MINUTE)
    with (now + zone * moment.MINUTE + k * moment.DAY) by lia.
  apply Z.div_add. unfold moment.DAY. lia.
Qed.

Lemma insertionOrder_NoDup (ks : list Z) : NoDup ks -> insertionOrder ks = ks.
Proof.
  intros Hnd. unfold insertionOrder. rewrite fold_addKey_NoDup by done. cbn.
  induction ks as [| k ks IH]; cbn; [done |].
  apply NoDup_cons in Hnd as [_ Hnd]. by rewrite IH.
Qed.

Lemma elem_of_insertionOrder (ks : list Z) (x : Z) :
  x ∈ insertionOrder ks <-> x ∈ ks.
Proof.
  unfold insertionOrder. rewrite elem_of_fold_addKey, elem_of_nil. tauto.
Qed.

Lemma elem_of_standardDates (today n : Z) (entries : list RawEntry) (d : Z) :
  d ∈ standardDates today n entries -> today <= d <= today + n.
Proof.
  unfold standardDates. rewrite list_elem_of_In, in_map_iff.
  intros [e [<- [_ He]%filter_In]].
  apply andb_true_iff in He as [_ He]. unfold inRange in He.
  apply andb_true_iff in He as [H1%Z.leb_le H2%Z.leb_le]. lia.
Qed.

Lemma StronglySorted_lt_NoDup (l : list Z) : StronglySorted Z.lt l -> NoDup l.
Proof.
  induction 1 as [| x l _ IH Hx]; constructor; [| done].
  intros Hin. rewrite Forall_forall in Hx. specialize (Hx x Hin). lia.
Qed.

Lemma StronglySorted_filter (f : Z -> bool) (l : list Z) :
  StronglySorted Z.lt l -> StronglySorted Z.lt (List.filter f l).
Proof.
  induction 1 as [| x l _ IH Hx]; cbn; [constructor |].
  destruct (f x); [| done]. constructor; [done |].
  rewrite Forall_forall in *. intros y Hy.
  apply Hx. apply list_elem_of_In in Hy. apply filter_In in Hy as [Hy _].
  by apply list_elem_of_In.
Qed.

Lemma StronglySorted_dateRange (today n : Z) :
  StronglySorted Z.lt (dateRange today n).
Proof.
  unfold dateRange. generalize (Z.to_nat (n + 1)) as len. generalize 0%nat as k.
  intros k len. revert k. induction len as [| len IH]; intros k; cbn.
  - constructor.
  - constructor; [apply IH |].
    rewrite Forall_forall. intros y Hy.
    apply list_elem_of_In, in_map_iff in Hy as [j [<- Hj%in_seq]]. lia.
Qed.

(** C5 (amended).  The stored array is in insertion order: first the dates
    of the in-range standard entries, in the order of their first
    appearance in the raw payload, then the dates missing from them, in
    ascending order.  It is in ascending date order when the standard
    entries appear in ascending date order in the payload and every
    missing date is later than every date they give. *)
Theorem C5_insertion_order (self : Park) (now : Z) (entries : list RawEntry) :
  let zone := park_timezone self in
  let today := moment.formatDate zone now in
  let n := scheduleMaxDates self in
  let std := standardDates today n entries in
  let stored :=
    parseActivity self (moment.startOfDay zone now)
      (moment.endOfDay zone (moment.addDays n now)) entries in
  map date stored
  = map Some
      (insertionOrder std
         ++ List.filter (fun d => negb (bool_decide (d ∈ std))) (dateRange today n))
  /\ (StronglySorted Z.lt std ->
      (forall d d', d ∈ std -> d' ∈ dateRange today n -> d' ∉ std -> d < d') ->
      map date stored = map Some (dateRange today n)).
Proof.
  intros zone today n std stored.
  assert (Hdates :
    map date stored
    = map Some
        (insertionOrder std
           ++ List.filter (fun d => negb (bool_decide (d ∈ std))) (dateRange today n))).
  { unfold stored, moment.endOfDay, moment.startOfDay.
    rewrite formatDate_addDays. subst std today zone n.
    rewrite parseActivity_dates.
    rewrite fold_addKey_NoDup by apply NoDup_dateRange.
    do 2 f_equal. apply List.filter_ext. intros d. f_equal.
    apply bool_decide_ext, elem_of_insertionOrder. }
  split; [exact Hdates |].
  intros Hsorted Hlater. rewrite Hdates. f_equal.
  rewrite insertionOrder_NoDup by (by apply StronglySorted_lt_NoDup).
  apply (StronglySorted_unique_strong Z.lt).
  - intros x1 x2 _ _ H1 H2. lia.
  - apply StronglySorted_app_2; [| done | by apply StronglySorted_filter, StronglySorted_dateRange].
    intros x1 x2 H1 H2. apply list_elem_of_In, filter_In in H2 as [Hr Hn].
    apply negb_true_iff, bool_decide_eq_false in Hn.
    apply Hlater; [done | by apply list_elem_of_In | done].
  - apply StronglySorted_dateRange.
  - apply NoDup_Permutation.
    + apply NoDup_app. split; [by apply StronglySorted_lt_NoDup |]. split.
      * intros x Hx Hx'. apply list_elem_of_In, filter_In in Hx' as [_ Hn].
        by apply negb_true_iff, bool_decide_eq_false in Hn.
      * apply StronglySorted_lt_NoDup, StronglySorted_filter, StronglySorted_dateRange.
    + apply NoDup_dateRange.
    + intros x. rewrite elem_of_app. split.
      * intros [Hx | Hx].
        -- apply elem_of_dateRange. by eapply elem_of_standardDates.
        -- apply list_elem_of_In, filter_In in Hx as [Hx _]. by apply list_elem_of_In.
      * intros Hx. destruct (decide (x ∈ std)) as [| Hn]; [by left | right].
        apply list_elem_of_In, filter_In. split; [by apply list_elem_of_In |].
        by apply negb_true_iff, bool_decide_eq_false.
Qed.

(** ** Coverage and the back-filled windows *)

Lemma obj_get_values (k : Z) (w : DayWindow) (o : DateObject) :
  obj_get k o = Some w -> w ∈ obj_values o.
Proof.
  unfold obj_values. induction o as [| [k' v'] o IH]; cbn; [discriminate |].
  destruct (Z.eqb_spec k k'); intros H.
  - injection H as <-. apply list_elem_of_here.
  - apply list_elem_of_further. by apply IH.
Qed.

Lemma fold_fillMissing_get (self : Park) (ds : list Z) :
  forall (times : DateObject) (d : Z),
    dated times ->
    obj_get d (fold_left (fillMissing self)
                 (map (moment.tzDate (park_timezone self)) ds) times)
    = match obj_get d times with
      | Some w => Some w
      | None => if bool_decide (d ∈ ds)
                then Some (synthesized (park_timezone self) d) else None
      end.
Proof.
  induction ds as [| d0 ds IH]; intros times d Hd; cbn [map fold_left].
  - rewrite bool_decide_eq_false_2 by apply not_elem_of_nil.
    by destruct (obj_get d times).
  - destruct (fillMissing_keys self times d0 Hd) as [Hd' _].
    rewrite IH by done. rewrite fillMissing_spec by done.
    destruct (obj_get d0 times) as [w0 |] eqn:Hg0.
    + destruct (obj_get d times) as [w |] eqn:Hg; [done |].
      assert (Hb : bool_decide (d ∈ d0 :: ds) = bool_decide (d ∈ ds)).
      { apply bool_decide_ext. rewrite elem_of_cons.
        split; [intros [-> | ?]; [congruence | done] | tauto]. }
      by rewrite Hb.
    + rewrite obj_get_set. destruct (Z.eqb_spec d d0) as [-> | Hne].
      * rewrite Hg0. rewrite bool_decide_eq_true_2 by apply list_elem_of_here. done.
      * destruct (obj_get d times); [done |].
        assert (Hb : bool_decide (d ∈ d0 :: ds) = bool_decide (d ∈ ds)).
        { apply bool_decide_ext. rewrite elem_of_cons. tauto. }
        by rewrite Hb.
Qed.

(** Gap-free coverage: the stored array has exactly one window for each
    date of [today .. today + maxDates], and no other. *)
Lemma gap_free_coverage (self : Park) (now : Z) (entries : list RawEntry) :
  let zone := park_timezone self in
  let today := moment.formatDate zone now in
  let stored :=
    parseActivity self (moment.startOfDay zone now)
      (moment.endOfDay zone (moment.addDays (scheduleMaxDates self) now)) entries in
  exists ds,
    map date stored = map Some ds
    /\ NoDup ds
    /\ forall d, d ∈ ds <-> today <= d <= today + scheduleMaxDates self.
Proof.
  intros zone today stored.
  eexists. split; [| split].
  - unfold stored, moment.endOfDay, moment.startOfDay.
    rewrite formatDate_addDays. apply parseActivity_dates.
  - apply NoDup_fold_addKey, NoDup_fold_addKey. constructor.
  - intros d. rewrite elem_of_fold_addKey, elem_of_insertionOrder, elem_of_dateRange.
    split; [| tauto]. intros [Hd | Hd]; [| done].
    by eapply elem_of_standardDates.
Qed.

(** C3.  For every date of the range that no in-range standard entry of
    the payload gives, the stored array holds the window the back-fill loop
    creates: its type is "Closed" and its openingTime is the start of that
    local day, but its closingTime is that same instant, the start of the
    day, and not the printed end of the day ([day.endOf()] is called
    without a unit). *)
Theorem C3_backfilled_window (self : Park) (now : Z) (entries : list RawEntry) (d : Z) :
  let zone := park_timezone self in
  let today := moment.formatDate zone now in
  let n := scheduleMaxDates self in
  let stored :=
    parseActivity self (moment.startOfDay zone now)
      (moment.endOfDay zone (moment.addDays n now)) entries in
  today <= d <= today + n ->
  d ∉ standardDates today n entries ->
  exists w,
    w ∈ stored /\ date w = Some d /\ type w = "Closed"
    /\ openingTime w = moment.tzDate zone d
    /\ closingTime w = moment.tzDate zone d
    /\ closingTime w
       <> moment.format (moment.endOfDay zone (moment.tzDate zone d)).
Proof.
  intros zone today n stored Hrange Hmiss. subst zone stored.
  exists (synthesized (park_timezone self) d).
  split; [| split; [done | split; [done | split; [done | split; [done |]]]]].
  - unfold moment.endOfDay, moment.startOfDay, parseActivity.
    rewrite formatDate_addDays. fold today. cbn zeta.
    rewrite (dayLoop_dateRange self today n).
    destruct (fold_addStandard self today n entries []) as [Hd1 Hk1]; [constructor |].
    destruct (fold_addSpecial self today n entries _ Hd1) as [Hd2 Hk2].
    apply (obj_get_values d).
    rewrite fold_fillMissing_get by done.
    match goal with
    | |- context [obj_get d ?o] => destruct (obj_get d o) as [w |] eqn:Hg
    end.
    + exfalso. apply Hmiss. apply obj_get_Some_keys in Hg.
      rewrite Hk2, Hk1 in Hg. cbn in Hg. by apply elem_of_insertionOrder.
    + rewrite bool_decide_eq_true_2; [done |]. by apply elem_of_dateRange.
  - cbn. unfold moment.endOfDay, moment.startOfDay.
    rewrite formatDate_tzDate.
    unfold moment.format, moment.tzDate, moment.DAY, moment.MINUTE.
    intros Heq.
    assert (H : (d * 86400000 - park_timezone self * 60000 + 86400000 - 1) / 1000
                = d * 86400 - park_timezone self * 60 + 86399).
    { symmetry. apply (Z.div_unique _ _ _ 999); lia. }
    rewrite H in Heq. lia.
Qed.

(** ** The access token *)

Lemma GetAccessToken_fetch (net : Transport) (self : Park) (s : State) :
  tokenExpired s ->
  GetAccessToken net self s
  = bind (FetchAccessToken net self)
      (fun r s' =>
         (Ok (fst r),
          set_accessToken
            (Some {| token := fst r; tok_expires := snd r; correlation := None |})
            s'))
      (set_accessToken None s).
Proof.
  destruct s as [c t clk rq]. unfold GetAccessToken, tokenExpired, set_accessToken.
  cbn. destruct t as [t |]; [| reflexivity].
  intros H. destruct (Z.leb_spec (tok_expires t) clk); [reflexivity | lia].
Qed.

(** C7.  When no valid token is cached and the token request is answered
    with status 200 and a body carrying a non-empty [access_token] and
    [expires_in]: if [expires_in < 5] the operation fails with an error and
    no credential is cached; otherwise the token is returned and cached
    with [expires = now + max(expires_in - 30, 5) * 1000] milliseconds,
    [now] being the instant the reply arrives.  The equation is stated for
    a reply that arrives at an instant a [Date] can hold and an
    [expires_in] of at most 10^11 seconds, where the program's double
    arithmetic is exact: every value involved is then below 2^53. *)
Theorem C7_token_expiry (net : Transport) (self : Park) (s : State)
    (resp : Response) (o : JsonObject) (elapsed : N) (tok : string) (e : Z) :
  tokenExpired s ->
  net (tokenRequest self) (clock s) = (NetOk resp (Some (JsonObj o)), elapsed) ->
  statusCode resp = 200 ->
  access_token o = Some tok -> tok <> "" ->
  expires_in o = Some e ->
  let now := clock s + Z.of_N elapsed in
  (e < 5 ->
   exists msg s',
     GetAccessToken net self s = (Err msg, s') /\ _accessToken s' = None)
  /\ (5 <= e -> e <= maxExpiresIn -> validDate now ->
      exists s',
        GetAccessToken net self s = (Ok tok, s')
        /\ _accessToken s'
           = Some {| token := tok;
                     tok_expires := now + Z.max (e - 30) 5 * 1000;
                     correlation := None |}
        /\ Z.abs (e - 30) < 2 ^ 53
        /\ Z.abs (Z.max (e - 30) 5 * 1000) < 2 ^ 53
        /\ Z.abs (now + Z.max (e - 30) 5 * 1000) < 2 ^ 53).
Proof.
  intros Hexp Hnet Hstatus Htok Hne He now.
  assert (Htruthy : truthyString (access_token o) = true).
  { rewrite Htok. destruct tok; [done | reflexivity]. }
  rewrite GetAccessToken_fetch by done.
  unfold bind, FetchAccessToken, bind, MakeNetworkRequest.
  cbn [clock set_accessToken]. rewrite Hnet.
  rewrite Hstatus. cbn [Z.eqb Pos.eqb negb].
  rewrite Htruthy, He. cbn [truthyNumber default clock].
  destruct (Z.eqb_spec e 0) as [-> | Hnz]; cbn [negb andb].
  - split; [| lia]. intros _. unfold Error. eauto.
  - rewrite Htok. cbn.
    destruct (Z.ltb_spec e 5) as [Hlt | Hge]; split; intros H; try lia.
    + eauto.
    + intros Hmax Hdate. eexists. split; [reflexivity |]. split; [reflexivity |].
      unfold maxExpiresIn in Hmax. unfold validDate in Hdate. fold now.
      change (2 ^ 53) with 9007199254740992. lia.
Qed.

(** ** What the operations leave alone *)

Lemma bind_inv {A B} (m : M A) (k : A -> M B) (s s' : State) (r : Outcome B) :
  bind m k s = (r, s') ->
  (exists a s1, m s = (Ok a, s1) /\ k a s1 = (r, s'))
  \/ (exists e, m s = (Err e, s') /\ r = Err e)
  \/ (exists e, m s = (Throw e, s') /\ r = Throw e).
Proof.
  unfold bind. destruct (m s) as [[a | e | e] s1]; intros H.
  - left. eauto.
  - right. left. injection H as <- <-. eauto.
  - right. right. injection H as <- <-. eauto.
Qed.

Lemma bindError_inv {A B} (m : M A) (msg : string) (k : A -> M B)
    (s s' : State) (r : Outcome B) :
  bindError m msg k s = (r, s') ->
  (exists a s1, m s = (Ok a, s1) /\ k a s1 = (r, s'))
  \/ (exists e, m s = (Err e, s') /\ r = Err msg)
  \/ (exists e, m s = (Throw e, s') /\ r = Throw e).
Proof.
  unfold bindError, Error. destruct (m s) as [[a | e | e] s1]; intros H.
  - left. eauto.
  - right. left. injection H as <- <-. eauto.
  - right. right. injection H as <- <-. eauto.
Qed.

Lemma after_trans (l1 l2 : list Request) (s1 s2 s3 : State) :
  after l1 s1 s2 -> after l2 s2 s3 -> after (l1 ++ l2) s1 s3.
Proof.
  intros (Hc1 & Hr1 & Ht1) (Hc2 & Hr2 & Ht2). unfold after.
  rewrite Hc2, Hc1, Hr2, Hr1, app_assoc. repeat split; lia.
Qed.

Lemma MakeNetworkRequest_after (net : Transport) (req : Request) (s : State) :
  exists reply s',
    MakeNetworkRequest net req s = (Ok reply, s')
    /\ after [req] s s' /\ _accessToken s' = _accessToken s.
Proof.
  unfold MakeNetworkRequest, after. destruct (net req (clock s)) as [reply elapsed].
  eexists _, _. split; [reflexivity |]. cbn. repeat split; lia.
Qed.

Lemma FetchAccessToken_after (net : Transport) (self : Park) (s s' : State)
    (r : Outcome (string * Z)) :
  FetchAccessToken net self s = (r, s') ->
  after [tokenRequest self] s s' /\ _accessToken s' = _accessToken s.
Proof.
  unfold FetchAccessToken. intros H.
  destruct (MakeNetworkRequest_after net (tokenRequest self) s)
    as (reply & s1 & Hm & Ha & Ht).
  unfold bind in H. rewrite Hm in H. unfold Error in H.
  repeat match type of H with
         | context [match ?x with _ => _ end] => destruct x
         | context [if ?x then _ else _] => destruct x
         end; injection H as <- <-; done.
Qed.

Lemma GetAccessToken_after (net : Transport) (self : Park) (s s' : State)
    (r : Outcome string) :
  GetAccessToken net self s = (r, s') ->
  (exists l, after l s s' /\ ((l = [] /\ exists v, r = Ok v) \/ l = [tokenRequest self]))
  /\ (forall v, r = Ok v -> exists t, _accessToken s' = Some t)
  /\ (tokenExpired s -> after [tokenRequest self] s s').
Proof.
  intros H.
  assert (Hfetch : forall s0 : State,
            scheduleCache s0 = scheduleCache s -> requests s0 = requests s ->
            clock s0 = clock s ->
            bind (FetchAccessToken net self)
              (fun r s' =>
                 (Ok (fst r),
                  set_accessToken
                    (Some {| token := fst r; tok_expires := snd r; correlation := None |})
                    s')) s0 = (r, s') ->
            after [tokenRequest self] s s'
            /\ (forall v, r = Ok v -> exists t, _accessToken s' = Some t)).
  { intros s0 Hc Hr Hk Hb.
    apply bind_inv in Hb as [(a & s1 & Hf & Hk') | [(e & Hf & ->) | (e & Hf & ->)]];
      apply FetchAccessToken_after in Hf as [(Hc1 & Hr1 & Ht1) _].
    - injection Hk' as <- <-. unfold after. cbn.
      rewrite Hc1, Hr1, Hc, Hr. split; [repeat split; lia | eauto].
    - unfold after. rewrite Hc1, Hr1, Hc, Hr. split; [repeat split; lia | done].
    - unfold after. rewrite Hc1, Hr1, Hc, Hr. split; [repeat split; lia | done]. }
  unfold GetAccessToken, tokenExpired in *.
  destruct (_accessToken s) as [t |] eqn:Ht.
  - destruct (Z.leb_spec (tok_expires t) (clock s)).
    + apply Hfetch in H as [Ha Hv]; [| done..].
      split; [exists [tokenRequest self]; eauto | eauto].
    + injection H as <- <-. split; [| split].
      * exists []. unfold after. rewrite app_nil_r.
        split; [repeat split; lia | left; eauto].
      * eauto.
      * lia.
  - apply Hfetch in H as [Ha Hv]; [| done..].
    split; [exists [tokenRequest self]; eauto | eauto].
Qed.

Lemma FetchURL_after (net : Transport) (self : Park) (u : string) (options : Options)
    (s s' : State) (r : Outcome Json) :
  FetchURL net self u options s = (r, s') ->
  exists req l, after (req :: l) s s'.
Proof.
  unfold FetchURL. intros H.
  apply bindError_inv in H
    as [(a & s1 & Hg & Hk) | [(e & Hg & ->) | (e & Hg & ->)]];
    apply GetAccessToken_after in Hg as ((l & Ha & Hl) & Hv & _).
  - destruct (Hv a eq_refl) as [t Ht]. rewrite Ht in Hk.
    match type of Hk with
    | bind (MakeNetworkRequest net ?req) _ _ = _ =>
        destruct (MakeNetworkRequest_after net req s1) as (reply & s2 & Hm & Ha2 & Ht2);
        assert (Hall : after (l ++ [req]) s s2) by (by eapply after_trans)
    end.
    unfold bind in Hk. rewrite Hm in Hk.
    assert (Hs' : scheduleCache s' = scheduleCache s2 /\ requests s' = requests s2
                  /\ clock s' = clock s2).
    { unfold Error, set_correlation, set_accessToken in Hk.
      repeat match type of Hk with
             | context [match ?x with _ => _ end] => destruct x
             end; injection Hk as <- <-; done. }
    destruct Hs' as (Hc & Hr & Hclk). destruct Hall as (Hc' & Hr' & Hclk').
    destruct l as [| r0 l]; eexists _, _; unfold after;
      rewrite Hc, Hr, Hclk, Hc', Hr'; repeat split; try reflexivity; lia.
  - destruct Hl as [[_ [v Hv']] | ->]; [discriminate |]. eauto.
  - destruct Hl as [[_ [v Hv']] | ->]; [discriminate |]. eauto.
Qed.

(** ** The schedule cache *)

Lemma CacheScheduleData_stale (net : Transport) (self : Park) (s : State) :
  stale self s -> CacheScheduleData net self s = refreshSchedule net self s.
Proof.
  unfold stale, CacheScheduleData.
  destruct (scheduleCache s !! resort_id self) as [e |]; [| done].
  intros H. destruct (Z.leb_spec (clock s) (expires e)); [lia | done].
Qed.

Lemma ParseScheduleData_activities (self : Park) (o : JsonObject)
    (acts : list Activity) (startDate endDate : Z) (s : State) :
  activities o = Some acts ->
  ParseScheduleData self (JsonObj o) startDate endDate s
  = (Ok (parseActivities self startDate endDate acts !! parkKey self),
     set_scheduleCache
       (<[resort_id self :=
            {| expires := clock s + 12 * moment.HOUR;
               data := parseActivities self startDate endDate acts |}]>
          (scheduleCache s)) s).
Proof. unfold ParseScheduleData. intros ->. reflexivity. Qed.

(** What the schedule object holds under an id. *)
Lemma parseActivities_get (self : Park) (startDate endDate : Z)
    (acts : list Activity) (id : string) :
  parseActivities self startDate endDate acts !! id
  = parseActivity self startDate endDate <$> lastActivity id acts.
Proof.
  unfold parseActivities.
  assert (H : forall (m : gmap string (list DayWindow)),
    fold_left
      (fun schedule sched =>
         match a_schedule sched with
         | Some {| schedules := Some entries |} =>
             <[CleanRideID (a_id sched) := parseActivity self startDate endDate entries]>
               schedule
         | _ => schedule
         end) acts m !! id
    = match lastActivity id acts with
      | Some es => Some (parseActivity self startDate endDate es)
      | None => m !! id
      end).
  { induction acts as [| a acts IH]; intros m; cbn [fold_left lastActivity]; [done |].
    rewrite IH. destruct (lastActivity id acts); [done |].
    destruct (a_schedule a) as [[[es |]] |]; [| done..].
    destruct (String.eqb_spec (CleanRideID (a_id a)) id) as [-> | Hne].
    - by rewrite lookup_insert_eq.
    - by rewrite lookup_insert_ne. }
  rewrite H. by destruct (lastActivity id acts).
Qed.

(** A stale cache makes [CacheScheduleData] go upstream. *)
Lemma CacheScheduleData_stale_requests (net : Transport) (self : Park) (s : State) :
  stale self s ->
  exists req l,
    requests (snd (CacheScheduleData net self s)) = requests s ++ req :: l.
Proof.
  intros Hst. rewrite CacheScheduleData_stale by done.
  destruct (refreshSchedule net self s) as [r s'] eqn:Hr. cbn [snd].
  unfold refreshSchedule in Hr.
  apply bindError_inv in Hr
    as [(d & s1 & Hf & Hk) | [(e & Hf & ->) | (e & Hf & ->)]];
    apply FetchURL_after in Hf as (req & l & Hc & Hrq & Ht); [| by eauto..].
  exists req, l. rewrite <- Hrq.
  destruct d as [| o]; [by injection Hk as <- <- |].
  unfold bind, ParseScheduleData, Error, ret in Hk.
  destruct (activities o); by injection Hk as <- <-.
Qed.

(** C8.  When the schedule payload lacks [activities], parsing reports an
    error and leaves the state untouched; [CacheScheduleData] passes the
    error on with the schedule cache, data and expiry, exactly as before;
    and a later call finds the cache as stale as it was and goes upstream
    again. *)
Theorem C8_missing_activities (net : Transport) (self : Park) (s s1 : State)
    (o : JsonObject) :
  let startDate := moment.startOfDay (park_timezone self) (clock s) in
  let endDate :=
    moment.endOfDay (park_timezone self)
      (moment.addDays (scheduleMaxDates self) (clock s)) in
  stale self s ->
  FetchURL net self (ConstructScheduleURL self)
    (withData (ConstructScheduleData self startDate endDate)) s = (Ok (JsonObj o), s1) ->
  activities o = None ->
  ParseScheduleData self (JsonObj o) startDate endDate s1
  = (Err "No schedule data returned", s1)
  /\ CacheScheduleData net self s = (Err "No schedule data returned", s1)
  /\ scheduleCache s1 = scheduleCache s
  /\ (forall s2 : State,
        scheduleCache s2 = scheduleCache s1 -> clock s <= clock s2 ->
        exists req l,
          requests (snd (CacheScheduleData net self s2)) = requests s2 ++ req :: l).
Proof.
  intros startDate endDate Hst Hf Hno.
  assert (Hp : ParseScheduleData self (JsonObj o) startDate endDate s1
               = (Err "No schedule data returned", s1)).
  { unfold ParseScheduleData. rewrite Hno. reflexivity. }
  pose proof (FetchURL_after _ _ _ _ _ _ _ Hf) as (req & l & Hc & _ & _).
  split; [exact Hp |]. split; [| split; [exact Hc |]].
  - rewrite CacheScheduleData_stale by done.
    unfold refreshSchedule, bindError. fold startDate endDate. rewrite Hf.
    unfold bind. rewrite Hp. reflexivity.
  - intros s2 Hc2 Ht. apply CacheScheduleData_stale_requests.
    unfold stale in *. rewrite Hc2, Hc.
    destruct (scheduleCache s !! resort_id self); [lia | done].
Qed.

(** C9.  While the cached entry of the resort has not expired,
    [CacheScheduleData] answers from the cache: it issues no request and
    changes nothing.  A refresh that succeeds has fetched a payload with
    [activities] and installs the schedule parsed from them (under each id,
    the windows parsed from the payload's last activity with that cleaned
    id), with [expires] twelve hours after the instant the payload arrived;
    a second call at any instant up to then changes nothing again. *)
Theorem C9_schedule_freshness (net : Transport) (self : Park) (s : State) :
  let startDate := moment.startOfDay (park_timezone self) (clock s) in
  let endDate :=
    moment.endOfDay (park_timezone self)
      (moment.addDays (scheduleMaxDates self) (clock s)) in
  (forall e, scheduleCache s !! resort_id self = Some e ->
             clock s <= expires e ->
             CacheScheduleData net self s = (Ok tt, s))
  /\ (forall s', stale self s ->
        CacheScheduleData net self s = (Ok tt, s') ->
        exists s1 o acts,
          FetchURL net self (ConstructScheduleURL self)
            (withData (ConstructScheduleData self startDate endDate)) s
          = (Ok (JsonObj o), s1)
          /\ activities o = Some acts
          /\ clock s' = clock s1
          /\ scheduleCache s'
             = <[resort_id self :=
                   {| expires := clock s1 + 12 * moment.HOUR;
                      data := parseActivities self startDate endDate acts |}]>
                 (scheduleCache s)
          /\ (forall id,
                cachedSchedule self s' id
                = parseActivity self startDate endDate <$> lastActivity id acts)
          /\ (forall t, t <= clock s' + 12 * moment.HOUR ->
                CacheScheduleData net self (set_clock t s') = (Ok tt, set_clock t s'))).
Proof.
  intros startDate endDate.
  assert (Hfresh : forall (s0 : State) e,
            scheduleCache s0 !! resort_id self = Some e ->
            clock s0 <= expires e ->
            CacheScheduleData net self s0 = (Ok tt, s0)).
  { intros s0 e He Hle. unfold CacheScheduleData. rewrite He.
    destruct (Z.leb_spec (clock s0) (expires e)); [done | lia]. }
  split; [apply Hfresh |].
  intros s' Hst Hrun. rewrite CacheScheduleData_stale in Hrun by done.
  unfold refreshSchedule in Hrun. fold startDate endDate in Hrun.
  apply bindError_inv in Hrun
    as [(d & s1 & Hf & Hk) | [(e & _ & ?) | (e & _ & ?)]]; [| done..].
  destruct d as [| o]; [done |].
  destruct (activities o) as [acts |] eqn:Hacts.
  2:{ unfold bind, ParseScheduleData in Hk. rewrite Hacts in Hk. done. }
  unfold bind in Hk. rewrite (ParseScheduleData_activities _ _ acts) in Hk by done.
  injection Hk as <-.
  pose proof (FetchURL_after _ _ _ _ _ _ _ Hf) as (req & l & Hc & _ & _).
  exists s1, o, acts.
  split; [exact Hf |]. split; [exact Hacts |]. split; [reflexivity |].
  split; [cbn; by rewrite Hc |]. split.
  - intros id. unfold cachedSchedule. cbn. rewrite lookup_insert_eq. cbn.
    apply parseActivities_get.
  - intros t Ht. eapply Hfresh; [cbn; apply lookup_insert_eq | exact Ht].
Qed.

(** ** Record assembly *)

Lemma cachedSchedule_None_update (self : Park) (s : State) (e : CacheEntry)
    (id id0 : string) (cached cached' : list DayWindow) :
  scheduleCache s !! resort_id self = Some e ->
  data e !! id0 = Some cached ->
  cachedSchedule self
    (set_scheduleCache
       (<[resort_id self := {| expires := expires e;
                               data := <[id0 := cached']> (data e) |}]>
          (scheduleCache s)) s) id = None
  <-> cachedSchedule self s id = None.
Proof.
  intros He Hd. unfold cachedSchedule. cbn.
  rewrite lookup_insert_eq, He. cbn.
  destruct (decide (id0 = id)) as [-> | Hne].
  - rewrite lookup_insert_eq, Hd. done.
  - by rewrite lookup_insert_ne.
Qed.

Lemma assembleRide_spec (self : Park) (now today : Z) (ride : LiveEntry)
    (s s' : State) (r : option Ride) :
  assembleRide self now today ride s = (Ok r, s') ->
  clock s' = clock s
  /\ (forall id, cachedSchedule self s' id = None <-> cachedSchedule self s id = None)
  /\ (forall obj, r = Some obj ->
        cachedSchedule self s (r_id obj) = None ->
        inherited (r_id obj) = None ->
        r_schedule obj
        = ScheduleWindow (allDay (park_timezone self) (clock s) (r_active obj))).
Proof.
  unfold assembleRide.
  destruct (truthyString (l_id ride) && truthyString (l_name ride)
            && truthyString (l_type ride) && optStringEq (l_type ride) "Attraction").
  2:{ intros H. injection H as <- <-. done. }
  destruct (l_waitTime ride) as [w |]; [| done].
  unfold cachedSchedule at 3.
  destruct (scheduleCache s !! resort_id self) as [e |] eqn:He; cbn [mbind option_bind].
  - unfold getProperty.
    destruct (data e !! CleanRideID (default "" (l_id ride))) as [cached |] eqn:Hd.
    + intros H. injection H as <- <-. split; [done |]. split.
      * intros id. by eapply cachedSchedule_None_update.
      * intros obj Hobj. injection Hobj as <-. cbn [r_id]. rewrite Hd. done.
    + destruct (inherited (CleanRideID (default "" (l_id ride)))) as [v |] eqn:Hv;
        intros H; injection H as <- <-; (split; [done |]); (split; [done |]);
        intros obj Hobj _ Hinh; injection Hobj as <-; cbn [r_id] in Hinh.
      * congruence.
      * reflexivity.
  - intros H. injection H as <- <-. split; [done |]. split; [done |].
    intros obj Hobj _ _. by injection Hobj as <-.
Qed.

Lemma assembleRides_spec (self : Park) (now today : Z) (es : list (option LiveEntry)) :
  forall (rides out : list Ride) (s s' : State),
    assembleRides self now today es rides s = (Ok out, s') ->
    clock s' = clock s
    /\ (forall id, cachedSchedule self s' id = None <-> cachedSchedule self s id = None)
    /\ ((forall obj, obj ∈ rides ->
           cachedSchedule self s (r_id obj) = None ->
           inherited (r_id obj) = None ->
           r_schedule obj
           = ScheduleWindow (allDay (park_timezone self) (clock s) (r_active obj))) ->
        forall obj, obj ∈ out ->
          cachedSchedule self s (r_id obj) = None ->
          inherited (r_id obj) = None ->
          r_schedule obj
          = ScheduleWindow (allDay (park_timezone self) (clock s) (r_active obj))).
Proof.
  induction es as [| [ride |] es IH]; intros rides out s s' H; cbn [assembleRides] in H.
  - injection H as <- <-. done.
  - apply bind_inv in H as [(r & s1 & Hr & Hk) | [(e & _ & ?) | (e & _ & ?)]];
      [| done..].
    apply assembleRide_spec in Hr as (Hc1 & Hk1 & Hs1).
    apply IH in Hk as (Hc2 & Hk2 & Hs2).
    split; [lia |]. split.
    + intros id. rewrite Hk2. apply Hk1.
    + intros Hrides obj Hobj Hnone Hinh.
      rewrite <- Hc1. apply Hs2; [| done | by apply Hk1 | done].
      intros obj' Hobj' Hnone' Hinh'. rewrite Hc1. apply Hk1 in Hnone'.
      destruct r as [o |].
      * apply elem_of_app in Hobj' as [Hin | ->%list_elem_of_singleton].
        -- by apply Hrides.
        -- by apply Hs1.
      * by apply Hrides.
  - done.
Qed.

(** C10.  The fallback misses the ids that name a property every object
    inherits.  For a live attraction entry whose cleaned id has no cached
    schedule but is such a name ("constructor", "toString", ...), the test
    [data[obj.id]] finds the inherited value and the cached branch runs:
    the scan finds no window, and [obj.schedule] ends as [undefined] (the
    value's [length] is positive) or [null], not as the synthesized
    all-day window; nothing is changed in the cache.  So it is with the id
    "constructor" in a whole query. *)
Theorem C10_inherited_id_skips_fallback (self : Park) (now today : Z)
    (ride : LiveEntry) (wt : WaitTime) (s : State) (e : CacheEntry) (v : Inherited) :
  isAttraction ride = true ->
  l_waitTime ride = Some wt ->
  scheduleCache s !! resort_id self = Some e ->
  cachedSchedule self s (CleanRideID (default "" (l_id ride))) = None ->
  inherited (CleanRideID (default "" (l_id ride))) = Some v ->
  (exists obj,
     assembleRide self now today ride s = (Ok (Some obj), s)
     /\ r_id obj = CleanRideID (default "" (l_id ride))
     /\ r_schedule obj
        = match v with
          | InheritedFunction (S _) => ScheduleUndefined
          | InheritedFunction O | InheritedObject => ScheduleNull
          end
     /\ r_schedule obj
        <> ScheduleWindow (allDay (park_timezone self) (clock s) (r_active obj)))
  /\ (let net :=
        demoNet (tokenReply 3600) (scheduleReply [demoEntry day0])
          (liveReply [closedRide "constructor;entityType=Attraction"]) in
      let run := GetWaitTimes net demoPark (startedAt (at_ day0 20 0)) in
      cachedSchedule demoPark (snd run) "constructor" = None
      /\ fst run
         = Ok [ {| r_id := "constructor"; r_name := "Space Mountain"; r_waitTime := 0;
                   r_active := false; r_status := "Closed"; r_fastPass := Some false;
                   r_schedule := ScheduleUndefined |} ]).
Proof.
  intros Hatt Hwt He Hnone Hinh. split.
  - unfold cachedSchedule in Hnone. rewrite He in Hnone. cbn in Hnone.
    unfold assembleRide. unfold isAttraction in Hatt. rewrite Hatt, Hwt, He.
    unfold getProperty. rewrite Hnone, Hinh.
    eexists. split; [reflexivity |]. split; [reflexivity |]. split; [reflexivity |].
    cbn [r_schedule]. destruct v as [[| n] |]; discriminate.
  - vm_compute. split; reflexivity.
Qed.

(** When the live-status object is present, [fastPass] is the
    availability flag, and [undefined] when the flag or its parent object
    is absent. *)
Lemma assembleRide_fastPass (self : Park) (now today : Z) (ride : LiveEntry)
    (w : WaitTime) (s s' : State) (obj : Ride) :
  l_waitTime ride = Some w ->
  assembleRide self now today ride s = (Ok (Some obj), s') ->
  r_fastPass obj = (f ← w_fastPass w; available f).
Proof.
  unfold assembleRide. intros ->.
  destruct (truthyString (l_id ride) && truthyString (l_name ride)
            && truthyString (l_type ride) && optStringEq (l_type ride) "Attraction");
    [| done].
  destruct (scheduleCache s !! resort_id self) as [e |];
    [destruct (getProperty (data e) (CleanRideID (default "" (l_id ride)))) |];
    intros H; injection H as <- <-; by destruct (w_fastPass w).
Qed.

(** C4.  A live entry that passes the attraction test but has no
    live-status object makes the assembly throw at
    [ride.waitTime.fastPass]: no record is produced for it, and the loop
    over the entries, whatever follows, is abandoned with it. *)
Theorem C4_absent_waitTime_throws (self : Park) (now today : Z) (ride : LiveEntry)
    (s : State) :
  truthyString (l_id ride) = true ->
  truthyString (l_name ride) = true ->
  l_type ride = Some "Attraction" ->
  l_waitTime ride = None ->
  assembleRide self now today ride s
  = (Throw "TypeError: Cannot read property 'fastPass' of undefined", s)
  /\ forall rest rides,
       assembleRides self now today (Some ride :: rest) rides s
       = (Throw "TypeError: Cannot read property 'fastPass' of undefined", s).
Proof.
  intros Hid Hname Htype Hw.
  assert (H : assembleRide self now today ride s
              = (Throw "TypeError: Cannot read property 'fastPass' of undefined", s)).
  { unfold assembleRide. rewrite Hid, Hname, Htype, Hw. reflexivity. }
  split; [exact H |].
  intros rest rides. cbn [assembleRides]. unfold bind. by rewrite H.
Qed.

(** ** A query changes the cached schedule *)

(** C1.  The schedule is cached in the evening of day 0; the next morning
    at 07:00, before opening, the cache is still fresh and holds the
    windows of day 0, day 1 and day 2.  A first [GetWaitTimes] attaches
    today's window (day 1) and, deleting [date] on the attached object,
    deletes it in the cache.  A second query at the same instant no longer
    finds today's window and attaches the window of day 0. *)
Theorem C1_query_changes_cache :
  let net :=
    demoNet (tokenReply 3600)
      (scheduleReply [demoEntry day0; demoEntry (day0 + 1); demoEntry (day0 + 2)])
      (liveReply [closedRide "80010190;entityType=Attraction"]) in
  let evening := startedAt (at_ day0 20 0) in
  let s1 := set_clock (at_ (day0 + 1) 7 0) (snd (CacheScheduleData net demoPark evening)) in
  let first := GetWaitTimes net demoPark s1 in
  let second := GetWaitTimes net demoPark (snd first) in
  cachedSchedule demoPark s1 "80010190"
  = Some [demoWindow day0; demoWindow (day0 + 1); demoWindow (day0 + 2)]
  /\ fst first
     = Ok [closedRecord "80010190" (Some (set_date None (demoWindow (day0 + 1))))]
  /\ cachedSchedule demoPark (snd first) "80010190"
     = Some [demoWindow day0; set_date None (demoWindow (day0 + 1));
             demoWindow (day0 + 2)]
  /\ fst second
     = Ok [closedRecord "80010190" (Some (set_date None (demoWindow day0)))].
Proof. vm_compute. repeat split. Qed.

(** The same live payload with the live-status object missing: the
    query ends in the exception, with no result for the caller. *)
Example GetWaitTimes_bareRide :
  fst (GetWaitTimes
         (demoNet (tokenReply 3600) (scheduleReply []) (liveReply [bareRide]))
         demoPark (startedAt (at_ day0 20 0)))
  = Throw "TypeError: Cannot read property 'fastPass' of undefined".
Proof. vm_compute. reflexivity. Qed.

(** ** The general statements at concrete inputs *)

(** C2 as stated, with the half-open interval, fails: at 09:00:00.000 the
    window opening at that instant contains [now] in
    [[openingTime, closingTime)], but [isBetween] excludes both ends, no
    window is found active, none carries today's date, and the first
    window, yesterday's, is attached. *)
Lemma C2_counterexample :
  let now := at_ day0 9 0 in
  let ws := [plainYesterday; strippedToday] in
  moment.formatDate (park_timezone demoPark) now = day0
  /\ (exists w, w ∈ ws /\ containsHalfOpen now w)
  /\ ~ (exists w, w ∈ ws /\ containsHalfOpen now w
                  /\ selectedWindow now day0 ws = Some (set_date None w)).
Proof.
  cbn zeta. split; [reflexivity |]. split.
  - exists strippedToday. split; [apply list_elem_of_further, list_elem_of_here |].
    unfold containsHalfOpen. vm_compute. split; [discriminate | reflexivity].
  - intros (w & Hin & Hc & Hsel).
    apply elem_of_cons in Hin as [-> | Hin].
    + unfold containsHalfOpen in Hc. vm_compute in Hc. destruct Hc as [_ Hc].
      discriminate.
    + apply list_elem_of_singleton in Hin as ->. vm_compute in Hsel. discriminate.
Qed.

Lemma C2_witness :
  let now := at_ day0 1 0 in
  let ws := [spillYesterday; nightToday; spillToday] in
  (exists i w,
     ws !! i = Some w
     /\ activeAt now w
     /\ (forall k w', ws !! k = Some w' -> activeAt now w' -> (k <= i)%nat)
     /\ selectedWindow now day0 ws = Some (set_date None w))
  /\ selectedWindow now day0 ws = Some (set_date None nightToday).
Proof.
  intros now ws. split; [| vm_compute; reflexivity].
  apply (proj1 (C2_window_selection now day0 ws)).
  exists spillYesterday. split; [apply list_elem_of_here |].
  unfold activeAt. vm_compute. split; reflexivity.
Defined.

Lemma C3_witness :
  exists w,
    w ∈ parseActivity demoPark
          (moment.startOfDay (park_timezone demoPark) (at_ day0 20 0))
          (moment.endOfDay (park_timezone demoPark)
             (moment.addDays (scheduleMaxDates demoPark) (at_ day0 20 0)))
          [demoEntry day0]
    /\ date w = Some (day0 + 1) /\ type w = "Closed"
    /\ openingTime w = at_ (day0 + 1) 0 0
    /\ closingTime w = at_ (day0 + 1) 0 0
    /\ closingTime w
       <> moment.format
            (moment.endOfDay (park_timezone demoPark) (at_ (day0 + 1) 0 0)).
Proof.
  apply (C3_backfilled_window demoPark (at_ day0 20 0) [demoEntry day0] (day0 + 1)).
  - vm_compute. split; discriminate.
  - vm_compute. intros H. inversion H as [| ? ? ? H']; inversion H'.
Defined.

Lemma C4_witness :
  assembleRide demoPark (at_ day0 20 0) day0 bareRide (startedAt (at_ day0 20 0))
  = (Throw "TypeError: Cannot read property 'fastPass' of undefined",
     startedAt (at_ day0 20 0))
  /\ forall rest rides,
       assembleRides demoPark (at_ day0 20 0) day0 (Some bareRide :: rest) rides
         (startedAt (at_ day0 20 0))
       = (Throw "TypeError: Cannot read property 'fastPass' of undefined",
          startedAt (at_ day0 20 0)).
Proof.
  apply (C4_absent_waitTime_throws demoPark (at_ day0 20 0) day0 bareRide);
    reflexivity.
Defined.

(** C5 as stated fails: standard entries listed out of date order stay in
    that order, and the back-filled date follows them. *)
Lemma C5_counterexample :
  let stored :=
    parseActivity demoPark
      (moment.startOfDay (park_timezone demoPark) (at_ day0 20 0))
      (moment.endOfDay (park_timezone demoPark)
         (moment.addDays (scheduleMaxDates demoPark) (at_ day0 20 0)))
      [demoEntry (day0 + 1); demoEntry day0] in
  map date stored = [Some (day0 + 1); Some day0; Some (day0 + 2)]
  /\ ~ ascendingDates stored.
Proof.
  cbn zeta. split; [vm_compute; reflexivity |].
  intros (ds & Hmap & Hs). vm_compute in Hmap.
  destruct ds as [| a [| b [| c [| ? ?]]]]; try discriminate.
  injection Hmap as <- <- <-.
  apply StronglySorted_cons in Hs as [Hall _].
  apply Forall_cons in Hall as [Hle _]. vm_compute in Hle. by apply Hle.
Qed.

Lemma C5_witness :
  map date
    (parseActivity demoPark
       (moment.startOfDay (park_timezone demoPark) (at_ day0 20 0))
       (moment.endOfDay (park_timezone demoPark)
          (moment.addDays (scheduleMaxDates demoPark) (at_ day0 20 0)))
       [demoEntry day0; demoEntry (day0 + 1)])
  = map Some (dateRange day0 2).
Proof.
  apply (proj2 (C5_insertion_order demoPark (at_ day0 20 0)
                  [demoEntry day0; demoEntry (day0 + 1)])).
  - vm_compute. repeat constructor.
  - intros d d' Hd Hd' Hn.
    assert (Hd2 : d' = day0 + 2).
    { vm_compute in Hd', Hn |- *.
      repeat (apply elem_of_cons in Hd' as [-> | Hd']);
        [exfalso; apply Hn; repeat constructor ..| |].
      - reflexivity.
      - by apply elem_of_nil in Hd'. }
    subst d'. vm_compute in Hd.
    repeat (apply elem_of_cons in Hd as [-> | Hd]); [reflexivity.. |].
    by apply elem_of_nil in Hd.
Defined.

Lemma C6_witness :
  let t := ParseScheduleEntry demoPark overnightEntry in
  t_openingTime t = at_ day0 22 0
  /\ t_closingTime t = at_ day0 2 0 + moment.DAY
  /\ moment.formatDate (park_timezone demoPark) (t_closingTime t) = day0 + 1
  /\ t_openingTime t < t_closingTime t.
Proof.
  apply (C6_overnight_normalization demoPark overnightEntry).
  - vm_compute. repeat split; discriminate.
  - vm_compute. repeat split; discriminate.
  - vm_compute. reflexivity.
Defined.

Lemma C7_witness :
  (exists s',
     GetAccessToken (demoNet (tokenReply 3600) (scheduleReply []) (liveReply []))
       demoPark expiredTokenState = (Ok "t0k3n", s')
     /\ _accessToken s'
        = Some {| token := "t0k3n";
                  tok_expires := at_ day0 20 0 + 3570 * 1000;
                  correlation := None |}
     /\ Z.abs (3600 - 30) < 2 ^ 53
     /\ Z.abs (Z.max (3600 - 30) 5 * 1000) < 2 ^ 53
     /\ Z.abs (at_ day0 20 0 + 0 + Z.max (3600 - 30) 5 * 1000) < 2 ^ 53)
  /\ (exists msg s',
        GetAccessToken (demoNet (tokenReply 3) (scheduleReply []) (liveReply []))
          demoPark expiredTokenState = (Err msg, s')
        /\ _accessToken s' = None).
Proof.
  assert (Hexp : tokenExpired expiredTokenState) by (vm_compute; discriminate).
  split.
  - apply (proj2 (C7_token_expiry
                    (demoNet (tokenReply 3600) (scheduleReply []) (liveReply []))
                    demoPark expiredTokenState ok200
                    {| access_token := Some "t0k3n"; expires_in := Some 3600;
                       activities := None; entries := None |}
                    0%N "t0k3n" 3600
                    Hexp eq_refl eq_refl eq_refl ltac:(discriminate) eq_refl)).
    + vm_compute. discriminate.
    + vm_compute. discriminate.
    + vm_compute. split; discriminate.
  - apply (proj1 (C7_token_expiry
                    (demoNet (tokenReply 3) (scheduleReply []) (liveReply []))
                    demoPark expiredTokenState ok200
                    {| access_token := Some "t0k3n"; expires_in := Some 3;
                       activities := None; entries := None |}
                    0%N "t0k3n" 3
                    Hexp eq_refl eq_refl eq_refl ltac:(discriminate) eq_refl)).
    vm_compute. reflexivity.
Defined.

Lemma C8_witness :
  let net := demoNet (tokenReply 3600) (JsonObj emptyObject) (liveReply []) in
  let s := eveningState in
  let startDate := moment.startOfDay (park_timezone demoPark) (clock s) in
  let endDate :=
    moment.endOfDay (park_timezone demoPark)
      (moment.addDays (scheduleMaxDates demoPark) (clock s)) in
  let s1 :=
    snd (FetchURL net demoPark (ConstructScheduleURL demoPark)
           (withData (ConstructScheduleData demoPark startDate endDate)) s) in
  (ParseScheduleData demoPark (JsonObj emptyObject) startDate endDate s1
   = (Err "No schedule data returned", s1)
   /\ CacheScheduleData net demoPark s = (Err "No schedule data returned", s1)
   /\ scheduleCache s1 = scheduleCache s
   /\ (forall s2 : State,
         scheduleCache s2 = scheduleCache s1 -> clock s <= clock s2 ->
         exists req l,
           requests (snd (CacheScheduleData net demoPark s2)) = requests s2 ++ req :: l))
  /\ scheduleCache s1 !! resort_id demoPark
     = Some {| expires := at_ day0 8 0;
               data := {[ "80010190" := [demoWindow (day0 - 1); demoWindow day0] ]} |}
  /\ length (requests s1) = 2%nat.
Proof.
  intros net s startDate endDate s1.
  split; [| split; vm_compute; reflexivity].
  apply (C8_missing_activities net demoPark s s1 emptyObject).
  - vm_compute. reflexivity.
  - vm_compute. reflexivity.
  - reflexivity.
Defined.

Lemma C9_witness :
  let net :=
    demoNet (tokenReply 3600) (scheduleReply [demoEntry day0]) (liveReply []) in
  let s := eveningState in
  let s' := snd (CacheScheduleData net demoPark s) in
  let startDate := moment.startOfDay (park_timezone demoPark) (clock s) in
  let endDate :=
    moment.endOfDay (park_timezone demoPark)
      (moment.addDays (scheduleMaxDates demoPark) (clock s)) in
  CacheScheduleData net demoPark s = (Ok tt, s')
  /\ requests s' <> requests s
  /\ scheduleCache s' !! resort_id demoPark
     = Some {| expires := at_ (day0 + 1) 8 0;
               data :=
                 {[ "80010190" :=
                      [demoWindow day0;
                       synthesized (park_timezone demoPark) (day0 + 1);
                       synthesized (park_timezone demoPark) (day0 + 2)] ]} |}
  /\ (exists s1 o acts,
        FetchURL net demoPark (ConstructScheduleURL demoPark)
          (withData (ConstructScheduleData demoPark startDate endDate)) s
        = (Ok (JsonObj o), s1)
        /\ activities o = Some acts
        /\ clock s' = clock s1
        /\ scheduleCache s'
           = <[resort_id demoPark :=
                 {| expires := clock s1 + 12 * moment.HOUR;
                    data := parseActivities demoPark startDate endDate acts |}]>
               (scheduleCache s)
        /\ (forall id,
              cachedSchedule demoPark s' id
              = parseActivity demoPark startDate endDate <$> lastActivity id acts)
        /\ (forall t, t <= clock s' + 12 * moment.HOUR ->
              CacheScheduleData net demoPark (set_clock t s')
              = (Ok tt, set_clock t s'))).
Proof.
  intros net s s' startDate endDate.
  assert (Hrun : CacheScheduleData net demoPark s = (Ok tt, s'))
    by (vm_compute; reflexivity).
  assert (Hst : stale demoPark s) by (vm_compute; reflexivity).
  split; [exact Hrun |]. split; [vm_compute; discriminate |].
  split; [vm_compute; reflexivity |].
  exact (proj2 (C9_schedule_freshness net demoPark s) s' Hst Hrun).
Defined.

Lemma C10_witness :
  let ride := closedRide "constructor;entityType=Attraction" in
  let s := morningState in
  exists obj,
    assembleRide demoPark (clock s) (day0 + 1) ride s = (Ok (Some obj), s)
    /\ r_id obj = "constructor"
    /\ r_schedule obj = ScheduleUndefined
    /\ r_schedule obj
       <> ScheduleWindow (allDay (park_timezone demoPark) (clock s) (r_active obj)).
Proof.
  intros ride s.
  apply (proj1 (C10_inherited_id_skips_fallback demoPark (clock s) (day0 + 1) ride
                  {| postedWaitMinutes := None;
                     w_status := Some "Closed";
                     w_fastPass := Some {| available := Some false |} |}
                  s
                  {| expires := at_ (day0 + 1) 8 0;
                     data := {[ "80010190" := [demoWindow day0; demoWindow (day0 + 1)] ]} |}
                  (InheritedFunction 1)
                  ltac:(reflexivity) ltac:(reflexivity) ltac:(vm_compute; reflexivity)
                  ltac:(vm_compute; reflexivity) ltac:(reflexivity))).
Defined.

(** * Further properties of the code *)

(** ** CleanRideID *)

Lemma untilSemicolon_get (s : string) (i : nat) :
  String.get i (untilSemicolon s) <> Some ";"%char.
Proof.
  revert i. induction s as [| c r IH]; intros i; cbn; [by destruct i |].
  destruct (Ascii.eqb_spec c ";"%char) as [-> | Hne]; [by destruct i |].
  destruct i as [| i]; cbn; [congruence | apply IH].
Qed.

Lemma untilSemicolon_id (s : string) :
  (forall i, String.get i s <> Some ";"%char) -> untilSemicolon s = s.
Proof.
  induction s as [| c r IH]; intros H; cbn; [reflexivity |].
  destruct (Ascii.eqb_spec c ";"%char) as [-> | Hne].
  - exfalso. by apply (H 0%nat).
  - f_equal. apply IH. intros i. apply (H (S i)).
Qed.

Lemma untilSemicolon_app (a rest : string) :
  (forall i, String.get i a <> Some ";"%char) ->
  untilSemicolon (a ++ String ";" rest) = a.
Proof.
  induction a as [| c r IH]; intros H; [reflexivity |].
  change (String c r ++ String ";" rest)%string
    with (String c (r ++ String ";" rest))%string.
  cbn [untilSemicolon].
  destruct (Ascii.eqb_spec c ";"%char) as [-> | Hne].
  - exfalso. by apply (H 0%nat).
  - f_equal. apply IH. intros i. apply (H (S i)).
Qed.

(** X1.  An id made of a non-empty part without semicolon, a semicolon
    and anything after it is cleaned to the part before the semicolon. *)
Theorem CleanRideID_strips_suffix (a rest : string) :
  a <> "" ->
  (forall i, String.get i a <> Some ";"%char) ->
  CleanRideID (a ++ String ";" rest) = a.
Proof.
  intros Hne Hno. unfold CleanRideID. rewrite untilSemicolon_app by done.
  by destruct a.
Qed.

(** X2.  Cleaning is idempotent, and unless the id starts with a
    semicolon (in which case, as for the empty id, the pattern does not
    match and the id is returned as it is) the cleaned id has no
    semicolon. *)
Theorem CleanRideID_idempotent (ride_id : string) :
  CleanRideID (CleanRideID ride_id) = CleanRideID ride_id
  /\ (String.get 0 ride_id <> Some ";"%char ->
      forall i, String.get i (CleanRideID ride_id) <> Some ";"%char)
  /\ (String.get 0 ride_id = Some ";"%char -> CleanRideID ride_id = ride_id).
Proof.
  assert (Hcases : (untilSemicolon ride_id = "" /\ CleanRideID ride_id = ride_id)
                   \/ (untilSemicolon ride_id <> ""
                       /\ CleanRideID ride_id = untilSemicolon ride_id)).
  { unfold CleanRideID. destruct (untilSemicolon ride_id); [by left | by right]. }
  assert (Hfirst : untilSemicolon ride_id = "" ->
                   ride_id = "" \/ String.get 0 ride_id = Some ";"%char).
  { destruct ride_id as [| c0 r0]; [by left |]. cbn.
    destruct (Ascii.eqb_spec c0 ";"%char) as [-> | ?]; [by right | discriminate]. }
  destruct Hcases as [[Hu Hc] | [Hu Hc]]; rewrite Hc.
  - split; [exact Hc |]. split; [| done].
    intros H0 i. destruct (Hfirst Hu) as [-> | H]; [| done].
    destruct i; cbn; discriminate.
  - split; [| split].
    + unfold CleanRideID. rewrite untilSemicolon_id by apply untilSemicolon_get.
      by destruct (untilSemicolon ride_id).
    + intros _ i. apply untilSemicolon_get.
    + intros H0. destruct ride_id as [| c0 r0]; [discriminate |].
      cbn in Hu, H0. injection H0 as ->. done.
Qed.

(** ** ParseScheduleEntry, in general *)

(** X3.  For well-formed wall-clock strings the parsed window opens on the
    entry's date at the start time, never closes before it opens, and is
    shorter than a day: equal start and end times give an empty window,
    not a full day; an end time not before the start time is read on the
    entry's own date. *)
Theorem ParseScheduleEntry_length (self : Park) (entry : RawEntry) :
  validHHmm (e_startTime entry) ->
  validHHmm (e_endTime entry) ->
  let t := ParseScheduleEntry self entry in
  t_openingTime t = tzDateTime (park_timezone self) (e_date entry) (e_startTime entry)
  /\ t_openingTime t <= t_closingTime t < t_openingTime t + moment.DAY
  /\ (msOfDay (e_startTime entry) <= msOfDay (e_endTime entry) ->
      t_closingTime t
      = tzDateTime (park_timezone self) (e_date entry) (e_endTime entry)).
Proof.
  intros [Hsh Hsm] [Heh Hem]. unfold ParseScheduleEntry. cbn zeta.
  cbn [t_openingTime t_closingTime]. unfold moment.isBefore.
  destruct (Z.ltb_spec
              (tzDateTime (park_timezone self) (e_date entry) (e_endTime entry))
              (tzDateTime (park_timezone self) (e_date entry) (e_startTime entry)))
    as [Hlt | Hge].
  - rewrite addDays_tzDateTime, !format_tzDateTime.
    unfold tzDateTime, moment.tzDate, msOfDay, moment.DAY, moment.HOUR,
      moment.MINUTE in *.
    repeat split; lia.
  - rewrite !format_tzDateTime.
    unfold tzDateTime, moment.tzDate, msOfDay, moment.DAY, moment.HOUR,
      moment.MINUTE in *.
    repeat split; lia.
Qed.

(** ** The access token, in general *)

Lemma FetchAccessToken_Ok (net : Transport) (self : Park) (s s' : State)
    (tok : string) (exp : Z) :
  FetchAccessToken net self s = (Ok (tok, exp), s') ->
  tok <> ""
  /\ exists e, 5 <= e /\ exp = clock s' + Z.max (e - 30) 5 * 1000.
Proof.
  unfold FetchAccessToken, bind. intros H.
  destruct (MakeNetworkRequest net (tokenRequest self) s)
    as [[reply | ? | ?] s1] eqn:Hm; [| done..].
  destruct reply as [? ? | resp [[| o] |]]; try done.
  - destruct (negb (statusCode resp =? 200)); done.
  - destruct (negb (statusCode resp =? 200)); [done |].
    destruct (truthyString (access_token o)) eqn:Htok; [| done].
    destruct (truthyNumber (expires_in o)); [| done]. cbn [andb] in H.
    destruct (Z.ltb_spec (default 0 (expires_in o)) 5); [done |].
    injection H as <- <- <-. split.
    + destruct (access_token o) as [[| ? ?] |]; done.
    + eauto.
  - destruct (negb (statusCode resp =? 200)); done.
Qed.

(** X4.  A cached token is reused, with no request and no change of
    state, exactly while the clock is strictly before its expiry; at the
    expiry instant itself, or with no token cached, the token request is
    issued, once. *)
Theorem GetAccessToken_reuse (net : Transport) (self : Park) (s : State) :
  (forall t, _accessToken s = Some t -> clock s < tok_expires t ->
             GetAccessToken net self s = (Ok (token t), s))
  /\ (tokenExpired s ->
      requests (snd (GetAccessToken net self s)) = requests s ++ [tokenRequest self]).
Proof.
  split.
  - intros t Ht Hlt. unfold GetAccessToken. rewrite Ht.
    destruct (Z.leb_spec (tok_expires t) (clock s)); [lia | done].
  - intros Hexp.
    destruct (GetAccessToken net self s) as [r s'] eqn:Hg. cbn [snd].
    pose proof (GetAccessToken_after _ _ _ _ _ Hg) as (_ & _ & Ha).
    by destruct (Ha Hexp) as (_ & Hr & _).
Qed.

Lemma GetAccessToken_result (net : Transport) (self : Park) (s s' : State)
    (r : Outcome string) :
  GetAccessToken net self s = (r, s') ->
  match r with
  | Ok tok =>
      exists t, _accessToken s' = Some t /\ token t = tok
                /\ clock s' < tok_expires t
  | Err _ => _accessToken s' = None
  | Throw _ => False
  end.
Proof.
  intros H.
  assert (Hfetch :
    bind (FetchAccessToken net self)
      (fun r s' =>
         (Ok (fst r),
          set_accessToken
            (Some {| token := fst r; tok_expires := snd r; correlation := None |})
            s')) (set_accessToken None s) = (r, s') ->
    match r with
    | Ok tok =>
        exists t, _accessToken s' = Some t /\ token t = tok
                  /\ clock s' < tok_expires t
    | Err _ => _accessToken s' = None
    | Throw _ => False
    end).
  { intros Hb.
    apply bind_inv in Hb as [([tok exp] & s1 & Hf & Hk) | [(e & Hf & ->) | (e & Hf & ->)]].
    - apply FetchAccessToken_Ok in Hf as (_ & e & He & ->).
      injection Hk as <- <-. eexists. split; [reflexivity |]. cbn. split; [done | lia].
    - by apply FetchAccessToken_after in Hf as [_ Htok].
    - unfold FetchAccessToken, bind in Hf.
      destruct (MakeNetworkRequest net (tokenRequest self) (set_accessToken None s))
        as [[reply | ? | ?] s2] eqn:Hm.
      + unfold Error in Hf.
        repeat match type of Hf with
               | context [match ?x with _ => _ end] => destruct x; try done
               | context [if ?x then _ else _] => destruct x; try done
               end.
      + destruct (MakeNetworkRequest_after net (tokenRequest self) (set_accessToken None s))
          as (? & ? & Hm' & _). congruence.
      + destruct (MakeNetworkRequest_after net (tokenRequest self) (set_accessToken None s))
          as (? & ? & Hm' & _). congruence. }
  destruct (_accessToken s) as [t |] eqn:Ht.
  - destruct (Z.leb_spec (tok_expires t) (clock s)) as [Hle | Hgt].
    + apply Hfetch. rewrite <- GetAccessToken_fetch; [done |].
      unfold tokenExpired. by rewrite Ht.
    + unfold GetAccessToken in H. rewrite Ht in H.
      destruct (Z.leb_spec (tok_expires t) (clock s)); [lia |].
      injection H as <- <-. eauto.
  - apply Hfetch. rewrite <- GetAccessToken_fetch; [done |].
    unfold tokenExpired. by rewrite Ht.
Qed.

(** X5.  Whatever the upstream answers, [GetAccessToken] does not throw;
    when it succeeds, the token it returns is the one now cached, and that
    token is unexpired at the instant of return; when it fails, no token is
    left cached. *)
Theorem GetAccessToken_outcome (net : Transport) (self : Park) (s s' : State)
    (r : Outcome string) :
  GetAccessToken net self s = (r, s') ->
  (forall tok, r = Ok tok ->
     exists t, _accessToken s' = Some t /\ token t = tok /\ clock s' < tok_expires t)
  /\ (forall e, r = Err e -> _accessToken s' = None)
  /\ (forall e, r <> Throw e).
Proof.
  intros H. apply GetAccessToken_result in H.
  split; [| split].
  - by intros tok ->.
  - by intros e ->.
  - intros e ->. exact H.
Qed.

(** ** FetchURL *)

Lemma defaultHeaders_standard (self : Park) (tok : string) (now : Z) :
  defaultHeaders self tok now = standardHeaders self tok now.
Proof. vm_compute. reflexivity. Qed.

Lemma requestBody_withData (self : Park) (u : string) (d : RequestData)
    (tok : string) (now : Z) :
  requestBody self u (withData d) tok now = apiRequest self u d tok now.
Proof.
  unfold requestBody, apiRequest, withData. cbn.
  by rewrite defaultHeaders_standard.
Qed.

(** The override loop: every name of [options.headers] ends up holding the
    object, every other header is as it was. *)
Lemma overrideHeaders_lookup (o : list (string * string))
    (h : gmap string HeaderValue) (name : string) :
  overrideHeaders o h !! name
  = if decide (name ∈ map fst o) then Some (HeaderObject o) else h !! name.
Proof.
  unfold overrideHeaders. generalize (map fst o) as l. intros l. revert h.
  induction l as [| k l IH]; intros h; cbn [fold_left].
  - destruct (decide (name ∈ [])) as [Hin |]; [by apply elem_of_nil in Hin | done].
  - rewrite IH.
    destruct (decide (name ∈ l)) as [Hin | Hnin].
    + rewrite decide_True; [done | by right].
    + destruct (decide (k = name)) as [-> | Hne].
      * rewrite decide_True by left. apply lookup_insert_eq.
      * rewrite decide_False.
        -- by apply lookup_insert_ne.
        -- intros [? | ?]%elem_of_cons; congruence.
Qed.

(** What [FetchURL] does once the token is at hand. *)
Lemma FetchURL_with_token (net : Transport) (self : Park) (u : string)
    (options : Options) (s s1 : State) (tok : string) (t : AccessToken)
    (reply : Reply) (elapsed : N) :
  GetAccessToken net self s = (Ok tok, s1) ->
  _accessToken s1 = Some t ->
  net (requestBody self u options (token t) (clock s1)) (clock s1) = (reply, elapsed) ->
  FetchURL net self u options s
  = (match reply with
     | NetError _ _ => Err "Error making API request"
     | NetOk _ None => Err "Invalid JSON data returned by API"
     | NetOk _ (Some JSONData) => Ok JSONData
     end,
     {| scheduleCache := scheduleCache s1;
        _accessToken :=
          Some {| token := token t; tok_expires := tok_expires t;
                  correlation :=
                    match truthyHeader (replyResponse reply) with
                    | Some c => Some c
                    | None => correlation t
                    end |};
        clock := clock s1 + Z.of_N elapsed;
        requests := requests s1 ++ [requestBody self u options (token t) (clock s1)] |}).
Proof.
  intros Hg Ht Hnet. unfold FetchURL, bindError. rewrite Hg, Ht.
  unfold bind, MakeNetworkRequest.
  rewrite Hnet. unfold replyResponse, set_correlation, set_accessToken, Error.
  destruct reply as [err resp | resp [j |]];
    destruct (truthyHeader _); cbn; rewrite ?Ht; try reflexivity;
    by destruct t.
Qed.

(** [FetchURL] does not throw. *)
Lemma FetchURL_no_throw (net : Transport) (self : Park) (u : string)
    (options : Options) (s s' : State) (e : string) :
  FetchURL net self u options s <> (Throw e, s').
Proof.
  intros H.
  destruct (GetAccessToken net self s) as [rg s1] eqn:Hg.
  pose proof (GetAccessToken_result _ _ _ _ _ Hg) as Hout.
  destruct rg as [tok | e' | e']; [| | done].
  - destruct Hout as (t & Ht & _ & _).
    destruct (net (requestBody self u options (token t) (clock s1)) (clock s1))
      as [reply elapsed] eqn:Hnet.
    rewrite (FetchURL_with_token _ _ _ _ _ _ _ _ _ _ Hg Ht Hnet) in H.
    destruct reply as [? ? | ? [? |]]; discriminate.
  - unfold FetchURL, bindError in H. rewrite Hg in H. discriminate.
Qed.

(** X6.  [FetchURL] sends the request to the API last and at most once;
    before it there is at most the one token request.  The request goes to
    the given URL with the method of the options, GET when they give none;
    the data of the options travel as query string with GET and as [data]
    otherwise.  Its headers are the standard ones, with the token that is
    cached on return as bearer credential, the application id and the
    instant of sending as correlation id, except those named in
    [options.headers]: each of these holds the whole [options.headers]
    object, not the value given for it.  With the options [{data: d}] of
    this file the request is [apiRequest].  When no token can be obtained,
    nothing is sent to the API and the caller gets the token error. *)
Theorem FetchURL_bearer (net : Transport) (self : Park) (u : string)
    (options : Options) (s s' : State) (r : Outcome Json) :
  FetchURL net self u options s = (r, s') ->
  match _accessToken s' with
  | Some t =>
      exists l req now,
        requests s' = requests s ++ l ++ [req]
        /\ (l = [] \/ l = [tokenRequest self])
        /\ clock s <= now <= clock s'
        /\ url req = u
        /\ method req
           = (if truthyString (o_method options)
              then default "" (o_method options) else "GET")
        /\ (forall name,
              headers req !! name
              = match o_headers options with
                | Some o =>
                    if decide (name ∈ map fst o) then Some (HeaderObject o)
                    else standardHeaders self (token t) now !! name
                | None => standardHeaders self (token t) now !! name
                end)
        /\ (if String.eqb (method req) "GET"
            then req_qs req = o_data options /\ req_data req = None
            else req_qs req = None /\ req_data req = o_data options)
        /\ req_body req = None
        /\ (forall d, options = withData d ->
              req = apiRequest self u d (token t) now)
  | None =>
      requests s' = requests s ++ [tokenRequest self]
      /\ r = Err "Error getting access token for API URL"
  end.
Proof.
  intros H.
  destruct (GetAccessToken net self s) as [rg s1] eqn:Hg.
  pose proof (GetAccessToken_result _ _ _ _ _ Hg) as Hout.
  pose proof (GetAccessToken_after _ _ _ _ _ Hg) as ((l & (_ & Hl & Hclk) & Hcase) & _ & _).
  destruct rg as [tok | e | e]; [| | done].
  - destruct Hout as (t & Ht & _ & _).
    destruct (net (requestBody self u options (token t) (clock s1)) (clock s1))
      as [reply elapsed] eqn:Hnet.
    rewrite (FetchURL_with_token _ _ _ _ _ _ _ _ _ _ Hg Ht Hnet) in H.
    injection H as _ <-. cbn [_accessToken requests clock token].
    exists l, (requestBody self u options (token t) (clock s1)), (clock s1).
    rewrite Hl, <- app_assoc. split; [done |].
    split; [destruct Hcase as [[-> _] | ->]; auto |].
    split; [lia |]. split; [reflexivity |]. split; [reflexivity |].
    split; [| split; [| split; [reflexivity |]]].
    + intros name. unfold requestBody. cbn [headers].
      destruct (o_headers options) as [o |].
      * by rewrite overrideHeaders_lookup, defaultHeaders_standard.
      * by rewrite defaultHeaders_standard.
    + unfold requestBody. cbn [method req_qs req_data].
      by destruct (String.eqb _ "GET").
    + intros d ->. apply requestBody_withData.
  - unfold FetchURL, bindError in H. rewrite Hg in H. injection H as <- <-.
    rewrite Hout. destruct Hcase as [[_ [v Hv]] | ->]; [done |]. by rewrite Hl.
Qed.

(** X7.  A non-empty [x-correlation-id] header of the API reply is
    recorded on the cached credential also when the reply is an error, and
    recording it changes neither the token nor its expiry; without such a
    header the credential is left as it is. *)
Theorem FetchURL_correlation (net : Transport) (self : Park) (u : string)
    (options : Options) (s s1 : State) (tok : string) (t : AccessToken)
    (reply : Reply) (elapsed : N) :
  GetAccessToken net self s = (Ok tok, s1) ->
  _accessToken s1 = Some t ->
  net (requestBody self u options (token t) (clock s1)) (clock s1) = (reply, elapsed) ->
  let s' := snd (FetchURL net self u options s) in
  (forall resp c,
      replyResponse reply = Some resp -> correlationHeader resp = Some c -> c <> "" ->
      _accessToken s'
      = Some {| token := token t; tok_expires := tok_expires t; correlation := Some c |})
  /\ ((replyResponse reply = None
       \/ exists resp, replyResponse reply = Some resp
                       /\ truthyString (correlationHeader resp) = false) ->
      _accessToken s' = Some t).
Proof.
  intros Hg Ht Hnet s'. subst s'.
  rewrite (FetchURL_with_token _ _ _ _ _ _ _ _ _ _ Hg Ht Hnet). cbn [snd _accessToken].
  split.
  - intros resp c -> Hc Hne. unfold truthyHeader. rewrite Hc.
    destruct c; [done | reflexivity].
  - intros [-> | (resp & -> & Hf)]; unfold truthyHeader; rewrite ?Hf; by destruct t.
Qed.

(** ** What a query may change in the schedule cache *)

Lemma dateDeleted_refl (w : DayWindow) : dateDeleted w w.
Proof. by left. Qed.

Lemma dateDeleted_trans (w1 w2 w3 : DayWindow) :
  dateDeleted w1 w2 -> dateDeleted w2 w3 -> dateDeleted w1 w3.
Proof. intros [-> | ->] [-> | ->]; [by left | by right | by right | by right]. Qed.

Lemma Forall2_dateDeleted_refl (ws : list DayWindow) : Forall2 dateDeleted ws ws.
Proof. induction ws; constructor; [apply dateDeleted_refl | done]. Qed.

Lemma Forall2_dateDeleted_trans (l1 l2 l3 : list DayWindow) :
  Forall2 dateDeleted l1 l2 -> Forall2 dateDeleted l2 l3 -> Forall2 dateDeleted l1 l3.
Proof.
  intros H. revert l3. induction H as [| w1 w2 l1 l2 Hw _ IH]; intros l3 H3.
  - inversion H3. constructor.
  - inversion H3 as [| ? w3 ? l3' Hw' H3']; subst. constructor.
    + by eapply dateDeleted_trans.
    + by apply IH.
Qed.

Lemma Forall2_dateDeleted_alter (ws : list DayWindow) (j : nat) :
  Forall2 dateDeleted ws (alter (set_date None) j ws).
Proof.
  revert j. induction ws as [| w ws IH]; intros j; [constructor |].
  destruct j as [| j]; cbn.
  - constructor; [by right | apply Forall2_dateDeleted_refl].
  - constructor; [by left | apply IH].
Qed.

Lemma deleteSelectedDate_dateDeleted (now today : Z) (ws : list DayWindow) :
  Forall2 dateDeleted ws (deleteSelectedDate now today ws).
Proof.
  unfold deleteSelectedDate. destruct (selectSchedule now today ws).
  - apply Forall2_dateDeleted_alter.
  - apply Forall2_dateDeleted_refl.
Qed.

Lemma onlyDatesDeleted_refl (self : Park) (s s' : State) :
  scheduleCache s' = scheduleCache s -> onlyDatesDeleted self s s'.
Proof.
  intros Hc. unfold onlyDatesDeleted. rewrite Hc.
  destruct (scheduleCache s !! resort_id self) as [e |]; constructor.
  split; [done |]. intros id.
  destruct (data e !! id); constructor. apply Forall2_dateDeleted_refl.
Qed.

Lemma onlyDatesDeleted_trans (self : Park) (s1 s2 s3 : State) :
  onlyDatesDeleted self s1 s2 -> onlyDatesDeleted self s2 s3 ->
  onlyDatesDeleted self s1 s3.
Proof.
  unfold onlyDatesDeleted. intros H12 H23.
  destruct H12 as [e1 e2 [He12 Hd12] |]; inversion H23 as [? e3 [He23 Hd23] |]; subst;
    constructor.
  split; [congruence |]. intros id.
  specialize (Hd12 id). specialize (Hd23 id).
  destruct Hd12 as [l1 l2 H12' |]; inversion Hd23 as [? l3 H23' |]; subst; constructor.
  by eapply Forall2_dateDeleted_trans.
Qed.

Lemma otherResortsKept_refl (self : Park) (s s' : State) :
  scheduleCache s' = scheduleCache s -> otherResortsKept self s s'.
Proof. intros Hc r _. by rewrite Hc. Qed.

Lemma otherResortsKept_trans (self : Park) (s1 s2 s3 : State) :
  otherResortsKept self s1 s2 -> otherResortsKept self s2 s3 ->
  otherResortsKept self s1 s3.
Proof. intros H12 H23 r Hr. rewrite H23, H12; done. Qed.

(** The state relations hold when the schedule cache has not changed. *)
Ltac frame_same :=
  split; [by apply otherResortsKept_refl
         | split; [by apply onlyDatesDeleted_refl | done]].

Lemma assembleRide_frame (self : Park) (now today : Z) (ride : LiveEntry)
    (s s' : State) (r : Outcome (option Ride)) :
  assembleRide self now today ride s = (r, s') ->
  otherResortsKept self s s' /\ onlyDatesDeleted self s s'
  /\ _accessToken s' = _accessToken s /\ clock s' = clock s
  /\ requests s' = requests s.
Proof.
  unfold assembleRide.
  destruct (truthyString (l_id ride) && truthyString (l_name ride)
            && truthyString (l_type ride) && optStringEq (l_type ride) "Attraction").
  2:{ intros H. injection H as <- <-.
      frame_same. }
  destruct (l_waitTime ride) as [w |].
  2:{ intros H. injection H as <- <-.
      frame_same. }
  destruct (scheduleCache s !! resort_id self) as [e |] eqn:He.
  2:{ intros H. injection H as <- <-.
      frame_same. }
  unfold getProperty.
  destruct (data e !! CleanRideID (default "" (l_id ride))) as [cached |] eqn:Hd.
  2:{ destruct (inherited _); intros H; injection H as <- <-;
      frame_same. }
  intros H. injection H as <- <-. split; [| split; [| done]].
  - intros r Hr. cbn. by rewrite lookup_insert_ne.
  - unfold onlyDatesDeleted. cbn. rewrite lookup_insert_eq, He. constructor.
    split; [done |]. intros id. cbn.
    destruct (decide (CleanRideID (default "" (l_id ride)) = id)) as [<- | Hne].
    + rewrite lookup_insert_eq, Hd. constructor. apply deleteSelectedDate_dateDeleted.
    + rewrite lookup_insert_ne by done.
      destruct (data e !! id); constructor. apply Forall2_dateDeleted_refl.
Qed.

Lemma assembleRides_frame (self : Park) (now today : Z) (es : list (option LiveEntry)) :
  forall (rides : list Ride) (s s' : State) (r : Outcome (list Ride)),
    assembleRides self now today es rides s = (r, s') ->
    otherResortsKept self s s' /\ onlyDatesDeleted self s s'
    /\ _accessToken s' = _accessToken s /\ clock s' = clock s
    /\ requests s' = requests s.
Proof.
  induction es as [| [ride |] es IH]; intros rides s s' r H; cbn [assembleRides] in H.
  - injection H as <- <-.
    frame_same.
  - apply bind_inv in H as [(a & s1 & Hr & Hk) | [(e & Hr & _) | (e & Hr & _)]].
    + apply assembleRide_frame in Hr as (Ho1 & Hd1 & Ht1 & Hc1 & Hq1).
      apply IH in Hk as (Ho2 & Hd2 & Ht2 & Hc2 & Hq2).
      split; [by eapply otherResortsKept_trans |].
      split; [by eapply onlyDatesDeleted_trans |].
      repeat split; congruence.
    + by apply assembleRide_frame in Hr.
    + by apply assembleRide_frame in Hr.
  - injection H as <- <-.
    frame_same.
Qed.

Lemma FetchURL_cache (net : Transport) (self : Park) (u : string) (options : Options)
    (s s' : State) (r : Outcome Json) :
  FetchURL net self u options s = (r, s') -> scheduleCache s' = scheduleCache s.
Proof. intros H. by apply FetchURL_after in H as (req & l & Hc & _). Qed.

(** A refresh ends with the cache as it was, or with the entry of the
    resort replaced by one that expires twelve hours later. *)
Lemma refreshSchedule_cache (net : Transport) (self : Park) (s s' : State)
    (r : Outcome unit) :
  refreshSchedule net self s = (r, s') ->
  (scheduleCache s' = scheduleCache s /\ exists e, r = Err e)
  \/ (r = Ok tt
      /\ exists sched,
           scheduleCache s'
           = <[resort_id self := {| expires := clock s' + 12 * moment.HOUR;
                                    data := sched |}]> (scheduleCache s)).
Proof.
  unfold refreshSchedule. intros H.
  apply bindError_inv in H as [(d & s1 & Hf & Hk) | [(e & Hf & ->) | (e & Hf & ->)]].
  - pose proof (FetchURL_cache _ _ _ _ _ _ _ Hf) as Hc.
    destruct d as [| o].
    + injection Hk as <- <-. left. eauto.
    + unfold bind, ParseScheduleData in Hk.
      destruct (activities o) as [acts |].
      * injection Hk as <- <-. right. split; [done |]. eexists. cbn. by rewrite Hc.
      * injection Hk as <- <-. left. eauto.
  - left. split; [by eapply FetchURL_cache | eauto].
  - exfalso. by eapply FetchURL_no_throw.
Qed.

Lemma CacheScheduleData_cache (net : Transport) (self : Park) (s s' : State)
    (r : Outcome unit) :
  CacheScheduleData net self s = (r, s') ->
  (r = Ok tt /\ s' = s
   /\ exists e, scheduleCache s !! resort_id self = Some e /\ clock s <= expires e)
  \/ (scheduleCache s' = scheduleCache s /\ exists e, r = Err e)
  \/ (r = Ok tt
      /\ exists sched,
           scheduleCache s'
           = <[resort_id self := {| expires := clock s' + 12 * moment.HOUR;
                                    data := sched |}]> (scheduleCache s)).
Proof.
  unfold CacheScheduleData. intros H.
  destruct (scheduleCache s !! resort_id self) as [e |] eqn:He.
  - destruct (Z.leb_spec (clock s) (expires e)).
    + injection H as <- <-. left. eauto.
    + right. eapply refreshSchedule_cache. exact H.
  - right. eapply refreshSchedule_cache. exact H.
Qed.

(** X8.  When [CacheScheduleData] reports success, the cache holds an
    entry for the resort and that entry is unexpired at the instant of
    return; so right after it the freshness test of its callers cannot
    fail. *)
Theorem CacheScheduleData_postcondition (net : Transport) (self : Park)
    (s s' : State) :
  CacheScheduleData net self s = (Ok tt, s') ->
  exists e, scheduleCache s' !! resort_id self = Some e /\ clock s' <= expires e.
Proof.
  intros H.
  apply CacheScheduleData_cache in H
    as [(_ & -> & e & He & Hle) | [[_ [e ?]] | [_ [sched Hc]]]]; [eauto | done |].
  rewrite Hc, lookup_insert_eq. eexists. split; [reflexivity |].
  cbn. unfold moment.HOUR. lia.
Qed.

Lemma CacheScheduleData_others (net : Transport) (self : Park) (s s' : State)
    (r : Outcome unit) :
  CacheScheduleData net self s = (r, s') -> otherResortsKept self s s'.
Proof.
  intros H.
  apply CacheScheduleData_cache in H
    as [(_ & -> & _) | [[Hc _] | [_ [sched Hc]]]].
  - by apply otherResortsKept_refl.
  - by apply otherResortsKept_refl.
  - intros r' Hr'. rewrite Hc. by apply lookup_insert_ne.
Qed.

(** The steps of [GetWaitTimes], whatever its outcome: the cache check
    (unless the configuration is rejected), requests that leave the cache
    alone, and possibly the assembly loop. *)
Lemma GetWaitTimes_steps (net : Transport) (self : Park) (s s' : State)
    (r : Outcome (list Ride)) :
  GetWaitTimes net self s = (r, s') ->
  exists s1 s2,
    (s1 = s \/ exists rc, CacheScheduleData net self s = (rc, s1))
    /\ scheduleCache s2 = scheduleCache s1
    /\ (s' = s2
        \/ exists es, assembleRides self (clock s2)
                        (moment.formatDate (park_timezone self) (clock s2)) es [] s2
                      = (r, s')).
Proof.
  unfold GetWaitTimes. intros H.
  destruct (negb (truthyString (park_id self))).
  { injection H as <- <-. exists s, s. auto. }
  destruct (negb (truthyString (park_region self))).
  { injection H as <- <-. exists s, s. auto. }
  apply bindError_inv in H as [(u & s1 & Hc & H) | [(e & Hc & ->) | (e & Hc & ->)]];
    [| exists s', s'; split; [right; eauto | split; [done | by left]]..].
  apply bindError_inv in H as [(d & s2 & Hf & H) | [(e & Hf & ->) | (e & Hf & ->)]];
    [| exists s1, s'; split; [right; eauto |];
       split; [by eapply FetchURL_cache | by left]..].
  exists s1, s2. split; [right; eauto |]. split; [by eapply FetchURL_cache |].
  destruct d as [| o]; [injection H as <- <-; by left |].
  destruct (entries o) as [es |]; [| injection H as <- <-; by left].
  right. by exists es.
Qed.

(** X9.  A wait-time query that finds the cached schedule of the resort
    unexpired changes nothing in it but dates: whatever the outcome, the
    entry keeps its expiry and its attraction ids, and each cached window
    is as it was or has lost its [date]. *)
Theorem GetWaitTimes_only_deletes_dates (net : Transport) (self : Park)
    (s : State) (e : CacheEntry) :
  scheduleCache s !! resort_id self = Some e ->
  clock s <= expires e ->
  onlyDatesDeleted self s (snd (GetWaitTimes net self s)).
Proof.
  intros He Hle.
  destruct (GetWaitTimes net self s) as [r s'] eqn:H. cbn [snd].
  apply GetWaitTimes_steps in H as (s1 & s2 & H1 & H2 & H3).
  assert (Hs1 : scheduleCache s1 = scheduleCache s).
  { destruct H1 as [-> | [rc Hc]]; [done |].
    unfold CacheScheduleData in Hc. rewrite He in Hc.
    destruct (Z.leb_spec (clock s) (expires e)); [| lia]. by injection Hc as _ <-. }
  assert (H12 : onlyDatesDeleted self s s2).
  { apply onlyDatesDeleted_refl. congruence. }
  destruct H3 as [-> | [es Ha]]; [done |].
  apply assembleRides_frame in Ha as (_ & Hd & _).
  by eapply onlyDatesDeleted_trans.
Qed.

(** X10.  The schedule cache is shared by all parks and keyed by resort:
    whatever their outcome, [CacheScheduleData], [GetWaitTimes] and
    [GetOpeningTimes] of a park leave the cached entries of every other
    resort as they are. *)
Theorem other_resorts_untouched (net : Transport) (self : Park) (s : State) :
  otherResortsKept self s (snd (CacheScheduleData net self s))
  /\ otherResortsKept self s (snd (GetWaitTimes net self s))
  /\ otherResortsKept self s (snd (GetOpeningTimes net self s)).
Proof.
  split; [| split].
  - destruct (CacheScheduleData net self s) as [r s'] eqn:H.
    by eapply CacheScheduleData_others.
  - destruct (GetWaitTimes net self s) as [r s'] eqn:H. cbn [snd].
    apply GetWaitTimes_steps in H as (s1 & s2 & H1 & H2 & H3).
    assert (Ho1 : otherResortsKept self s s1).
    { destruct H1 as [-> | [rc Hc]]; [by apply otherResortsKept_refl |].
      by eapply CacheScheduleData_others. }
    assert (Ho2 : otherResortsKept self s s2).
    { eapply otherResortsKept_trans; [exact Ho1 | by apply otherResortsKept_refl]. }
    destruct H3 as [-> | [es Ha]]; [done |].
    apply assembleRides_frame in Ha as (Ho3 & _).
    by eapply otherResortsKept_trans.
  - destruct (GetOpeningTimes net self s) as [r s'] eqn:H. cbn [snd].
    unfold GetOpeningTimes in H.
    apply bindError_inv in H as [(u & s1 & Hc & H) | [(e & Hc & _) | (e & Hc & _)]];
      [| by eapply CacheScheduleData_others..].
    apply CacheScheduleData_others in Hc.
    assert (s' = s1) as ->; [| done].
    repeat match type of H with
           | context [match ?x with _ => _ end] => destruct x
           | context [if ?x then _ else _] => destruct x
           end; by injection H as _ <-.
Qed.

(** ** GetOpeningTimes *)





(** ** What goes upstream *)



(** ** GetWaitTimes, in general *)

(** A park without [park_id] or without [park_region] is rejected
    before anything else happens: the caller gets the configuration
    error, no request is sent and the state is untouched. *)
Theorem GetWaitTimes_not_configured (net : Transport) (self : Park) (s : State) :
  truthyString (park_id self) = false \/ truthyString (park_region self) = false ->
  GetWaitTimes net self s = (Err "Park not configured correctly", s).
Proof.
  unfold GetWaitTimes. intros [-> | Hr]; [reflexivity |].
  rewrite Hr. by destruct (truthyString (park_id self)).
Qed.

Lemma assembleRides_Forall (P : Ride -> Prop) (self : Park) (now today : Z) :
  (forall ride s s' obj,
      assembleRide self now today ride s = (Ok (Some obj), s') -> P obj) ->
  forall (es : list (option LiveEntry)) (rides out : list Ride) (s s' : State),
    assembleRides self now today es rides s = (Ok out, s') ->
    Forall P rides -> Forall P out.
Proof.
  intros HP es. induction es as [| [ride |] es IH]; intros rides out s s' H Hr;
    cbn [assembleRides] in H.
  - by injection H as <- <-.
  - apply bind_inv in H as [(a & s1 & Ha & Hk) | [(e & _ & ?) | (e & _ & ?)]];
      [| done..].
    eapply IH; [exact Hk |]. destruct a as [obj |]; [| done].
    apply Forall_app. split; [done |].
    constructor; [by eapply HP | constructor].
  - done.
Qed.

Lemma GetWaitTimes_Ok (net : Transport) (self : Park) (s s' : State)
    (rides : list Ride) :
  GetWaitTimes net self s = (Ok rides, s') ->
  exists s1 s2 o es,
    CacheScheduleData net self s = (Ok tt, s1)
    /\ FetchURL net self (ContructWaitTimesURL self)
         (withData (RegionData (park_region self))) s1
       = (Ok (JsonObj o), s2)
    /\ entries o = Some es
    /\ assembleRides self (clock s2)
         (moment.formatDate (park_timezone self) (clock s2)) es [] s2
       = (Ok rides, s').
Proof.
  unfold GetWaitTimes. intros H.
  destruct (negb (truthyString (park_id self))); [done |].
  destruct (negb (truthyString (park_region self))); [done |].
  apply bindError_inv in H as [([] & s1 & Hc & H) | [(e & _ & ?) | (e & _ & ?)]];
    [| done..].
  apply bindError_inv in H as [(d & s2 & Hf & H) | [(e & _ & ?) | (e & _ & ?)]];
    [| done..].
  destruct d as [| o]; [done |].
  destruct (entries o) as [es |] eqn:He; [| done].
  by exists s1, s2, o, es.
Qed.

(** X13.  Every record [GetWaitTimes] returns has a status out of
    "Operating", "Closed" and "Down", whatever the upstream sent, and is
    active exactly when that status is "Operating". *)
Theorem GetWaitTimes_status (net : Transport) (self : Park) (s s' : State)
    (rides : list Ride) (obj : Ride) :
  GetWaitTimes net self s = (Ok rides, s') ->
  obj ∈ rides ->
  r_status obj ∈ _expectedRideStatusStrings
  /\ (r_active obj = true <-> r_status obj = "Operating").
Proof.
  intros H Hin.
  apply GetWaitTimes_Ok in H as (s1 & s2 & o & es & _ & _ & _ & Ha).
  eapply (assembleRides_Forall
            (fun obj => r_status obj ∈ _expectedRideStatusStrings
                        /\ (r_active obj = true <-> r_status obj = "Operating")))
    in Ha; [| | constructor].
  - rewrite Forall_forall in Ha. by apply Ha.
  - clear. intros ride s s' obj H. unfold assembleRide in H.
    destruct (truthyString (l_id ride) && truthyString (l_name ride)
              && truthyString (l_type ride) && optStringEq (l_type ride) "Attraction");
      [| done].
    destruct (l_waitTime ride) as [w |]; [| done].
    assert (Hst :
      (match w with
       | {| w_status := Some st |} =>
           if existsb (String.eqb st) _expectedRideStatusStrings then st else "Closed"
       | _ => "Closed"
       end) ∈ _expectedRideStatusStrings
      /\ (optStringEq (w_status w) "Operating" = true
          <-> (match w with
               | {| w_status := Some st |} =>
                   if existsb (String.eqb st) _expectedRideStatusStrings
                   then st else "Closed"
               | _ => "Closed"
               end) = "Operating")).
    { destruct w as [p [st |] f]; cbn.
      - destruct (String.eqb_spec st "Operating") as [-> | Hne].
        + split; [apply list_elem_of_here | done].
        + destruct (String.eqb_spec st "Closed") as [-> | Hc].
          * split; [apply list_elem_of_further, list_elem_of_here | done].
          * destruct (String.eqb_spec st "Down") as [-> | Hd]; cbn.
            -- split; [do 2 apply list_elem_of_further; apply list_elem_of_here | done].
            -- split; [apply list_elem_of_further, list_elem_of_here | done].
      - split; [apply list_elem_of_further, list_elem_of_here | done]. }
    destruct (scheduleCache s !! resort_id self) as [e |];
      [destruct (getProperty (data e) (CleanRideID (default "" (l_id ride)))) |];
      injection H as <- <-; exact Hst.
Qed.

Lemma assembleRides_records (self : Park) (now today : Z) (es : list (option LiveEntry)) :
  forall (acc out : list Ride) (s s' : State),
    assembleRides self now today es acc s = (Ok out, s') ->
    exists live,
      es = map Some live
      /\ map (fun obj => (r_id obj, r_name obj)) out
         = map (fun obj => (r_id obj, r_name obj)) acc
           ++ map (fun ride => (CleanRideID (default "" (l_id ride)),
                                default "" (l_name ride)))
                (List.filter isAttraction live).
Proof.
  induction es as [| [ride |] es IH]; intros acc out s0 s' Ha; cbn [assembleRides] in Ha.
  - injection Ha as <- <-. exists []. cbn. by rewrite app_nil_r.
  - apply bind_inv in Ha as [(a & s1 & Hr & Hk) | [(e & _ & ?) | (e & _ & ?)]];
      [| done..].
    apply IH in Hk as (live & -> & Hk). exists (ride :: live).
    split; [reflexivity |]. rewrite Hk. cbn [List.filter].
    unfold assembleRide in Hr. fold (isAttraction ride) in Hr.
    destruct (isAttraction ride).
    + destruct (l_waitTime ride) as [w |]; [| done].
      destruct (scheduleCache s0 !! resort_id self) as [e |];
        [destruct (getProperty (data e) (CleanRideID (default "" (l_id ride)))) |];
        injection Hr as <- <-; rewrite map_app, <- app_assoc; reflexivity.
    + by injection Hr as <- <-.
  - done.
Qed.

(** X14.  The records come in the order of the live entries, one for each
    entry that has an id, a name and the type "Attraction" and none for
    the others; each carries the cleaned id and the name of its entry.  (A
    query that returns records has met no [null] among the entries.) *)
Theorem GetWaitTimes_records (net : Transport) (self : Park) (s s' : State)
    (rides : list Ride) :
  GetWaitTimes net self s = (Ok rides, s') ->
  exists s1 s2 o live,
    CacheScheduleData net self s = (Ok tt, s1)
    /\ FetchURL net self (ContructWaitTimesURL self)
         (withData (RegionData (park_region self))) s1
       = (Ok (JsonObj o), s2)
    /\ entries o = Some (map Some live)
    /\ map (fun obj => (r_id obj, r_name obj)) rides
       = map (fun ride => (CleanRideID (default "" (l_id ride)),
                           default "" (l_name ride)))
           (List.filter isAttraction live).
Proof.
  intros H.
  apply GetWaitTimes_Ok in H as (s1 & s2 & o & es & Hc & Hf & He & Ha).
  apply assembleRides_records in Ha as (live & -> & Hm).
  exists s1, s2, o, live. split; [done |]. split; [done |]. split; [done |].
  exact Hm.
Qed.

(** ** Repeating a query *)

Lemma lastMatch_ext (p : DayWindow -> bool) (ws ws' : list DayWindow) :
  Forall2 (fun w w' => p w' = p w) ws ws' ->
  forall j acc, lastMatch p ws' j acc = lastMatch p ws j acc.
Proof.
  induction 1 as [| w w' ws ws' Hp _ IH]; intros j acc; cbn; [done |].
  by rewrite Hp, IH.
Qed.

Lemma alter_set_date_idem (ws : list DayWindow) (j : nat) :
  alter (set_date None) j (alter (set_date None) j ws) = alter (set_date None) j ws.
Proof.
  revert j. induction ws as [| w ws IH]; intros [| j]; cbn; [done.. | by rewrite IH].
Qed.

Lemma selectSchedule_lastActive (now today : Z) (ws : list DayWindow) (j : nat) :
  lastMatch (fun w => moment.isBetween now (openingTime w) (closingTime w))
    ws 0 None = Some j ->
  selectSchedule now today ws = Some j.
Proof.
  intros H. unfold selectSchedule. rewrite scanSchedule_lastMatch. by rewrite H.
Qed.

(** X15.  While some window is active, the selection does not look at
    the dates: repeating the query on the cache as the first query left it
    attaches the same window and changes the cache no further. *)
Theorem selection_stable_while_active (now today : Z) (ws : list DayWindow) :
  (exists w, w ∈ ws /\ activeAt now w) ->
  let ws' := deleteSelectedDate now today ws in
  selectedWindow now today ws' = selectedWindow now today ws
  /\ deleteSelectedDate now today ws' = ws'.
Proof.
  intros (w0 & Hin & Ha0). cbn zeta.
  destruct (lastMatch_some
              (fun w => moment.isBetween now (openingTime w) (closingTime w))
              ws 0%nat None) as (j & w & Hl & _ & _ & Hr).
  { exists w0. split; [done |]. by apply isBetween_activeAt. }
  cbn [Nat.add] in Hr.
  pose proof (selectSchedule_lastActive now today ws j Hr) as Hsel.
  assert (Hsel' : selectSchedule now today (alter (set_date None) j ws) = Some j).
  { apply selectSchedule_lastActive. rewrite <- Hr. apply lastMatch_ext.
    eapply Forall2_impl; [apply Forall2_dateDeleted_alter |].
    intros w1 w2 [-> | ->]; reflexivity. }
  unfold selectedWindow, deleteSelectedDate. rewrite Hsel, Hsel'. split.
  - rewrite list_lookup_alter_eq, Hl. reflexivity.
  - apply alter_set_date_idem.
Qed.

(** ** The windows ParseScheduleData stores *)

Lemma obj_values_get (o : DateObject) :
  NoDup (obj_keys o) ->
  map Some (obj_values o) = map (fun k => obj_get k o) (obj_keys o).
Proof.
  unfold obj_values, obj_keys.
  induction o as [| [k v] o IH]; intros Hnd; cbn; [done |].
  apply NoDup_cons in Hnd as [Hk Hnd]. rewrite Z.eqb_refl. f_equal.
  rewrite IH by done. apply map_ext_in. intros k' Hk'.
  destruct (Z.eqb_spec k' k) as [-> | ?]; [| done].
  exfalso. apply Hk. by apply list_elem_of_In.
Qed.

Lemma lastStandard_Some (today n d : Z) (entries : list RawEntry) (e : RawEntry) :
  lastStandard today n d entries = Some e ->
  e ∈ entries /\ isStandardIn today n e = true /\ e_date e = d.
Proof.
  induction entries as [| e0 entries IH]; cbn; [done |].
  destruct (lastStandard today n d entries) as [x |].
  - intros H. destruct (IH H) as (Hin & Hs & Hd).
    split; [by apply list_elem_of_further | by split].
  - destruct (isStandardIn today n e0) eqn:Hs; [| done].
    destruct (Z.eqb_spec (e_date e0) d); [| done].
    intros H. injection H as <-. split; [apply list_elem_of_here | by split].
Qed.

Lemma lastStandard_None (today n d : Z) (entries : list RawEntry) :
  lastStandard today n d entries = None <-> d ∉ standardDates today n entries.
Proof.
  unfold standardDates. induction entries as [| e0 entries IH].
  - split; [intros _; apply not_elem_of_nil | done].
  - cbn [lastStandard List.filter]. unfold isStandardIn at 1.
    destruct (isOpeningType (e_type e0) && inRange today n (e_date e0)) eqn:Hs;
      cbn [andb map].
    + rewrite not_elem_of_cons, <- IH.
      destruct (lastStandard today n d entries) as [x |].
      * split; [done | by intros [_ ?]].
      * destruct (Z.eqb_spec (e_date e0) d) as [-> | Hne].
        -- split; [done | by intros [? _]].
        -- split; [intros _; split; [congruence | done] | done].
    + rewrite <- IH. by destruct (lastStandard today n d entries).
Qed.

Lemma push_special_fold (self : Park) (l : list RawEntry) (w : DayWindow) :
  fold_left (fun w e => push_special (specialWindow self e) w) l w
  = {| date := date w; openingTime := openingTime w; closingTime := closingTime w;
       type := type w;
       special := (fun sp => sp ++ map (specialWindow self) l) <$> special w |}.
Proof.
  revert w. induction l as [| e l IH]; intros w; cbn.
  - destruct w as [? ? ? ? [sp |]]; cbn; [by rewrite app_nil_r | done].
  - rewrite IH. unfold push_special. cbn.
    destruct (special w); cbn; [by rewrite <- app_assoc | done].
Qed.

Section ParseValues.

Variable self : Park.
Variables today n : Z.

Let zone := park_timezone self.
Let startDate := moment.tzDate zone today.
Let endDate := moment.tzDate zone (today + n) + moment.DAY - 1.

Lemma addStandard_get (times : DateObject) (time : RawEntry) (d : Z) :
  obj_get d (addStandard self startDate endDate times time)
  = if isStandardIn today n time && (e_date time =? d)
    then Some (standardWindow self time)
    else obj_get d times.
Proof.
  unfold addStandard, isStandardIn. fold zone.
  destruct (isOpeningType (e_type time)); cbn [andb]; [| done].
  pose proof (range_checks self today n (e_date time)) as Hr. symmetry in Hr.
  fold zone in Hr. fold startDate endDate in Hr. cbn zeta.
  destruct (moment.isAfter _ endDate); cbn in Hr.
  { apply negb_true_iff in Hr. by rewrite Hr. }
  destruct (moment.isBefore _ startDate); cbn in Hr.
  { apply negb_true_iff in Hr. by rewrite Hr. }
  apply negb_false_iff in Hr. rewrite Hr. cbn [andb].
  rewrite formatDate_tzDate, obj_get_set, Z.eqb_sym.
  by destruct (e_date time =? d).
Qed.

Lemma fold_addStandard_get (entries : list RawEntry) (d : Z) :
  forall times,
    obj_get d (fold_left (addStandard self startDate endDate) entries times)
    = match lastStandard today n d entries with
      | Some e => Some (standardWindow self e)
      | None => obj_get d times
      end.
Proof.
  induction entries as [| e entries IH]; intros times; cbn [fold_left lastStandard];
    [done |].
  rewrite IH. destruct (lastStandard today n d entries); [done |].
  rewrite addStandard_get. by destruct (isStandardIn today n e && (e_date e =? d)).
Qed.

Lemma addSpecial_get (times : DateObject) (time : RawEntry) (d : Z) :
  obj_get d (addSpecial self startDate endDate times time)
  = if isSpecialIn today n time && (e_date time =? d)
    then push_special (specialWindow self time) <$> obj_get d times
    else obj_get d times.
Proof.
  unfold addSpecial, isSpecialIn. fold zone.
  destruct (negb (isOpeningType (e_type time))); cbn [andb]; [| done].
  pose proof (range_checks self today n (e_date time)) as Hr. symmetry in Hr.
  fold zone in Hr. fold startDate endDate in Hr. cbn zeta.
  destruct (moment.isAfter _ endDate); cbn in Hr.
  { apply negb_true_iff in Hr. by rewrite Hr. }
  destruct (moment.isBefore _ startDate); cbn in Hr.
  { apply negb_true_iff in Hr. by rewrite Hr. }
  apply negb_false_iff in Hr. rewrite Hr. cbn [andb].
  rewrite formatDate_tzDate.
  destruct (Z.eqb_spec (e_date time) d) as [<- | Hne].
  - destruct (obj_get (e_date time) times) as [w |] eqn:Hg; [| by rewrite Hg].
    by rewrite obj_get_set, Z.eqb_refl.
  - destruct (obj_get (e_date time) times) as [w |]; [| done].
    rewrite obj_get_set. by destruct (Z.eqb_spec d (e_date time)).
Qed.

Lemma fold_addSpecial_get (entries : list RawEntry) (d : Z) :
  forall times,
    obj_get d (fold_left (addSpecial self startDate endDate) entries times)
    = fold_left (fun w e => push_special (specialWindow self e) w)
        (specialsOn today n d entries)
      <$> obj_get d times.
Proof.
  unfold specialsOn.
  induction entries as [| e entries IH]; intros times; cbn [fold_left List.filter].
  - by destruct (obj_get d times).
  - rewrite IH, addSpecial_get.
    destruct (isSpecialIn today n e && (e_date e =? d)); [| done].
    by destruct (obj_get d times).
Qed.

(** The stored array, window by window. *)
Lemma parseActivity_windowFor (entries : list RawEntry) :
  parseActivity self startDate endDate entries
  = map (windowFor self today n entries)
      (insertionOrder (standardDates today n entries)
         ++ List.filter
              (fun d => negb (bool_decide (d ∈ standardDates today n entries)))
              (dateRange today n)).
Proof.
  unfold parseActivity. cbn zeta.
  pose proof (dayLoop_dateRange self today n) as Hloop.
  fold zone in Hloop. fold startDate endDate in Hloop. rewrite Hloop. clear Hloop.
  destruct (fold_addStandard self today n entries []) as [Hd1 Hk1]; [constructor |].
  destruct (fold_addSpecial self today n entries _ Hd1) as [Hd2 Hk2].
  destruct (fold_fillMissing self (dateRange today n) _ Hd2) as [Hd3 Hk3].
  fold zone in Hd1, Hk1, Hd2, Hk2, Hd3, Hk3.
  fold startDate endDate in Hd1, Hk1, Hd2, Hk2, Hd3, Hk3.
  set (times1 := fold_left (addStandard self startDate endDate) entries []) in *.
  set (times2 := fold_left (addSpecial self startDate endDate) entries times1) in *.
  set (final := fold_left (fillMissing self) (map (moment.tzDate zone) (dateRange today n))
                  times2) in *.
  assert (Hk : obj_keys final
               = insertionOrder (standardDates today n entries)
                 ++ List.filter
                      (fun d => negb (bool_decide (d ∈ standardDates today n entries)))
                      (dateRange today n)).
  { rewrite Hk3, Hk2, Hk1. cbn [obj_keys map].
    fold (insertionOrder (standardDates today n entries)).
    rewrite fold_addKey_NoDup by apply NoDup_dateRange. f_equal.
    apply List.filter_ext. intros d. f_equal.
    apply bool_decide_ext, elem_of_insertionOrder. }
  assert (Hnd : NoDup (obj_keys final)).
  { rewrite Hk3, Hk2, Hk1. apply NoDup_fold_addKey, NoDup_fold_addKey. constructor. }
  apply (inj (fmap Some)).
  change (map Some (obj_values final)
          = map Some (map (windowFor self today n entries)
                        (insertionOrder (standardDates today n entries)
                           ++ List.filter
                                (fun d => negb (bool_decide
                                                  (d ∈ standardDates today n entries)))
                                (dateRange today n)))).
  rewrite obj_values_get by done. rewrite <- Hk, map_map.
  apply map_ext_in. intros d Hd.
  assert (Hrange : d ∈ dateRange today n).
  { apply list_elem_of_In in Hd. rewrite Hk in Hd.
    apply elem_of_app in Hd as [Hd | Hd].
    - apply elem_of_insertionOrder, elem_of_standardDates in Hd.
      by apply elem_of_dateRange.
    - apply list_elem_of_In, filter_In in Hd as [Hd _]. by apply list_elem_of_In. }
  unfold final, zone. rewrite fold_fillMissing_get by done. fold zone.
  unfold times2. rewrite fold_addSpecial_get.
  unfold times1. rewrite fold_addStandard_get.
  unfold windowFor.
  destruct (lastStandard today n d entries) as [e |] eqn:Hlast; cbn.
  - apply lastStandard_Some in Hlast as (_ & _ & <-).
    rewrite push_special_fold. reflexivity.
  - by rewrite bool_decide_eq_true_2.
Qed.

End ParseValues.

Lemma ParseScheduleEntry_bounds (self : Park) (entry : RawEntry) :
  validHHmm (e_startTime entry) ->
  validHHmm (e_endTime entry) ->
  t_openingTime (ParseScheduleEntry self entry)
  <= t_closingTime (ParseScheduleEntry self entry)
  < t_openingTime (ParseScheduleEntry self entry) + moment.DAY.
Proof.
  intros [Hsh Hsm] [Heh Hem]. unfold ParseScheduleEntry. cbn zeta.
  cbn [t_openingTime t_closingTime]. unfold moment.isBefore.
  destruct (Z.ltb_spec
              (tzDateTime (park_timezone self) (e_date entry) (e_endTime entry))
              (tzDateTime (park_timezone self) (e_date entry) (e_startTime entry)));
    rewrite ?addDays_tzDateTime, !format_tzDateTime;
    unfold tzDateTime, moment.tzDate, msOfDay, moment.DAY, moment.HOUR,
      moment.MINUTE in *; lia.
Qed.

(** X16.  What [ParseScheduleData] stores for an attraction, window by
    window.  For a date with a standard entry in the range, the window has
    the times of the last such entry in the payload, type "Operating" if
    that entry's type is "Operating" and "Closed" otherwise, and as
    [special] the special entries of that date, in payload order.  For a
    date without one, the window is the back-filled "Closed" window,
    without [special]: the special entries of such a date are dropped. *)
Theorem parseActivity_windows (self : Park) (now : Z) (entries : list RawEntry) :
  let zone := park_timezone self in
  let today := moment.formatDate zone now in
  let n := scheduleMaxDates self in
  let std := standardDates today n entries in
  parseActivity self (moment.startOfDay zone now)
    (moment.endOfDay zone (moment.addDays n now)) entries
  = map (windowFor self today n entries)
      (insertionOrder std
         ++ List.filter (fun d => negb (bool_decide (d ∈ std))) (dateRange today n)).
Proof.
  cbn zeta. unfold moment.endOfDay, moment.startOfDay.
  rewrite formatDate_addDays. apply parseActivity_windowFor.
Qed.

(** X17.  Every window [ParseScheduleData] stores has a date of the
    requested range and the type "Operating" or "Closed", whatever the
    payload; and when the times of the payload are well-formed, it does not
    close before it opens and spans less than a day. *)
Theorem parseActivity_invariants (self : Park) (now : Z) (entries : list RawEntry)
    (w : DayWindow) :
  let zone := park_timezone self in
  let today := moment.formatDate zone now in
  let n := scheduleMaxDates self in
  w ∈ parseActivity self (moment.startOfDay zone now)
        (moment.endOfDay zone (moment.addDays n now)) entries ->
  (exists d, date w = Some d /\ today <= d <= today + n)
  /\ (type w = "Operating" \/ type w = "Closed")
  /\ (Forall (fun e => validHHmm (e_startTime e) /\ validHHmm (e_endTime e)) entries ->
      openingTime w <= closingTime w < openingTime w + moment.DAY).
Proof.
  intros zone today n Hin. subst zone.
  unfold moment.endOfDay, moment.startOfDay in Hin.
  rewrite formatDate_addDays in Hin. fold today n in Hin.
  rewrite parseActivity_windowFor in Hin.
  apply list_elem_of_In, in_map_iff in Hin as (d & <- & Hd).
  assert (Hrange : today <= d <= today + n).
  { apply in_app_iff in Hd as [Hd | Hd].
    - apply list_elem_of_In, elem_of_insertionOrder, elem_of_standardDates in Hd. lia.
    - apply filter_In in Hd as [Hd _]. by apply list_elem_of_In, elem_of_dateRange in Hd. }
  unfold windowFor.
  destruct (lastStandard today n d entries) as [e |] eqn:Hlast; cbn.
  - apply lastStandard_Some in Hlast as (He & _ & _).
    split; [eauto |]. split; [destruct (String.eqb (e_type e) "Operating"); auto |].
    intros Hvalid. rewrite Forall_forall in Hvalid. destruct (Hvalid e He) as [Hs He'].
    by apply ParseScheduleEntry_bounds.
  - split; [eauto |]. split; [by right |]. intros _. unfold moment.DAY. lia.
Qed.

Lemma fold_left_filter {A B} (f : A -> B -> A) (p : B -> bool) (l : list B) :
  (forall a x, p x = false -> f a x = a) ->
  forall a, fold_left f (List.filter p l) a = fold_left f l a.
Proof.
  intros Hf. induction l as [| x l IH]; intros a; cbn; [done |].
  destruct (p x) eqn:Hp; cbn; [apply IH |]. by rewrite Hf, IH.
Qed.

(** X18.  Schedule entries dated outside the requested range have no
    effect at all: the stored array is the one the payload without them
    would give. *)
Theorem parseActivity_ignores_out_of_range (self : Park) (now : Z)
    (entries : list RawEntry) :
  let zone := park_timezone self in
  let today := moment.formatDate zone now in
  let n := scheduleMaxDates self in
  parseActivity self (moment.startOfDay zone now)
    (moment.endOfDay zone (moment.addDays n now))
    (List.filter (fun e => inRange today n (e_date e)) entries)
  = parseActivity self (moment.startOfDay zone now)
      (moment.endOfDay zone (moment.addDays n now)) entries.
Proof.
  intros zone today n. subst zone.
  unfold moment.endOfDay, moment.startOfDay.
  rewrite formatDate_addDays. fold today n.
  unfold parseActivity. cbn zeta.
  rewrite !(fold_left_filter _ (fun e => inRange today n (e_date e))); [done | |].
  - intros times e He. unfold addStandard.
    destruct (isOpeningType (e_type e)); [| done]. cbn zeta.
    pose proof (range_checks self today n (e_date e)) as Hr. rewrite He in Hr.
    apply orb_true_iff in Hr as [-> | Hr]; [done |].
    rewrite Hr. by destruct (moment.isAfter _ _).
  - intros times e He. unfold addSpecial.
    destruct (negb (isOpeningType (e_type e))); [| done]. cbn zeta.
    pose proof (range_checks self today n (e_date e)) as Hr. rewrite He in Hr.
    apply orb_true_iff in Hr as [-> | Hr]; [done |].
    rewrite Hr. by destruct (moment.isAfter _ _).
Qed.

Lemma lastActivity_is_Some (acts : list Activity) (a : Activity) (es : list RawEntry) :
  a ∈ acts -> a_schedule a = Some {| schedules := Some es |} ->
  is_Some (lastActivity (CleanRideID (a_id a)) acts).
Proof.
  induction acts as [| a0 acts IH]; intros Hin Hs; [by apply elem_of_nil in Hin |].
  cbn [lastActivity]. apply elem_of_cons in Hin as [<- | Hin].
  - destruct (lastActivity (CleanRideID (a_id a)) acts); [done |].
    rewrite Hs, String.eqb_refl. done.
  - destruct (IH Hin Hs) as [x ->]. done.
Qed.

(** X19.  The schedule of the resort is keyed by cleaned id: what is
    stored under an id is the array parsed from the last activity of the
    payload that carries a schedule and whose cleaned id it is; activities
    without [schedule.schedules] are skipped, and an id no such activity has
    is absent.  So the cleaned id of every activity with a schedule is a
    key, the key under which [GetWaitTimes] looks a live entry up. *)
Theorem parseActivities_lookup (self : Park) (startDate endDate : Z)
    (acts : list Activity) (id : string) :
  parseActivities self startDate endDate acts !! id
  = parseActivity self startDate endDate <$> lastActivity id acts
  /\ (forall a es,
        a ∈ acts -> a_schedule a = Some {| schedules := Some es |} ->
        id = CleanRideID (a_id a) ->
        is_Some (parseActivities self startDate endDate acts !! id)).
Proof.
  split; [apply parseActivities_get |].
  intros a es Hin Hs ->. rewrite parseActivities_get.
  destruct (lastActivity_is_Some acts a es Hin Hs) as [x ->]. by eexists.
Qed.

(** ** The fallback for attractions without schedule *)

(** X22.  The fallback of [GetWaitTimes]: a record whose cleaned id has no
    cached schedule and is not the name of an inherited property carries
    the synthesized window of the park's local day, from the printed start
    of the day to the printed end of the day, with type "Operating" if the
    record is active and "Closed" otherwise.  (The schedule object is taken
    to have its original prototype: no activity of the payload it was
    parsed from has the cleaned id "__proto__".) *)
Theorem GetWaitTimes_fallback (net : Transport) (self : Park) (s s' : State)
    (rides : list Ride) (obj : Ride) :
  GetWaitTimes net self s = (Ok rides, s') ->
  obj ∈ rides ->
  cachedSchedule self s' (r_id obj) = None ->
  inherited (r_id obj) = None ->
  cachedSchedule self s' "__proto__" = None ->
  r_schedule obj
  = ScheduleWindow
      {| date := None;
         openingTime :=
           moment.format (moment.startOfDay (park_timezone self) (clock s'));
         closingTime :=
           moment.format (moment.endOfDay (park_timezone self) (clock s'));
         type := if r_active obj then "Operating" else "Closed";
         special := None |}.
Proof.
  unfold GetWaitTimes. intros H Hobj Hnone Hinh _.
  destruct (negb (truthyString (park_id self))); [done |].
  destruct (negb (truthyString (park_region self))); [done |].
  apply bindError_inv in H as [(u & s1 & _ & H) | [(e & _ & ?) | (e & _ & ?)]];
    [| done..].
  apply bindError_inv in H as [(d & s2 & _ & H) | [(e & _ & ?) | (e & _ & ?)]];
    [| done..].
  destruct d as [| o]; [done |].
  destruct (entries o) as [es |]; [| done].
  apply assembleRides_spec in H as (Hc & Hk & Hs).
  rewrite Hc. apply Hs; [| done | by apply Hk | done].
  intros obj' Hin. by apply elem_of_nil in Hin.
Qed.

(** ** How the operations fail *)

(** X20.  Whatever goes wrong while the schedule is refreshed (no token,
    transport error, a body that is not JSON, a null body, a body without
    [activities]), [CacheScheduleData] does not throw, reports one of two
    messages, and leaves the schedule cache exactly as it was. *)
Theorem CacheScheduleData_failure (net : Transport) (self : Park) (s s' : State)
    (r : Outcome unit) :
  CacheScheduleData net self s = (r, s') ->
  r <> Ok tt ->
  scheduleCache s' = scheduleCache s
  /\ (r = Err "Error fetching park schedule" \/ r = Err "No schedule data returned").
Proof.
  intros H Hr.
  assert (Hrefresh : refreshSchedule net self s = (r, s') ->
            scheduleCache s' = scheduleCache s
            /\ (r = Err "Error fetching park schedule"
                \/ r = Err "No schedule data returned")).
  { unfold refreshSchedule. intros H'.
    apply bindError_inv in H' as [(d & s1 & Hf & Hk) | [(e & Hf & ->) | (e & Hf & _)]].
    - pose proof (FetchURL_cache _ _ _ _ _ _ _ Hf) as Hc.
      destruct d as [| o]; [injection Hk as <- <-; auto |].
      unfold bind, ParseScheduleData in Hk.
      destruct (activities o); injection Hk as <- <-; [done | auto].
    - split; [by eapply FetchURL_cache | auto].
    - by apply FetchURL_no_throw in Hf. }
  unfold CacheScheduleData in H.
  destruct (scheduleCache s !! resort_id self) as [e |]; [| by apply Hrefresh].
  destruct (clock s <=? expires e); [| by apply Hrefresh].
  by injection H as <- <-.
Qed.

Lemma assembleRides_Throw (self : Park) (now today : Z) (es : list (option LiveEntry)) :
  forall (rides : list Ride) (s s' : State) (e : string),
    assembleRides self now today es rides s = (Throw e, s') ->
    (e = "TypeError: Cannot read property 'id' of null" /\ None ∈ es)
    \/ (e = "TypeError: Cannot read property 'fastPass' of undefined"
        /\ exists ride,
             Some ride ∈ es /\ isAttraction ride = true /\ l_waitTime ride = None).
Proof.
  induction es as [| [ride |] es IH]; intros rides s s' e H; cbn [assembleRides] in H;
    [done | |].
  - apply bind_inv in H as [(a & s1 & _ & Hk) | [(e' & _ & ?) | (e' & Hr & He)]];
      [| done |].
    + apply IH in Hk as [(-> & Hin) | (-> & ride' & Hin & Ha & Hw)].
      * left. split; [done | by apply list_elem_of_further].
      * right. split; [done |].
        exists ride'. split; [by apply list_elem_of_further | done].
    + injection He as ->. unfold assembleRide in Hr. fold (isAttraction ride) in Hr.
      destruct (isAttraction ride) eqn:Ha; [| done].
      destruct (l_waitTime ride) as [w |] eqn:Hw.
      * destruct (scheduleCache s !! resort_id self) as [c |];
          [destruct (getProperty (data c) (CleanRideID (default "" (l_id ride)))) |];
          done.
      * injection Hr as <- <-. right. split; [done |].
        exists ride. split; [apply list_elem_of_here | done].
  - injection H as <- <-. left. split; [done | apply list_elem_of_here].
Qed.

Lemma assembleRides_no_Err (self : Park) (now today : Z) (es : list (option LiveEntry)) :
  forall (rides : list Ride) (s s' : State) (e : string),
    assembleRides self now today es rides s <> (Err e, s').
Proof.
  induction es as [| [ride |] es IH]; intros rides s s' e H; cbn [assembleRides] in H;
    [done | | done].
  apply bind_inv in H as [(a & s1 & _ & Hk) | [(e' & Hr & _) | (e' & _ & ?)]];
    [by eapply IH | | done].
  unfold assembleRide in Hr.
  repeat match type of Hr with
         | context [match ?x with _ => _ end] => destruct x
         | context [if ?x then _ else _] => destruct x
         end; discriminate.
Qed.

(** X21.  [GetWaitTimes] reports a failure with one of five messages of
    its own, never with text from upstream.  It throws in two cases only,
    both with the schedule fresh and the live data at hand: some element
    of [entries] is [null], or some live entry that is an attraction has
    no live-status object. *)
Theorem GetWaitTimes_failures (net : Transport) (self : Park) (s s' : State)
    (r : Outcome (list Ride)) :
  GetWaitTimes net self s = (r, s') ->
  match r with
  | Ok _ => True
  | Err e =>
      e ∈ ["Park not configured correctly"; "Error getting schedule data cache";
           "Error fetching wait times"; "No data returned for wait times";
           "Invalid data returned from API (no entries)"]
  | Throw e =>
      exists s1 s2 o es,
        CacheScheduleData net self s = (Ok tt, s1)
        /\ FetchURL net self (ContructWaitTimesURL self)
             (withData (RegionData (park_region self))) s1 = (Ok (JsonObj o), s2)
        /\ entries o = Some es
        /\ ((e = "TypeError: Cannot read property 'id' of null" /\ None ∈ es)
            \/ (e = "TypeError: Cannot read property 'fastPass' of undefined"
                /\ exists ride,
                     Some ride ∈ es /\ isAttraction ride = true
                     /\ l_waitTime ride = None))
  end.
Proof.
  unfold GetWaitTimes. intros H.
  destruct (negb (truthyString (park_id self))).
  { injection H as <- <-. apply list_elem_of_here. }
  destruct (negb (truthyString (park_region self))).
  { injection H as <- <-. apply list_elem_of_here. }
  apply bindError_inv in H as [([] & s1 & Hc & H) | [(e & Hc & ->) | (e & Hc & ->)]].
  - apply bindError_inv in H as [(d & s2 & Hf & H) | [(e & Hf & ->) | (e & Hf & ->)]].
    + destruct d as [| o].
      { injection H as <- <-. do 3 apply list_elem_of_further. apply list_elem_of_here. }
      destruct (entries o) as [es |] eqn:He.
      2:{ injection H as <- <-. do 4 apply list_elem_of_further. apply list_elem_of_here. }
      destruct r as [rides | e | e]; [done | |].
      * exfalso. by eapply assembleRides_no_Err.
      * apply assembleRides_Throw in H. by exists s1, s2, o, es.
    + do 2 apply list_elem_of_further. apply list_elem_of_here.
    + by apply FetchURL_no_throw in Hf.
  - apply list_elem_of_further, list_elem_of_here.
  - exfalso.
    apply CacheScheduleData_cache in Hc as [(? & _) | [[_ [e' ?]] | [? _]]]; done.
Qed.

(** ** The further properties at concrete inputs *)

Lemma CleanRideID_strips_suffix_witness :
  CleanRideID ("80010190" ++ String ";" "entityType=Attraction") = "80010190".
Proof.
  apply (CleanRideID_strips_suffix "80010190" "entityType=Attraction").
  - discriminate.
  - intros i. do 8 (destruct i as [| i]; [discriminate |]). destruct i; discriminate.
Defined.

Lemma ParseScheduleEntry_length_witness :
  let t := ParseScheduleEntry demoPark (demoEntry day0) in
  t_openingTime t = at_ day0 9 0
  /\ t_openingTime t <= t_closingTime t < t_openingTime t + moment.DAY
  /\ (msOfDay (e_startTime (demoEntry day0)) <= msOfDay (e_endTime (demoEntry day0)) ->
      t_closingTime t = at_ day0 18 0).
Proof.
  apply (ParseScheduleEntry_length demoPark (demoEntry day0)).
  - vm_compute. repeat split; discriminate.
  - vm_compute. repeat split; discriminate.
Defined.

Lemma GetAccessToken_outcome_witness :
  let net := demoNet (tokenReply 3600) (scheduleReply []) (liveReply []) in
  let s' := snd (GetAccessToken net demoPark (startedAt (at_ day0 20 0))) in
  GetAccessToken net demoPark (startedAt (at_ day0 20 0)) = (Ok "t0k3n", s')
  /\ exists t, _accessToken s' = Some t /\ token t = "t0k3n"
               /\ clock s' < tok_expires t.
Proof.
  intros net s'.
  assert (Hrun : GetAccessToken net demoPark (startedAt (at_ day0 20 0))
                 = (Ok "t0k3n", s')) by (vm_compute; reflexivity).
  split; [exact Hrun |].
  exact (proj1 (GetAccessToken_outcome net demoPark _ s' _ Hrun) "t0k3n" eq_refl).
Defined.

Lemma FetchURL_bearer_witness :
  let net := demoNet (tokenReply 3600) (scheduleReply []) (liveReply []) in
  let s := startedAt (at_ day0 20 0) in
  let u := ContructWaitTimesURL demoPark in
  let run := FetchURL net demoPark u postOptions s in
  run = (Err "Error making API request", snd run)
  /\ ((fun req => (method req, headers req !! "Authorization",
                   headers req !! "X-App-Id", req_qs req, req_data req))
        <$> last (requests (snd run))
      = Some ("POST", Some (HeaderObject postHeaders),
              Some (HeaderString "WDW-MDX-ANDROID-3.4.1"),
              None, Some (RegionData (Some "us"))))
  /\ exists l req now,
       requests (snd run) = requests s ++ l ++ [req]
       /\ (l = [] \/ l = [tokenRequest demoPark])
       /\ clock s <= now <= clock (snd run)
       /\ url req = u
       /\ method req = "POST"
       /\ (forall name,
             headers req !! name
             = if decide (name ∈ map fst postHeaders) then Some (HeaderObject postHeaders)
               else standardHeaders demoPark "t0k3n" now !! name)
       /\ (if String.eqb (method req) "GET"
           then req_qs req = o_data postOptions /\ req_data req = None
           else req_qs req = None /\ req_data req = o_data postOptions)
       /\ req_body req = None
       /\ (forall d, postOptions = withData d ->
             req = apiRequest demoPark u d "t0k3n" now).
Proof.
  intros net s u run.
  assert (Hrun : run = (Err "Error making API request", snd run))
    by (vm_compute; reflexivity).
  split; [exact Hrun |]. split; [vm_compute; reflexivity |].
  exact (FetchURL_bearer net demoPark u postOptions s _ _ Hrun).
Defined.

Lemma FetchURL_correlation_witness :
  let s := startedAt (at_ day0 20 0) in
  let u := ContructWaitTimesURL demoPark in
  let options := withData (RegionData (Some "us")) in
  fst (FetchURL failingNet demoPark u options s) = Err "Error making API request"
  /\ _accessToken (snd (FetchURL failingNet demoPark u options s))
     = Some {| token := "t0k3n"; tok_expires := at_ day0 20 0 + 3570 * 1000;
               correlation := Some "lb-17" |}.
Proof.
  intros s u options. split; [vm_compute; reflexivity |].
  refine (proj1 (FetchURL_correlation failingNet demoPark u options s
                   (snd (GetAccessToken failingNet demoPark s)) "t0k3n" demoToken
                   (NetError "ECONNRESET" (Some badGateway)) 0%N _ _ _)
            badGateway "lb-17" eq_refl eq_refl _).
  - vm_compute. reflexivity.
  - vm_compute. reflexivity.
  - vm_compute. reflexivity.
  - discriminate.
Defined.

Lemma CacheScheduleData_postcondition_witness :
  let net := demoNet (tokenReply 3600) (scheduleReply [demoEntry day0]) (liveReply []) in
  let s := startedAt (at_ day0 20 0) in
  let s' := snd (CacheScheduleData net demoPark s) in
  CacheScheduleData net demoPark s = (Ok tt, s')
  /\ exists e, scheduleCache s' !! resort_id demoPark = Some e /\ clock s' <= expires e.
Proof.
  intros net s s'.
  assert (Hrun : CacheScheduleData net demoPark s = (Ok tt, s'))
    by (vm_compute; reflexivity).
  split; [exact Hrun |].
  exact (CacheScheduleData_postcondition net demoPark s s' Hrun).
Defined.

Lemma GetWaitTimes_only_deletes_dates_witness :
  let net :=
    demoNet (tokenReply 3600) (scheduleReply [])
      (liveReply [closedRide "80010190;entityType=Attraction"]) in
  cachedSchedule demoPark (snd (GetWaitTimes net demoPark morningState)) "80010190"
  = Some [demoWindow day0; set_date None (demoWindow (day0 + 1))]
  /\ onlyDatesDeleted demoPark morningState
       (snd (GetWaitTimes net demoPark morningState)).
Proof.
  intros net. split; [vm_compute; reflexivity |].
  apply (GetWaitTimes_only_deletes_dates net demoPark morningState
           {| expires := at_ (day0 + 1) 8 0;
              data := {[ "80010190" := [demoWindow day0; demoWindow (day0 + 1)] ]} |}).
  - vm_compute. reflexivity.
  - vm_compute. discriminate.
Defined.



Lemma GetWaitTimes_not_configured_witness :
  let self :=
    {| park_id := None; park_region := Some "us"; resort_id := "80007798";
       park_timezone := -300; scheduleMaxDates := 2;
       APIBase := "https://api.wdpro.disney.go.com/facility-service/";
       _accessTokenURL := "https://authorization.go.com/token";
       _appID := "WDW-MDX-ANDROID-3.4.1" |} in
  GetWaitTimes failingNet self (startedAt (at_ day0 20 0))
  = (Err "Park not configured correctly", startedAt (at_ day0 20 0)).
Proof.
  intros self.
  apply (GetWaitTimes_not_configured failingNet self (startedAt (at_ day0 20 0))).
  left. reflexivity.
Defined.

Lemma GetWaitTimes_status_witness :
  let net :=
    demoNet (tokenReply 3600) (scheduleReply [])
      (liveReply [runningRide "80010191;entityType=Attraction"]) in
  let s := startedAt (at_ day0 20 0) in
  let obj :=
    {| r_id := "80010191"; r_name := "Space Mountain"; r_waitTime := 25;
       r_active := false; r_status := "Closed"; r_fastPass := None;
       r_schedule :=
         ScheduleWindow (allDay (park_timezone demoPark) (at_ day0 20 0) false) |} in
  GetWaitTimes net demoPark s = (Ok [obj], snd (GetWaitTimes net demoPark s))
  /\ r_status obj ∈ _expectedRideStatusStrings
  /\ (r_active obj = true <-> r_status obj = "Operating").
Proof.
  intros net s obj.
  assert (Hrun : GetWaitTimes net demoPark s
                 = (Ok [obj], snd (GetWaitTimes net demoPark s)))
    by (vm_compute; reflexivity).
  split; [exact Hrun |].
  exact (GetWaitTimes_status net demoPark s _ [obj] obj Hrun (list_elem_of_here obj [])).
Defined.

Lemma GetWaitTimes_records_witness :
  let live := [restaurant; runningRide "80010191;entityType=Attraction"] in
  let net := demoNet (tokenReply 3600) (scheduleReply []) (liveReply live) in
  let s := startedAt (at_ day0 20 0) in
  let rides := default [] (match fst (GetWaitTimes net demoPark s) with
                           | Ok rides => Some rides
                           | _ => None
                           end) in
  map (fun obj => (r_id obj, r_name obj)) rides = [("80010191", "Space Mountain")]
  /\ exists s1 s2 o es,
       CacheScheduleData net demoPark s = (Ok tt, s1)
       /\ FetchURL net demoPark (ContructWaitTimesURL demoPark)
            (withData (RegionData (park_region demoPark))) s1 = (Ok (JsonObj o), s2)
       /\ entries o = Some (map Some es)
       /\ map (fun obj => (r_id obj, r_name obj)) rides
          = map (fun ride => (CleanRideID (default "" (l_id ride)),
                              default "" (l_name ride)))
              (List.filter isAttraction es).
Proof.
  intros live net s rides. split; [vm_compute; reflexivity |].
  apply (GetWaitTimes_records net demoPark s (snd (GetWaitTimes net demoPark s)) rides).
  vm_compute. reflexivity.
Defined.

Lemma selection_stable_while_active_witness :
  let ws := [spillYesterday; spillToday] in
  let ws' := deleteSelectedDate (at_ day0 1 0) day0 ws in
  ws' = [set_date None spillYesterday; spillToday]
  /\ selectedWindow (at_ day0 1 0) day0 ws' = selectedWindow (at_ day0 1 0) day0 ws
  /\ deleteSelectedDate (at_ day0 1 0) day0 ws' = ws'.
Proof.
  intros ws ws'. split; [vm_compute; reflexivity |].
  apply (selection_stable_while_active (at_ day0 1 0) day0 ws).
  exists spillYesterday. split; [apply list_elem_of_here |].
  unfold activeAt. vm_compute. split; reflexivity.
Defined.

Lemma parseActivity_invariants_witness :
  let w := push_special (specialWindow demoPark (extraHours day0)) (demoWindow day0) in
  (exists d, date w = Some d /\ day0 <= d <= day0 + 2)
  /\ (type w = "Operating" \/ type w = "Closed")
  /\ openingTime w <= closingTime w < openingTime w + moment.DAY.
Proof.
  intros w.
  pose proof (parseActivity_invariants demoPark (at_ day0 20 0)
                [demoEntry day0; extraHours day0] w
                ltac:(vm_compute; apply list_elem_of_here)) as H.
  split; [exact (proj1 H) |]. split; [exact (proj1 (proj2 H)) |].
  apply (proj2 (proj2 H)). repeat constructor; vm_compute; discriminate.
Defined.

Lemma CacheScheduleData_failure_witness :
  let s := eveningState in
  let s' := snd (CacheScheduleData failingNet demoPark s) in
  CacheScheduleData failingNet demoPark s = (Err "Error fetching park schedule", s')
  /\ requests s' <> requests s
  /\ scheduleCache s' = scheduleCache s
  /\ (@Err unit "Error fetching park schedule" = Err "Error fetching park schedule"
      \/ @Err unit "Error fetching park schedule" = Err "No schedule data returned").
Proof.
  intros s s'.
  assert (Hrun : CacheScheduleData failingNet demoPark s
                 = (Err "Error fetching park schedule", s'))
    by (vm_compute; reflexivity).
  split; [exact Hrun |]. split; [vm_compute; discriminate |].
  apply (CacheScheduleData_failure failingNet demoPark s s' _ Hrun). discriminate.
Defined.

Lemma GetWaitTimes_failures_witness :
  let net := demoNet (tokenReply 3600) (scheduleReply []) nullEntryReply in
  let s := startedAt (at_ day0 20 0) in
  fst (GetWaitTimes net demoPark s)
  = Throw "TypeError: Cannot read property 'id' of null"
  /\ exists s1 s2 o es,
       CacheScheduleData net demoPark s = (Ok tt, s1)
       /\ FetchURL net demoPark (ContructWaitTimesURL demoPark)
            (withData (RegionData (park_region demoPark))) s1 = (Ok (JsonObj o), s2)
       /\ entries o = Some es
       /\ (("TypeError: Cannot read property 'id' of null"
            = "TypeError: Cannot read property 'id' of null" /\ None ∈ es)
           \/ ("TypeError: Cannot read property 'id' of null"
               = "TypeError: Cannot read property 'fastPass' of undefined"
               /\ exists ride,
                    Some ride ∈ es /\ isAttraction ride = true
                    /\ l_waitTime ride = None)).
Proof.
  intros net s. split; [vm_compute; reflexivity |].
  assert (Hrun : GetWaitTimes net demoPark s
                 = (Throw "TypeError: Cannot read property 'id' of null",
                    snd (GetWaitTimes net demoPark s)))
    by (vm_compute; reflexivity).
  exact (GetWaitTimes_failures net demoPark s _ _ Hrun).
Defined.

Lemma GetWaitTimes_fallback_witness :
  let net :=
    demoNet (tokenReply 3600) (scheduleReply [demoEntry day0])
      (liveReply [closedRide "80010191;entityType=Attraction"]) in
  let s := eveningState in
  let s' := snd (GetWaitTimes net demoPark s) in
  let obj :=
    closedRecord "80010191"
      (Some {| date := None;
               openingTime := at_ day0 0 0;
               closingTime := at_ day0 23 59 + 59000;
               type := "Closed";
               special := None |}) in
  GetWaitTimes net demoPark s = (Ok [obj], s')
  /\ cachedSchedule demoPark s' "80010190" = Some [demoWindow day0;
        synthesized (park_timezone demoPark) (day0 + 1);
        synthesized (park_timezone demoPark) (day0 + 2)]
  /\ r_schedule obj
     = ScheduleWindow
         {| date := None;
            openingTime :=
              moment.format (moment.startOfDay (park_timezone demoPark) (clock s'));
            closingTime :=
              moment.format (moment.endOfDay (park_timezone demoPark) (clock s'));
            type := if r_active obj then "Operating" else "Closed";
            special := None |}.
Proof.
  intros net s s' obj.
  assert (Hrun : GetWaitTimes net demoPark s = (Ok [obj], s'))
    by (vm_compute; reflexivity).
  split; [exact Hrun |]. split; [vm_compute; reflexivity |].
  apply (GetWaitTimes_fallback net demoPark s s' [obj] obj Hrun
           (list_elem_of_here obj [])).
  - vm_compute. reflexivity.
  - vm_compute. reflexivity.
  - vm_compute. reflexivity.
Defined.
